(** * HZZAnalysis-Combination: the event-processing pipeline

    A shallow embedding of the code cells of
    [Combination workflow/HZZAnalysis-Combination.ipynb]:
    [get_data_from_files], [calc_weight], [get_xsec_weight], [calc_mllll],
    [cut_lep_charge], [cut_lep_type], [read_file] and
    [save_histograms_to_root].

    Conventions of the embedding.
    - Python floats and the floating-point columns of the ntuples are
      real numbers ([R]), which have the square root and the trigonometric
      functions of the mass computation.  Weights and masses are idealised:
      their rounding is outside the model, as are infinities and NaN.
      Where an integer is cut out of a float, in the number of entries
      [numevents * fraction] that [read_file] asks for, the product is
      rounded to binary64 as Python does.  The bin of a mass is taken in
      exact arithmetic.
    - The integer columns hold 32-bit values, written as [Z]; their
      element-wise sums wrap around.
    - A raised Python exception is the left injection of [result]; the
      sequencing of statements is the bind of that error monad.
    - An awkward array of event records is a list of [Event] rows together
      with the optional columns [totalWeight] and [mllll] that the notebook
      attaches.
    - [print] and the wall-clock diagnostics have no effect on any value
      and are left out. *)

From Stdlib Require Import Reals Lra Lia ZArith Bool String Ascii List.
From Stdlib Require Import Permutation DecimalString.
Import ListNotations.

Open Scope R_scope.

(** ** Exceptions and the error monad *)

Inductive Exception : Type :=
| KeyError          (* dict lookup of a missing key *)
| ZeroDivisionError (* float division by zero *)
| IndexError        (* awkward: index out of range in a jagged slice *)
| ValueError        (* awkward: mismatching lengths *)
| TypeError         (* awkward: concatenate of no array; PyROOT: an argument
                       that cannot be converted *)
| AttributeError    (* record field that the array does not have *)
| NameError         (* local variable read before assignment *)
| FieldNotFoundError (* awkward: record field that does not exist *)
| OSError.          (* uproot: file that cannot be opened *)

(** The class name under which Python reports the exception. *)
Definition exception_name (e : Exception) : string :=
  match e with
  | KeyError => "KeyError"
  | ZeroDivisionError => "ZeroDivisionError"
  | IndexError => "IndexError"
  | ValueError => "ValueError"
  | TypeError => "TypeError"
  | AttributeError => "AttributeError"
  | NameError => "NameError"
  | FieldNotFoundError => "FieldNotFoundError"
  | OSError => "OSError"
  end%string.

Definition result (A : Type) : Type := (Exception + A)%type.

Definition ret {A} (a : A) : result A := inr a.
Definition raise {A} (e : Exception) : result A := inl e.

Definition bind {A B} (c : result A) (k : A -> result B) : result B :=
  match c with
  | inl e => inl e
  | inr a => k a
  end.

Notation "x <- c ;; k" := (bind c (fun x => k))
  (at level 61, c at next level, right associativity).

(** Runs [f] on the elements from left to right; the first exception
    aborts the traversal. *)
Fixpoint mapM {A B} (f : A -> result B) (l : list A) : result (list B) :=
  match l with
  | [] => ret []
  | a :: l' => b <- f a ;; bs <- mapM f l' ;; ret (b :: bs)
  end.

Definition is_ok {A} (c : result A) : bool :=
  match c with inr _ => true | inl _ => false end.

(** ** Strings and dictionaries *)

(** Python's [pat in s] on strings. *)
Fixpoint str_contains (pat s : string) : bool :=
  String.prefix pat s ||
  match s with
  | EmptyString => false
  | String _ s' => str_contains pat s'
  end.

(** Python's [str] on an integer. *)
Definition str_of_int (z : Z) : string := NilZero.string_of_int (Z.to_int z).

(** A dict with string keys, in insertion order. *)
Definition dict (V : Type) : Type := list (string * V).

Fixpoint dict_get {V} (d : dict V) (k : string) : result V :=
  match d with
  | [] => raise KeyError
  | (k', v) :: d' => if String.eqb k k' then ret v else dict_get d' k
  end.

Fixpoint dict_set {V} (d : dict V) (k : string) (v : V) : dict V :=
  match d with
  | [] => [(k, v)]
  | (k', v') :: d' =>
      if String.eqb k k' then (k', v) :: d' else (k', v') :: dict_set d' k v
  end.

Definition dict_keys {V} (d : dict V) : list string := map fst d.

(** ** Data model *)

(** One entry of the [mini] tree, restricted to the branches that
    [read_file] asks for. *)
Record Event : Type := mkEvent {
  lep_pt : list R;
  lep_eta : list R;
  lep_phi : list R;
  lep_E : list R;
  lep_charge : list Z;
  lep_type : list Z;
  mcWeight : R;
  scaleFactor_PILEUP : R;
  scaleFactor_ELE : R;
  scaleFactor_MUON : R;
  scaleFactor_LepTRIGGER : R
}.

(** An awkward array of event records with the two derived columns. *)
Record Array : Type := mkArray {
  rows : list Event;
  totalWeight : option (list R);
  mllll : option (list R)
}.

Definition len (data : Array) : nat := length (rows data).

(** One record of [infofile.infos]. *)
Record Info : Type := mkInfo {
  DSID : Z;
  events : Z;
  red_eff : R;
  sumw : R;
  xsec : R
}.

(** ** Units *)

Definition MeV : R := 0.001.
Definition GeV : R := 1.0.

(** ** Jagged-array primitives *)

(** [col[:, i]]: the [i]-th element of every sublist; awkward raises as soon
    as one sublist is too short. *)
Definition getitem_col {A} (col : list (list A)) (i : nat) : result (list A) :=
  mapM (fun q => match nth_error q i with
                 | Some a => ret a
                 | None => raise IndexError
                 end) col.

(** Element-wise binary operation on two flat columns. *)
Fixpoint map2 {A B C} (f : A -> B -> C) (l : list A) (m : list B) : list C :=
  match l, m with
  | a :: l', b :: m' => f a b :: map2 f l' m'
  | _, _ => []
  end.

(** [col[mask]] for a boolean mask. *)
Fixpoint getitem_mask {A} (col : list A) (mask : list bool) : list A :=
  match col, mask with
  | a :: col', b :: mask' =>
      if b then a :: getitem_mask col' mask' else getitem_mask col' mask'
  | _, _ => []
  end.

(** [data[mask]] on a record array: every column is sliced alike. *)
Definition Array_getitem_mask (data : Array) (mask : list bool) : Array :=
  {| rows := getitem_mask (rows data) mask;
     totalWeight := option_map (fun c => getitem_mask c mask) (totalWeight data);
     mllll := option_map (fun c => getitem_mask c mask) (mllll data) |}.

(** The optional column of a concatenation is present when every part
    has it. *)
Fixpoint concat_columns (cols : list (option (list R))) : option (list R) :=
  match cols with
  | [] => Some []
  | c :: cols' =>
      match c, concat_columns cols' with
      | Some l, Some l' => Some (l ++ l')
      | _, _ => None
      end
  end.

(** [ak.concatenate]: an empty list of arrays is refused with a
    [TypeError]. *)
Definition ak_concatenate (arrays : list Array) : result Array :=
  match arrays with
  | [] => raise TypeError
  | _ =>
      ret {| rows := concat (map rows arrays);
             totalWeight := concat_columns (map totalWeight arrays);
             mllll := concat_columns (map mllll arrays) |}
  end.

(** ** Weights *)

(** [calc_weight(xsec_weight, events)], element-wise over the batch. *)
Definition calc_weight (xsec_weight : R) (events : list Event) : list R :=
  map (fun e =>
         xsec_weight
         * mcWeight e
         * scaleFactor_PILEUP e
         * scaleFactor_ELE e
         * scaleFactor_MUON e
         * scaleFactor_LepTRIGGER e) events.

(** Float division: raises on a zero divisor. *)
Definition py_div (a b : R) : result R :=
  if Req_dec_T b 0 then raise ZeroDivisionError else ret (a / b).

(** ** Selection cuts *)

(** The value that 32-bit two's-complement arithmetic keeps of an integer.
    The charge and type columns of the ntuples hold 32-bit integers, and
    the element-wise sum of two such columns wraps around. *)
Definition int32 (z : Z) : Z :=
  ((z + 2147483648) mod 4294967296 - 2147483648)%Z.

Definition col_add (a b : list Z) : list Z :=
  map2 (fun x y => int32 (x + y)) a b.

(** Rejection mask: [True] where the summed charge of the first four
    leptons is not zero. *)
Definition cut_lep_charge (lep_charge : list (list Z)) : result (list bool) :=
  c0 <- getitem_col lep_charge 0 ;;
  c1 <- getitem_col lep_charge 1 ;;
  c2 <- getitem_col lep_charge 2 ;;
  c3 <- getitem_col lep_charge 3 ;;
  ret (map (fun s => negb (s =? 0)%Z)
           (col_add (col_add (col_add c0 c1) c2) c3)).

(** Rejection mask: [True] where the summed type code of the first four
    leptons is none of 44, 48, 52. *)
Definition cut_lep_type (lep_type : list (list Z)) : result (list bool) :=
  t0 <- getitem_col lep_type 0 ;;
  t1 <- getitem_col lep_type 1 ;;
  t2 <- getitem_col lep_type 2 ;;
  t3 <- getitem_col lep_type 3 ;;
  let sum_lep_type := col_add (col_add (col_add t0 t1) t2) t3 in
  ret (map (fun s => negb (s =? 44)%Z && negb (s =? 48)%Z && negb (s =? 52)%Z)
           sum_lep_type).

(** ** Four-vectors (the part of the [vector] package that [calc_mllll]
    uses) *)

(** A momentum record in the coordinates given to [vector.zip]. *)
Record Momentum4D : Type := mkMomentum4D {
  p_pt : R;
  p_eta : R;
  p_phi : R;
  p_E : R
}.

(** A Cartesian four-vector, the coordinates in which sums are returned. *)
Record LorentzXYZT : Type := mkLorentzXYZT {
  v_x : R;
  v_y : R;
  v_z : R;
  v_t : R
}.

Definition to_xyzt (p : Momentum4D) : LorentzXYZT :=
  {| v_x := p_pt p * cos (p_phi p);
     v_y := p_pt p * sin (p_phi p);
     v_z := p_pt p * sinh (p_eta p);
     v_t := p_E p |}.

Definition xyzt_add (a b : LorentzXYZT) : LorentzXYZT :=
  {| v_x := v_x a + v_x b;
     v_y := v_y a + v_y b;
     v_z := v_z a + v_z b;
     v_t := v_t a + v_t b |}.

(** [a + b] for two records in (pt, eta, phi, E) coordinates. *)
Definition vec_add_pp (a b : Momentum4D) : LorentzXYZT :=
  xyzt_add (to_xyzt a) (to_xyzt b).

(** [a + b] for a Cartesian sum and a record in (pt, eta, phi, E). *)
Definition vec_add_xp (a : LorentzXYZT) (b : Momentum4D) : LorentzXYZT :=
  xyzt_add a (to_xyzt b).

Definition tau2 (v : LorentzXYZT) : R :=
  v_t v * v_t v - (v_x v * v_x v + v_y v * v_y v + v_z v * v_z v).

Definition copysign (a b : R) : R :=
  if Rlt_dec b 0 then - Rabs a else Rabs a.

(** [.M]: the square root of [|tau2|], carrying the sign of [tau2]. *)
Definition vec_M (v : LorentzXYZT) : R :=
  copysign (sqrt (Rabs (tau2 v))) (tau2 v).

(** Zips four lists element by element; lists of different lengths cannot
    be broadcast against each other. *)
Fixpoint zip4M {A B C D X} (f : A -> B -> C -> D -> result X)
    (la : list A) (lb : list B) (lc : list C) (ld : list D)
    : result (list X) :=
  match la, lb, lc, ld with
  | [], [], [], [] => ret []
  | a :: la', b :: lb', c :: lc', d :: ld' =>
      x <- f a b c d ;;
      xs <- zip4M f la' lb' lc' ld' ;;
      ret (x :: xs)
  | _, _, _, _ => raise ValueError
  end.

(** [vector.zip({"pt": .., "eta": .., "phi": .., "E": ..})] on jagged
    columns. *)
Definition vector_zip (pt eta phi E : list (list R))
    : result (list (list Momentum4D)) :=
  zip4M (zip4M (fun a b c d => ret (mkMomentum4D a b c d))) pt eta phi E.

Definition calc_mllll (lep_pt lep_eta lep_phi lep_E : list (list R))
    : result (list R) :=
  p4 <- vector_zip lep_pt lep_eta lep_phi lep_E ;;
  p4_0 <- getitem_col p4 0 ;;
  p4_1 <- getitem_col p4 1 ;;
  p4_2 <- getitem_col p4 2 ;;
  p4_3 <- getitem_col p4 3 ;;
  ret (map (fun v => vec_M v * MeV)
           (map2 vec_add_xp
                 (map2 vec_add_xp (map2 vec_add_pp p4_0 p4_1) p4_2) p4_3)).

(** ** Binary64 arithmetic

    The number of entries that [read_file] asks for is a product of
    Python floats, and an integer is cut out of it: there the rounding of
    the product decides a count, so it is part of the model.  A float is
    the real number it stands for, and an operation returns the binary64
    number nearest to the exact result, ties going to the even mantissa.
    (Exponents are bounded below, for gradual underflow, and not above:
    a product beyond [2^1024] has no place in this pipeline.) *)

(** The integer nearest to [x], the even one of two that are equally
    near. *)
Definition round_half_even (x : R) : Z :=
  let f := Zfloor x in
  if Rlt_dec (x - IZR f) (1 / 2) then f
  else if Rlt_dec (1 / 2) (x - IZR f) then (f + 1)%Z
  else if Z.even f then f else (f + 1)%Z.

(** The exponent [e] with [2^e <= |x| < 2^(e+1)]. *)
Definition binade (x : R) : Z := Zfloor (ln (Rabs x) / ln 2).

(** The binary64 number nearest to [x]: 53 bits of mantissa, the last one
    worth [2^(binade x - 52)] and never less than [2^-1074]. *)
Definition round64 (x : R) : R :=
  if Req_dec_T x 0 then 0
  else
    let e := Z.max (binade x - 52) (-1074) in
    IZR (round_half_even (x / powerRZ 2 e)) * powerRZ 2 e.

(** [float(n)], [x * y] and [x + y] on floats. *)
Definition float_of_nat (n : nat) : R := round64 (INR n).
Definition float_mul (x y : R) : R := round64 (x * y).
Definition float_add (x y : R) : R := round64 (x + y).

(** ** Batch reader (the part of [uproot] that [read_file] uses) *)

(** The stop entry that [iterate] derives from its float [entry_stop]
    argument: negative values count from the end, the value is clamped to
    [0 .. num_entries] and converted with [int]. *)
Definition regularize_entry_stop (num_entries : nat) (entry_stop : R) : nat :=
  let s := if Rlt_dec entry_stop 0
           then float_add entry_stop (float_of_nat num_entries)
           else entry_stop in
  Z.to_nat (Zfloor (Rmin (INR num_entries) (Rmax 0 s))).

Definition num_batches (stop entry_step : nat) : nat :=
  Nat.div (stop + entry_step - 1) entry_step.

(** [tree.iterate(.., entry_stop=..)]: consecutive batches of
    [entry_step] entries, the last one cut at the stop entry. *)
Definition iterate (entry_step : nat) (tree : list Event) (entry_stop : R)
    : list Array :=
  let stop := regularize_entry_stop (length tree) entry_stop in
  let entries := firstn stop tree in
  map (fun k => {| rows := firstn entry_step (skipn (k * entry_step) entries);
                   totalWeight := None;
                   mllll := None |})
      (seq 0 (num_batches stop entry_step)).

(** ** Histograms *)

(** A [TH1F] with fixed bins: cell 0 of [fArray] is the underflow, cells
    [1 .. fNbins] are the bins and cell [fNbins + 1] is the overflow. *)
Record TH1F : Type := mkTH1F {
  fNbins : nat;
  fXmin : R;
  fXmax : R;
  fArray : list R
}.

Definition TH1F_new (nbins : nat) (xmin xmax : R) : TH1F :=
  {| fNbins := nbins; fXmin := xmin; fXmax := xmax;
     fArray := repeat 0 (nbins + 2) |}.

Fixpoint list_alter {A} (f : A -> A) (i : nat) (l : list A) : list A :=
  match l, i with
  | [], _ => []
  | a :: l', O => f a :: l'
  | a :: l', S i' => a :: list_alter f i' l'
  end.

(** [TAxis::FindBin] for fixed bins without axis extension. *)
Definition FindBin (h : TH1F) (x : R) : nat :=
  if Rlt_dec x (fXmin h) then 0%nat
  else if Rlt_dec x (fXmax h) then
    (1 + Z.to_nat (Zfloor (INR (fNbins h) * (x - fXmin h)
                           / (fXmax h - fXmin h))))%nat
  else (fNbins h + 1)%nat.

Definition AddBinContent (h : TH1F) (bin : nat) (w : R) : TH1F :=
  {| fNbins := fNbins h; fXmin := fXmin h; fXmax := fXmax h;
     fArray := list_alter (fun c => c + w) bin (fArray h) |}.

Definition SetBinContent (h : TH1F) (bin : nat) (content : R) : TH1F :=
  {| fNbins := fNbins h; fXmin := fXmin h; fXmax := fXmax h;
     fArray := list_alter (fun _ => content) bin (fArray h) |}.

Definition GetBinContent (h : TH1F) (bin : nat) : R := nth bin (fArray h) 0.

(** [h.FillN(ntimes, x, w)]. *)
Definition FillN (h : TH1F) (ntimes : nat) (x w : list R) : TH1F :=
  fold_left (fun h xw => AddBinContent h (FindBin h (fst xw)) (snd xw))
            (firstn ntimes (combine x w)) h.

(** The bin of [np.histogram(a, bins=n, range=(lo, hi))] that receives [x]:
    values outside the closed range are dropped and the upper edge belongs
    to the last bin. *)
Definition np_bin_index (n : nat) (lo hi x : R) : option nat :=
  if Rlt_dec x lo then None
  else if Rlt_dec hi x then None
  else if Req_dec_T x hi then Some (n - 1)%nat
  else Some (Z.to_nat (Zfloor ((x - lo) / (hi - lo) * INR n))).

Definition np_histogram (a : list R) (bins : nat) (lo hi : R) : list Z :=
  fold_left (fun counts x =>
               match np_bin_index bins lo hi x with
               | Some i => list_alter Z.succ i counts
               | None => counts
               end) a (repeat 0%Z bins).

Definition signal_key : string := "Signal ($m_H$ = 125 GeV)".

(** [data[s]['mllll']] and [data[s].totalWeight]. *)
Definition get_mllll (a : Array) : result (list R) :=
  match mllll a with Some c => ret c | None => raise FieldNotFoundError end.

Definition get_totalWeight (a : Array) : result (list R) :=
  match totalWeight a with Some c => ret c | None => raise AttributeError end.

(** The data histogram: counts from [np.histogram] copied into bins
    [1 .. n_bins]. *)
Definition fill_data_hist (n_bins : nat) (xmin xmax : R) (m : list R) : TH1F :=
  let data_x := np_histogram m n_bins xmin xmax in
  fold_left (fun h iv => SetBinContent h (fst iv + 1) (IZR (snd iv)))
            (combine (seq 0 (length data_x)) data_x)
            (TH1F_new n_bins xmin xmax).

(** A simulation histogram: filled with [FillN] from masses and weights. *)
Definition fill_mc_hist (n_bins : nat) (xmin xmax : R) (x w : list R) : TH1F :=
  FillN (TH1F_new n_bins xmin xmax) (length x) x w.

(** [ROOT.TH1F(..)] followed by [hist.FillN(len(x), x, w)], called from
    Python on two numpy arrays: PyROOT has no pointer to hand to [FillN]
    for an array without elements and raises [TypeError].  (The columns
    are taken to be arrays of doubles, which is what [FillN] accepts.) *)
Definition new_mc_hist (n_bins : nat) (xmin xmax : R) (x w : list R)
    : result TH1F :=
  match x, w with
  | _ :: _, _ :: _ => ret (fill_mc_hist n_bins xmin xmax x w)
  | _, _ => raise TypeError
  end.

(** The two cuts of [read_file], applied one after the other:
    [data = data[~cut_lep_charge(data.lep_charge)]] and
    [data = data[~cut_lep_type(data.lep_type)]]. *)
Definition apply_cuts (data : Array) : result Array :=
  rejected <- cut_lep_charge (map lep_charge (rows data)) ;;
  let data := Array_getitem_mask data (map negb rejected) in
  rejected <- cut_lep_type (map lep_type (rows data)) ;;
  ret (Array_getitem_mask data (map negb rejected)).

Section Globals.

(** The notebook's global configuration, the metadata table of
    [infofile.py], the storage behind [uproot.open] and the batch size
    that [iterate] works with. *)
Variable lumi : R.
Variable fraction : R.
Variable tuple_path : string.
Variable samples : dict (list string).
Variable infos : dict Info.
Variable uproot_open : string -> result (list Event).
Variable entry_step : nat.

Definition get_xsec_weight (sample : string) : result R :=
  info <- dict_get infos sample ;;
  xsec_weight <- py_div (lumi * 1000 * xsec info) (sumw info * red_eff info) ;;
  ret xsec_weight.

(** The body of the loop over batches in [read_file]. *)
Definition process_batch (sample : string) (xsec_weight : option R)
    (data : Array) : result Array :=
  data <- (if negb (str_contains "data" sample) then
             match xsec_weight with
             | Some xw =>
                 ret {| rows := rows data;
                        totalWeight := Some (calc_weight xw (rows data));
                        mllll := mllll data |}
             | None => raise NameError
             end
           else ret data) ;;
  data <- apply_cuts data ;;
  m <- calc_mllll (map lep_pt (rows data)) (map lep_eta (rows data))
                  (map lep_phi (rows data)) (map lep_E (rows data)) ;;
  ret {| rows := rows data; totalWeight := totalWeight data; mllll := Some m |}.

Definition read_file (path sample : string) : result Array :=
  tree <- uproot_open (path ++ ":mini")%string ;;
  let numevents := length tree in
  xsec_weight <- (if negb (str_contains "data" sample)
                  then xw <- get_xsec_weight sample ;; ret (Some xw)
                  else ret None) ;;
  data_all <- mapM (process_batch sample xsec_weight)
                   (iterate entry_step tree
                            (float_mul (float_of_nat numevents) fraction)) ;;
  ak_concatenate data_all.

(** The path prefix chosen in [get_data_from_files]. *)
Definition file_prefix (s val : string) : result string :=
  if String.eqb s "data" then ret "Data/"%string
  else info <- dict_get infos val ;;
       ret ("MC/mc_" ++ str_of_int (DSID info) ++ ".")%string.

(** One turn of the inner loop of [get_data_from_files]: the frame of one
    constituent sample. *)
Definition read_one (s val : string) : result Array :=
  prefix <- file_prefix s val ;;
  let fileString := (tuple_path ++ prefix ++ val ++ ".4lep.root")%string in
  read_file fileString val.

(** One turn of the outer loop: the frames of a category, concatenated. *)
Definition read_category (s : string) (vals : list string) : result Array :=
  frames <- mapM (read_one s) vals ;;
  ak_concatenate frames.

Fixpoint get_data_loop (todo : dict (list string)) (data : dict Array)
    : result (dict Array) :=
  match todo with
  | [] => ret data
  | (s, vals) :: todo' =>
      a <- read_category s vals ;;
      get_data_loop todo' (dict_set data s a)
  end.

Definition get_data_from_files : result (dict Array) :=
  get_data_loop samples [].

(** The objects written to [ATLAS_histograms.root], by name. *)
Definition save_histograms_to_root (data : dict Array) : result (dict TH1F) :=
  let n_bins := 36%nat in
  let xmin := 70 in
  let xmax := 180 in
  d <- dict_get data "data" ;;
  d_m <- get_mllll d ;;
  let data_hist := fill_data_hist n_bins xmin xmax d_m in
  sg <- dict_get data signal_key ;;
  signal_x <- get_mllll sg ;;
  signal_weights <- get_totalWeight sg ;;
  signal_hist <- new_mc_hist n_bins xmin xmax signal_x signal_weights ;;
  mc <- mapM (fun s =>
                a <- dict_get data s ;;
                mc_x <- get_mllll a ;;
                mc_weights <- get_totalWeight a ;;
                mc_hist <- new_mc_hist n_bins xmin xmax mc_x mc_weights ;;
                ret (("mc_hist_" ++ s)%string, mc_hist))
             (filter (fun s => negb (String.eqb s "data" || String.eqb s signal_key))
                     (dict_keys samples)) ;;
  ret (("data_hist"%string, data_hist) :: ("signal_hist"%string, signal_hist) :: mc).

End Globals.

(** ** Vocabulary of the statements *)





(** A batch as [iterate] delivers it: no derived column yet. *)
Definition fresh (evs : list Event) : Array :=
  {| rows := evs; totalWeight := None; mllll := None |}.

(** The per-lepton momentum sequences of an event have one common length. *)
Definition aligned (e : Event) : Prop :=
  length (lep_eta e) = length (lep_pt e) /\
  length (lep_phi e) = length (lep_pt e) /\
  length (lep_E e) = length (lep_pt e).

(** An event with the momenta of at least four leptons. *)
Definition four_momenta (e : Event) : Prop :=
  (4 <= length (lep_pt e))%nat /\ aligned e.

(** An event with the charge and the type code of at least four leptons. *)
Definition four_codes (e : Event) : Prop :=
  (4 <= length (lep_charge e))%nat /\ (4 <= length (lep_type e))%nat.

(** The guarantee of the 4lep ntuples: at least four leptons per event,
    with charge, type and momentum stored for each. *)
Definition well_formed (e : Event) : Prop :=
  four_codes e /\ four_momenta e.

(** Sum of the first four entries of an integer sequence, as the cuts
    compute it: entry by entry from the left, in 32-bit arithmetic. *)
Definition sum_first4 (l : list Z) : Z :=
  int32 (int32 (int32 (nth 0 l 0 + nth 1 l 0) + nth 2 l 0) + nth 3 l 0)%Z.

(** The same sum in the integers, and the integers that a 32-bit column
    can hold. *)
Definition exact_sum4 (l : list Z) : Z :=
  (nth 0 l 0 + nth 1 l 0 + nth 2 l 0 + nth 3 l 0)%Z.

Definition fits_int32 (z : Z) : Prop :=
  (-2147483648 <= z < 2147483648)%Z.

(** The events that the selection keeps. *)
Definition selected (e : Event) : bool :=
  (sum_first4 (lep_charge e) =? 0)%Z &&
  ((sum_first4 (lep_type e) =? 44)%Z
   || (sum_first4 (lep_type e) =? 48)%Z
   || (sum_first4 (lep_type e) =? 52)%Z).

(** The leptons of an event as (pt, eta, phi, E) tuples, in stored order. *)
Definition zip_p4 (pt eta phi E : list R) : list Momentum4D :=
  map (fun q => mkMomentum4D (fst (fst (fst q))) (snd (fst (fst q)))
                             (snd (fst q)) (snd q))
      (combine (combine (combine pt eta) phi) E).

Definition leptons (e : Event) : list Momentum4D :=
  zip_p4 (lep_pt e) (lep_eta e) (lep_phi e) (lep_E e).


(** The [i]-th lepton of an event, and the quantity that [calc_mllll]
    computes for one event. *)
Definition lepton (e : Event) (i : nat) : Momentum4D :=
  nth i (leptons e) (mkMomentum4D 0 0 0 0).

Definition mllll_event (e : Event) : R :=
  vec_M (vec_add_xp (vec_add_xp (vec_add_pp (lepton e 0) (lepton e 1))
                                (lepton e 2)) (lepton e 3)) * MeV.

(** Cartesian momentum components of a lepton given by (pt, eta, phi). *)
Definition px (p : Momentum4D) : R := p_pt p * cos (p_phi p).
Definition py (p : Momentum4D) : R := p_pt p * sin (p_phi p).
Definition pz (p : Momentum4D) : R := p_pt p * sinh (p_eta p).

Definition total (f : Momentum4D -> R) (ps : list Momentum4D) : R :=
  fold_right (fun p acc => f p + acc) 0 ps.

(** Squared invariant mass of a system of particles: squared total energy
    minus squared magnitude of the total momentum. *)
Definition mass_squared (ps : list Momentum4D) : R :=
  (total p_E ps)² - ((total px ps)² + (total py ps)² + (total pz ps)²).


(** [e'] is [e] with its leptons from the fifth on reordered: the first
    four leptons are the same and the remaining ones are a permutation. *)
Definition tail_permuted (e e' : Event) : Prop :=
  firstn 4 (leptons e') = firstn 4 (leptons e) /\
  Permutation (skipn 4 (leptons e)) (skipn 4 (leptons e')).

Definition sum_list (l : list R) : R := fold_right Rplus 0 l.

(** Sum of the cells [a .. a + n - 1] of an array of bin contents. *)
Definition sum_window (a n : nat) (arr : list R) : R :=
  sum_list (map (fun i => nth i arr 0) (seq a n)).

(** Sum of the contents of the bins [1 .. fNbins] of a histogram; the
    underflow and overflow cells are not bins of the exported range. *)
Definition sum_bins (h : TH1F) : R :=
  sum_list (map (GetBinContent h) (seq 1 (fNbins h))).

Definition in_half_open (lo hi x : R) : bool :=
  if Rle_dec lo x then (if Rlt_dec x hi then true else false) else false.

Definition in_closed (lo hi x : R) : bool :=
  if Rle_dec lo x then (if Rle_dec x hi then true else false) else false.

(** Sum of the weights of the events whose mass lies in [lo, hi). *)
Definition weight_in_half_open (lo hi : R) (x w : list R) : R :=
  sum_list (map snd (filter (fun xw => in_half_open lo hi (fst xw))
                            (combine x w))).

(** Number of events whose mass lies in [lo, hi), respectively [lo, hi]. *)
Definition count_in_half_open (lo hi : R) (x : list R) : nat :=
  length (filter (in_half_open lo hi) x).

Definition count_in_closed (lo hi : R) (x : list R) : nat :=
  length (filter (in_closed lo hi) x).

(** [h] is the exported histogram of the simulated category [s] of
    [data]. *)
Definition mc_hist_of (data : dict Array) (s : string) (h : TH1F) : Prop :=
  exists a x w,
    dict_get data s = ret a /\ mllll a = Some x /\ totalWeight a = Some w /\
    h = fill_mc_hist 36 70 180 x w.

(** The category [s] of [data] has the columns that the export reads of a
    simulated category: masses [x] and weights [w], neither of them
    empty. *)
Definition simulated_columns (data : dict Array) (s : string)
    (x w : list R) : Prop :=
  exists a,
    dict_get data s = ret a /\ mllll a = Some x /\ totalWeight a = Some w /\
    x <> [] /\ w <> [].

(** The categories of [samples] that the export treats as simulated
    backgrounds. *)
Definition backgrounds (samples : dict (list string)) : list string :=
  filter (fun s => negb (String.eqb s "data" || String.eqb s signal_key))
         (dict_keys samples).

(** [h] is the exported histogram of the observed-data category. *)
Definition data_hist_of (data : dict Array) (h : TH1F) : Prop :=
  exists d m,
    dict_get data "data" = ret d /\ mllll d = Some m /\
    h = fill_data_hist 36 70 180 m.

(** ** Sample inputs *)

(** Four leptons at rest with unit energy: two electrons and two muons of
    balanced charge, with four different scale factors. *)
Definition ev_2e2mu : Event :=
  {| lep_pt := [0; 0; 0; 0]; lep_eta := [0; 0; 0; 0];
     lep_phi := [0; 0; 0; 0]; lep_E := [1; 1; 1; 1];
     lep_charge := [1; -1; 1; -1]%Z; lep_type := [11; 11; 13; 13]%Z;
     mcWeight := 1; scaleFactor_PILEUP := 2; scaleFactor_ELE := 3;
     scaleFactor_MUON := 5; scaleFactor_LepTRIGGER := 7 |}.

(** The same leptons with an unbalanced charge. *)
Definition ev_charge2 : Event :=
  {| lep_pt := [0; 0; 0; 0]; lep_eta := [0; 0; 0; 0];
     lep_phi := [0; 0; 0; 0]; lep_E := [1; 1; 1; 1];
     lep_charge := [1; 1; 1; -1]%Z; lep_type := [11; 11; 13; 13]%Z;
     mcWeight := 1; scaleFactor_PILEUP := 1; scaleFactor_ELE := 1;
     scaleFactor_MUON := 1; scaleFactor_LepTRIGGER := 1 |}.

(** Four leptons whose 32-bit charges add up to [2^32]. *)
Definition ev_overflow : Event :=
  {| lep_pt := [0; 0; 0; 0]; lep_eta := [0; 0; 0; 0];
     lep_phi := [0; 0; 0; 0]; lep_E := [1; 1; 1; 1];
     lep_charge := [2147483647; 2147483647; 1; 1]%Z;
     lep_type := [11; 11; 13; 13]%Z;
     mcWeight := 1; scaleFactor_PILEUP := 1; scaleFactor_ELE := 1;
     scaleFactor_MUON := 1; scaleFactor_LepTRIGGER := 1 |}.

(** An event with three leptons only. *)
Definition ev_3lep : Event :=
  {| lep_pt := [0; 0; 0]; lep_eta := [0; 0; 0];
     lep_phi := [0; 0; 0]; lep_E := [1; 1; 1];
     lep_charge := [1; -1; 1]%Z; lep_type := [11; 11; 13]%Z;
     mcWeight := 1; scaleFactor_PILEUP := 1; scaleFactor_ELE := 1;
     scaleFactor_MUON := 1; scaleFactor_LepTRIGGER := 1 |}.

(** Six leptons at rest, and the same event with the fifth and the sixth
    lepton exchanged. *)
Definition ev_6lep : Event :=
  {| lep_pt := [0; 0; 0; 0; 0; 0]; lep_eta := [0; 0; 0; 0; 0; 0];
     lep_phi := [0; 0; 0; 0; 0; 0]; lep_E := [1; 1; 1; 1; 2; 3];
     lep_charge := [1; -1; 1; -1; 1; -1]%Z;
     lep_type := [11; 11; 13; 13; 11; 11]%Z;
     mcWeight := 1; scaleFactor_PILEUP := 1; scaleFactor_ELE := 1;
     scaleFactor_MUON := 1; scaleFactor_LepTRIGGER := 1 |}.

Definition ev_6lep_swapped : Event :=
  {| lep_pt := [0; 0; 0; 0; 0; 0]; lep_eta := [0; 0; 0; 0; 0; 0];
     lep_phi := [0; 0; 0; 0; 0; 0]; lep_E := [1; 1; 1; 1; 3; 2];
     lep_charge := [1; -1; 1; -1; -1; 1]%Z;
     lep_type := [11; 11; 13; 13; 11; 11]%Z;
     mcWeight := 1; scaleFactor_PILEUP := 1; scaleFactor_ELE := 1;
     scaleFactor_MUON := 1; scaleFactor_LepTRIGGER := 1 |}.

(** Categories and processed arrays for a run with one observed event of
    mass [m] and one simulated signal event of mass 125 and weight 0.5. *)
Definition samples_small : dict (list string) :=
  [("data"%string, ["data_A"%string]); (signal_key, ["ggH125_ZZ4lep"%string])].

Definition data_small (m : R) : dict Array :=
  [("data"%string,
    {| rows := [ev_2e2mu]; totalWeight := None; mllll := Some [m] |});
   (signal_key,
    {| rows := [ev_2e2mu]; totalWeight := Some [0.5]; mllll := Some [125] |})].

(** The same run with the observed event and the signal event both at the
    upper edge of the histogram range, the signal event with weight 1. *)
Definition data_at_edge : dict Array :=
  [("data"%string,
    {| rows := [ev_2e2mu]; totalWeight := None; mllll := Some [180] |});
   (signal_key,
    {| rows := [ev_2e2mu]; totalWeight := Some [1]; mllll := Some [180] |})].

(** A metadata table with one simulated sample. *)
Definition infos_llll : dict Info :=
  [("llll"%string,
    {| DSID := 363490; events := 17825300; red_eff := 1;
       sumw := 4; xsec := 2 |})].

(** A metadata table in which a simulated sample carries ["data"] in its
    identifier, and a storage in which every file holds one event. *)
Definition infos_fake : dict Info :=
  [("fakedata_llll"%string,
    {| DSID := 363490; events := 17825300; red_eff := 1;
       sumw := 4; xsec := 2 |})].

Definition one_event_storage (path : string) : result (list Event) :=
  ret [ev_2e2mu].


(** ** Transformations of events *)

(** The event with every azimuthal angle advanced by [delta]: the same
    leptons seen in a detector frame rotated about the beam axis. *)
Definition shift_phi (delta : R) (e : Event) : Event :=
  {| lep_pt := lep_pt e; lep_eta := lep_eta e;
     lep_phi := map (fun phi => phi + delta) (lep_phi e);
     lep_E := lep_E e; lep_charge := lep_charge e; lep_type := lep_type e;
     mcWeight := mcWeight e; scaleFactor_PILEUP := scaleFactor_PILEUP e;
     scaleFactor_ELE := scaleFactor_ELE e;
     scaleFactor_MUON := scaleFactor_MUON e;
     scaleFactor_LepTRIGGER := scaleFactor_LepTRIGGER e |}.

(** The event with every transverse momentum and energy multiplied by
    [k]: the same leptons in another energy unit. *)
Definition scale_momenta (k : R) (e : Event) : Event :=
  {| lep_pt := map (fun pt => k * pt) (lep_pt e); lep_eta := lep_eta e;
     lep_phi := lep_phi e;
     lep_E := map (fun E => k * E) (lep_E e);
     lep_charge := lep_charge e; lep_type := lep_type e;
     mcWeight := mcWeight e; scaleFactor_PILEUP := scaleFactor_PILEUP e;
     scaleFactor_ELE := scaleFactor_ELE e;
     scaleFactor_MUON := scaleFactor_MUON e;
     scaleFactor_LepTRIGGER := scaleFactor_LepTRIGGER e |}.

(** The same transformations on one lepton. *)
Definition rotate_lepton (delta : R) (p : Momentum4D) : Momentum4D :=
  mkMomentum4D (p_pt p) (p_eta p) (p_phi p + delta) (p_E p).

Definition scale_lepton (k : R) (p : Momentum4D) : Momentum4D :=
  mkMomentum4D (k * p_pt p) (p_eta p) (p_phi p) (k * p_E p).

(** The mass that belongs to a squared mass [m2], negative when [m2] is. *)
Definition signed_root (m2 : R) : R := copysign (sqrt (Rabs m2)) m2.

(** Four leptons at rest with different energies, and the same leptons in
    another order followed by a fifth one. *)
Definition ev_energies : Event :=
  {| lep_pt := [0; 0; 0; 0]; lep_eta := [0; 0; 0; 0];
     lep_phi := [0; 0; 0; 0]; lep_E := [1; 2; 3; 4];
     lep_charge := [1; -1; 1; -1]%Z; lep_type := [11; 11; 13; 13]%Z;
     mcWeight := 1; scaleFactor_PILEUP := 1; scaleFactor_ELE := 1;
     scaleFactor_MUON := 1; scaleFactor_LepTRIGGER := 1 |}.

Definition ev_energies_reordered : Event :=
  {| lep_pt := [0; 0; 0; 0; 0]; lep_eta := [0; 0; 0; 0; 0];
     lep_phi := [0; 0; 0; 0; 0]; lep_E := [2; 1; 3; 4; 9];
     lep_charge := [-1; 1; 1; -1; 1]%Z; lep_type := [11; 11; 13; 13; 13]%Z;
     mcWeight := 1; scaleFactor_PILEUP := 1; scaleFactor_ELE := 1;
     scaleFactor_MUON := 1; scaleFactor_LepTRIGGER := 1 |}.

(** An event whose pseudorapidity sequence is shorter than the others. *)
Definition ev_misaligned : Event :=
  {| lep_pt := [0; 0; 0; 0]; lep_eta := [0; 0; 0];
     lep_phi := [0; 0; 0; 0]; lep_E := [1; 1; 1; 1];
     lep_charge := [1; -1; 1; -1]%Z; lep_type := [11; 11; 13; 13]%Z;
     mcWeight := 1; scaleFactor_PILEUP := 1; scaleFactor_ELE := 1;
     scaleFactor_MUON := 1; scaleFactor_LepTRIGGER := 1 |}.

(** The number of entries that [read_file] reads of a file with the
    throttle [fraction], and the events among them that survive the
    selection. *)
Definition entries_read (fraction : R) (tree : list Event) : nat :=
  regularize_entry_stop (length tree)
                        (float_mul (float_of_nat (length tree)) fraction).

Definition kept_events (fraction : R) (tree : list Event) : list Event :=
  filter selected (firstn (entries_read fraction tree) tree).

(** The binary64 number nearest to one third. *)
Definition third : R := 6004799503160661 / 18014398509481984.

(** The batches of a list of entries as lists of events. *)
Definition chunks (entry_step : nat) (entries : list Event) (n : nat)
    : list (list Event) :=
  map (fun k => firstn entry_step (skipn (k * entry_step) entries)) (seq 0 n).

(** A storage in which every file holds the events of [tree]. *)
Definition storage_of (tree : list Event) (path : string)
    : result (list Event) :=
  ret tree.

(** A file of three well-formed events, and a file whose second event
    has three leptons only. *)
Definition tree_small : list Event := [ev_charge2; ev_2e2mu; ev_6lep].

Definition tree_short : list Event := [ev_2e2mu; ev_3lep].

(** A configuration with the observed-data category only. *)
Definition samples_data_only : dict (list string) :=
  [("data"%string, ["data_A"%string])].

(** What [read_file] returns for a file that holds [tree_small], read
    whole as observed data. *)
Definition frame_small : Array :=
  {| rows := kept_events 1 tree_small;
     totalWeight := None;
     mllll := Some (map mllll_event (kept_events 1 tree_small)) |}.

(** ** Vocabulary of the histogram statements *)

(** The number of masses that satisfy [P]. *)
Definition count_where (P : R -> bool) (x : list R) : nat :=
  length (filter P x).

(** The [j]-th edge of [n] equal bins over [lo, hi]. *)
Definition bin_edge (n : nat) (lo hi : R) (j : nat) : R :=
  lo + INR j * ((hi - lo) / INR n).

(** The masses that fall into bin [i] (from 1) of the data histogram: the
    last bin includes its upper edge. *)
Definition in_data_bin (n : nat) (lo hi : R) (i : nat) (x : R) : bool :=
  if (i =? n)%nat then in_closed (bin_edge n lo hi (i - 1)) hi x
  else in_half_open (bin_edge n lo hi (i - 1)) (bin_edge n lo hi i) x.

(** ** The data counts of [plot_data] *)

(** [np.linspace(start, stop, num)]: [num] points at equal distance, the
    last one set to [stop]. *)
Definition np_linspace (start stop : R) (num : nat) : list R :=
  match num with
  | O => []
  | S O => [start]
  | S div =>
      map (fun j => start + INR j * ((stop - start) / INR div)) (seq 0 div)
      ++ [stop]
  end.

(** [sa.searchsorted(v, 'left')] and [sa.searchsorted(v, 'right')] on the
    sorted copy [sa] of [a]: the place of [v] in [sa] is the number of
    elements of [a] below [v], respectively not above [v]. *)
Definition searchsorted_left (a : list R) (v : R) : Z :=
  Z.of_nat (count_where (fun x => if Rlt_dec x v then true else false) a).

Definition searchsorted_right (a : list R) (v : R) : Z :=
  Z.of_nat (count_where (fun x => if Rle_dec x v then true else false) a).

(** [np.diff]: [l[1:] - l[:-1]]. *)
Fixpoint np_diff (l : list Z) : list Z :=
  match l with
  | a :: (b :: _) as rest => (b - a)%Z :: np_diff rest
  | _ => []
  end.

(** The test of [np.histogram] on an array of edges: no edge lies below
    its predecessor. *)
Fixpoint increasing (edges : list R) : bool :=
  match edges with
  | a :: (b :: _) as rest =>
      (if Rlt_dec b a then false else true) && increasing rest
  | _ => true
  end.

(** [np.histogram(a, bins=edges)] with an array of edges: the cumulative
    counts at the edges, the last edge included, and their differences. *)
Definition np_histogram_edges (a edges : list R) : result (list Z) :=
  if increasing edges then
    let cum_n := (map (searchsorted_left a) (removelast edges)
                  ++ map (searchsorted_right a)
                         (skipn (length edges - 1) edges))%list in
    ret (np_diff cum_n)
  else raise ValueError.

(** The counts [data_x] that [plot_data] draws as the data points. *)
Definition plot_data_data_x (data : dict Array) : result (list Z) :=
  let xmin := 70 * GeV in
  let xmax := 180 * GeV in
  let n_bins := 36%nat in
  let bin_edges := np_linspace xmin xmax (n_bins + 1) in
  d <- dict_get data "data" ;;
  m <- get_mllll d ;;
  np_histogram_edges m bin_edges.

(** ** A run over the observed data and one signal sample *)

Definition infos_signal : dict Info :=
  [("ggH125_ZZ4lep"%string,
    {| DSID := 345060; events := 985000; red_eff := 1;
       sumw := 4; xsec := 2 |})].

(** What [get_data_from_files] returns for [samples_small] when every
    file holds the one event [ev_2e2mu]. *)
Definition data_read : dict Array :=
  [("data"%string,
    {| rows := [ev_2e2mu]; totalWeight := None;
       mllll := Some [mllll_event ev_2e2mu] |});
   (signal_key,
    {| rows := [ev_2e2mu];
       totalWeight := Some (calc_weight (10 * 1000 * 2 / (4 * 1)) [ev_2e2mu]);
       mllll := Some [mllll_event ev_2e2mu] |})].

(** ** The error monad and the array primitives *)

Lemma bind_ret {A B} (a : A) (k : A -> result B) : bind (ret a) k = k a.
Proof. reflexivity. Qed.

Lemma bind_raise {A B} (e : Exception) (k : A -> result B) :
  bind (raise e) k = raise e.
Proof. reflexivity. Qed.

Lemma mapM_total {A B} (f : A -> result B) (g : A -> B) (l : list A) :
  Forall (fun a => f a = ret (g a)) l -> mapM f l = ret (map g l).
Proof.
  induction 1 as [|a l Ha _ IH]; simpl; [reflexivity|].
  rewrite Ha, bind_ret, IH. reflexivity.
Qed.

Lemma mapM_raises {A B} (f : A -> result B) (e : Exception) (l : list A) :
  (forall a, In a l -> f a = raise e \/ exists b, f a = ret b) ->
  Exists (fun a => f a = raise e) l ->
  mapM f l = raise e.
Proof.
  intros Hall Hex. induction Hex as [a l Ha|a l _ IH]; simpl.
  - rewrite Ha. reflexivity.
  - destruct (Hall a (or_introl eq_refl)) as [Ha|[b Ha]]; rewrite Ha.
    + reflexivity.
    + rewrite bind_ret, IH; [reflexivity|].
      intros a' Hin. apply Hall. right. exact Hin.
Qed.

Lemma getitem_col_ok {A} (d : A) (col : list (list A)) (i : nat) :
  Forall (fun q => (i < length q)%nat) col ->
  getitem_col col i = ret (map (fun q => nth i q d) col).
Proof.
  intros H. apply mapM_total. eapply Forall_impl; [|exact H].
  intros q Hq. simpl in Hq.
  destruct (nth_error q i) eqn:E.
  - erewrite nth_error_nth by exact E. reflexivity.
  - apply nth_error_None in E. lia.
Qed.

Lemma getitem_col_short {A} (col : list (list A)) (i : nat) :
  Exists (fun q => (length q <= i)%nat) col ->
  getitem_col col i = raise IndexError.
Proof.
  intros H. apply mapM_raises.
  - intros q _. destruct (nth_error q i); [right; eexists|left]; reflexivity.
  - eapply Exists_impl; [|exact H]. intros q Hq. simpl in Hq.
    apply nth_error_None in Hq. rewrite Hq. reflexivity.
Qed.

Lemma map2_map {A B C X} (f : A -> B -> C) (g : X -> A) (h : X -> B) l :
  map2 f (map g l) (map h l) = map (fun x => f (g x) (h x)) l.
Proof. induction l; simpl; congruence. Qed.

Lemma getitem_mask_map {A B} (f : A -> B) (keep : A -> bool) (l : list A) :
  getitem_mask (map f l) (map keep l) = map f (filter keep l).
Proof.
  induction l as [|a l IH]; simpl; [reflexivity|].
  destruct (keep a); simpl; rewrite IH; reflexivity.
Qed.

Lemma getitem_mask_filter {A} (keep : A -> bool) (l : list A) :
  getitem_mask l (map keep l) = filter keep l.
Proof.
  rewrite <- (map_id l) at 1. rewrite getitem_mask_map. apply map_id.
Qed.

(** ** Weights *)




Lemma py_div_nonzero (a b : R) : b <> 0 -> py_div a b = ret (a / b).
Proof. intros H. unfold py_div. destruct (Req_dec_T b 0); [contradiction|reflexivity]. Qed.

Lemma py_div_zero (a : R) : py_div a 0 = raise ZeroDivisionError.
Proof. unfold py_div. destruct (Req_dec_T 0 0); [reflexivity|contradiction]. Qed.

(** ** Selection cuts on well-formed batches *)

Lemma col_sum4 {X} (f : X -> list Z) (evs : list X) :
  col_add (col_add (col_add (map (fun e => nth 0 (f e) 0%Z) evs)
                            (map (fun e => nth 1 (f e) 0%Z) evs))
                   (map (fun e => nth 2 (f e) 0%Z) evs))
          (map (fun e => nth 3 (f e) 0%Z) evs)
  = map (fun e => sum_first4 (f e)) evs.
Proof. unfold col_add. rewrite !map2_map. reflexivity. Qed.

Lemma index_cols_ok {X A} (d : A) (f : X -> list A) (evs : list X) (i : nat) :
  (i < 4)%nat ->
  Forall (fun e => (4 <= length (f e))%nat) evs ->
  getitem_col (map f evs) i = ret (map (fun e => nth i (f e) d) evs).
Proof.
  intros Hi H. rewrite (getitem_col_ok d), map_map; [reflexivity|].
  apply Forall_map. eapply Forall_impl; [|exact H]. simpl. intros; lia.
Qed.

Lemma cut_lep_charge_ok (evs : list Event) :
  Forall (fun e => (4 <= length (lep_charge e))%nat) evs ->
  cut_lep_charge (map lep_charge evs)
  = ret (map (fun e => negb (sum_first4 (lep_charge e) =? 0)%Z) evs).
Proof.
  intros H. unfold cut_lep_charge.
  rewrite !(index_cols_ok 0%Z) by (lia || exact H).
  rewrite !bind_ret, col_sum4, map_map. reflexivity.
Qed.

Lemma cut_lep_type_ok (evs : list Event) :
  Forall (fun e => (4 <= length (lep_type e))%nat) evs ->
  cut_lep_type (map lep_type evs)
  = ret (map (fun e => negb (sum_first4 (lep_type e) =? 44)%Z
                       && negb (sum_first4 (lep_type e) =? 48)%Z
                       && negb (sum_first4 (lep_type e) =? 52)%Z) evs).
Proof.
  intros H. unfold cut_lep_type.
  rewrite !(index_cols_ok 0%Z) by (lia || exact H).
  rewrite !bind_ret. cbv zeta. rewrite col_sum4, map_map. reflexivity.
Qed.

(** ** Invariant mass on well-formed batches *)

Lemma zip_leptons (pt eta phi E : list R) :
  length eta = length pt -> length phi = length pt -> length E = length pt ->
  zip4M (fun a b c d => ret (mkMomentum4D a b c d)) pt eta phi E
  = ret (zip_p4 pt eta phi E).
Proof.
  unfold zip_p4. revert eta phi E.
  induction pt as [|a pt IH]; intros [|b eta] [|c phi] [|d E];
    simpl; try discriminate; intros H1 H2 H3; [reflexivity|].
  rewrite IH by congruence. reflexivity.
Qed.

Lemma vector_zip_ok (evs : list Event) :
  Forall aligned evs ->
  vector_zip (map lep_pt evs) (map lep_eta evs) (map lep_phi evs)
             (map lep_E evs)
  = ret (map leptons evs).
Proof.
  unfold vector_zip. induction 1 as [|e evs He _ IH]; [reflexivity|].
  destruct He as (H1 & H2 & H3).
  cbn [map zip4M]. rewrite zip_leptons by assumption.
  rewrite bind_ret, IH. reflexivity.
Qed.

Lemma leptons_length (e : Event) :
  aligned e -> length (leptons e) = length (lep_pt e).
Proof.
  intros (H1 & H2 & H3). unfold leptons, zip_p4.
  rewrite length_map, !length_combine. lia.
Qed.

Lemma calc_mllll_ok (evs : list Event) :
  Forall four_momenta evs ->
  calc_mllll (map lep_pt evs) (map lep_eta evs) (map lep_phi evs)
             (map lep_E evs)
  = ret (map mllll_event evs).
Proof.
  intros H. unfold calc_mllll. rewrite vector_zip_ok, bind_ret
    by (eapply Forall_impl; [|exact H]; intros e He; apply He).
  assert (H4 : Forall (fun e => (4 <= length (leptons e))%nat) evs).
  { eapply Forall_impl; [|exact H]. intros e [H4 Ha].
    rewrite leptons_length by exact Ha. exact H4. }
  rewrite !(index_cols_ok (mkMomentum4D 0 0 0 0)) by (lia || exact H4).
  rewrite !bind_ret, !map2_map, map_map. reflexivity.
Qed.

(** ** One batch through the loop body of [read_file] *)

Lemma well_formed_momenta (evs : list Event) :
  Forall well_formed evs -> Forall four_momenta evs.
Proof. apply Forall_impl. intros e He. apply He. Qed.

Lemma well_formed_codes (evs : list Event) :
  Forall well_formed evs -> Forall four_codes evs.
Proof. apply Forall_impl. intros e He. apply He. Qed.

Lemma Forall_filter {A} (P : A -> Prop) (f : A -> bool) (l : list A) :
  Forall P l -> Forall P (filter f l).
Proof.
  intros H. apply Forall_forall. intros a Ha. apply filter_In in Ha.
  rewrite Forall_forall in H. apply H, Ha.
Qed.

Lemma filter_filter {A} (f g : A -> bool) (l : list A) :
  filter g (filter f l) = filter (fun a => f a && g a) l.
Proof.
  induction l as [|a l IH]; simpl; [reflexivity|].
  destruct (f a); simpl; [destruct (g a)|]; rewrite IH; reflexivity.
Qed.

Lemma selected_split (e : Event) :
  negb (negb (sum_first4 (lep_charge e) =? 0)%Z)
  && negb (negb (sum_first4 (lep_type e) =? 44)%Z
           && negb (sum_first4 (lep_type e) =? 48)%Z
           && negb (sum_first4 (lep_type e) =? 52)%Z)
  = selected e.
Proof.
  unfold selected.
  destruct (sum_first4 (lep_charge e) =? 0)%Z,
           (sum_first4 (lep_type e) =? 44)%Z,
           (sum_first4 (lep_type e) =? 48)%Z,
           (sum_first4 (lep_type e) =? 52)%Z; reflexivity.
Qed.

Lemma getitem_mask_twice {A X} (f g : X -> bool) (evs : list X) (c : list A) :
  getitem_mask (getitem_mask c (map f evs)) (map g (filter f evs))
  = getitem_mask c (map (fun e => f e && g e) evs).
Proof.
  revert c. induction evs as [|e evs IH]; intros [|a c]; simpl; try reflexivity.
  all: destruct (f e); simpl; [destruct (g e)|]; rewrite ?IH; reflexivity.
Qed.

Lemma apply_cuts_ok (data : Array) :
  Forall four_codes (rows data) ->
  apply_cuts data = ret (Array_getitem_mask data (map selected (rows data))).
Proof.
  intros H. unfold apply_cuts.
  assert (Hc : Forall (fun e => (4 <= length (lep_charge e))%nat) (rows data)).
  { eapply Forall_impl; [|exact H]. intros e He. apply He. }
  rewrite cut_lep_charge_ok, bind_ret by exact Hc. cbv zeta.
  set (f1 := fun e => negb (negb (sum_first4 (lep_charge e) =? 0)%Z)).
  set (f2 := fun e => negb (negb (sum_first4 (lep_type e) =? 44)%Z
                            && negb (sum_first4 (lep_type e) =? 48)%Z
                            && negb (sum_first4 (lep_type e) =? 52)%Z)).
  rewrite map_map. fold f1.
  assert (Hrows : rows (Array_getitem_mask data (map f1 (rows data)))
                  = filter f1 (rows data)).
  { simpl. apply getitem_mask_filter. }
  rewrite Hrows.
  assert (Ht : Forall (fun e => (4 <= length (lep_type e))%nat)
                      (filter f1 (rows data))).
  { apply Forall_filter. eapply Forall_impl; [|exact H]. intros e He. apply He. }
  rewrite cut_lep_type_ok, bind_ret by exact Ht.
  rewrite map_map. fold f2.
  assert (Hsel : map selected (rows data)
                 = map (fun e => f1 e && f2 e) (rows data)).
  { apply map_ext. intros e. symmetry. apply selected_split. }
  rewrite Hsel. unfold Array_getitem_mask. simpl.
  rewrite getitem_mask_twice. f_equal. f_equal.
  - destruct (totalWeight data); simpl; [|reflexivity].
    rewrite getitem_mask_twice. reflexivity.
  - destruct (mllll data); simpl; [|reflexivity].
    rewrite getitem_mask_twice. reflexivity.
Qed.

Lemma process_batch_ok (sample : string) (xsec_weight : option R)
    (evs : list Event) :
  Forall well_formed evs ->
  process_batch sample xsec_weight (fresh evs)
  = if negb (str_contains "data" sample) then
      match xsec_weight with
      | Some xw =>
          ret {| rows := filter selected evs;
                 totalWeight := Some (calc_weight xw (filter selected evs));
                 mllll := Some (map mllll_event (filter selected evs)) |}
      | None => raise NameError
      end
    else
      ret {| rows := filter selected evs;
             totalWeight := None;
             mllll := Some (map mllll_event (filter selected evs)) |}.
Proof.
  intros H. unfold process_batch.
  destruct (negb (str_contains "data" sample)).
  - destruct xsec_weight as [xw|]; [|reflexivity].
    rewrite bind_ret, apply_cuts_ok, bind_ret by (apply well_formed_codes, H).
    unfold Array_getitem_mask. simpl.
    rewrite getitem_mask_filter.
    rewrite calc_mllll_ok, bind_ret
      by (apply Forall_filter, well_formed_momenta; exact H).
    unfold calc_weight. rewrite getitem_mask_map. reflexivity.
  - rewrite bind_ret, apply_cuts_ok, bind_ret by (apply well_formed_codes, H).
    unfold Array_getitem_mask. simpl.
    rewrite getitem_mask_filter.
    rewrite calc_mllll_ok, bind_ret
      by (apply Forall_filter, well_formed_momenta; exact H).
    reflexivity.
Qed.



Lemma well_formed_ev_2e2mu : well_formed ev_2e2mu.
Proof. unfold well_formed, four_codes, four_momenta, aligned. simpl. lia. Qed.

(** ** Total weight, cross-section weight and selection *)




(** C2. For a sample with a metadata record, [get_xsec_weight] returns
    [lumi * 1000 * xsec / (sumw * red_eff)] when [sumw] and [red_eff] are
    both nonzero, and raises [ZeroDivisionError] when one of them is zero. *)
Theorem xsec_weight_formula (lumi : R) (infos : dict Info) (sample : string)
    (info : Info) :
  dict_get infos sample = ret info ->
  (sumw info <> 0 -> red_eff info <> 0 ->
   get_xsec_weight lumi infos sample
   = ret (lumi * 1000 * xsec info / (sumw info * red_eff info)))
  /\ (sumw info = 0 \/ red_eff info = 0 ->
      get_xsec_weight lumi infos sample = raise ZeroDivisionError).
Proof.
  intros Hget. unfold get_xsec_weight. rewrite Hget, bind_ret. split.
  - intros Hs Hr. rewrite py_div_nonzero; [reflexivity|].
    apply Rmult_integral_contrapositive_currified; assumption.
  - intros H0.
    assert (Hz : sumw info * red_eff info = 0).
    { destruct H0 as [H0|H0]; rewrite H0; ring. }
    rewrite Hz, py_div_zero. reflexivity.
Qed.

Lemma xsec_weight_formula_witness :
  get_xsec_weight 10 infos_llll "llll" = ret (10 * 1000 * 2 / (4 * 1)).
Proof.
  apply (xsec_weight_formula 10 infos_llll "llll"
           {| DSID := 363490; events := 17825300; red_eff := 1;
              sumw := 4; xsec := 2 |}).
  - reflexivity.
  - simpl. lra.
  - simpl. lra.
Defined.

Lemma int32_fits (z : Z) : fits_int32 z -> int32 z = z.
Proof.
  unfold fits_int32, int32. intros H. rewrite Z.mod_small by lia. lia.
Qed.

Lemma int32_add_l (a b : Z) : int32 (int32 a + b) = int32 (a + b).
Proof.
  unfold int32. f_equal.
  replace ((a + 2147483648) mod 4294967296 - 2147483648 + b + 2147483648)%Z
    with ((a + 2147483648) mod 4294967296 + b)%Z by lia.
  rewrite Zplus_mod_idemp_l. f_equal. lia.
Qed.

Lemma sum_first4_int32 (l : list Z) : sum_first4 l = int32 (exact_sum4 l).
Proof.
  unfold sum_first4, exact_sum4.
  rewrite (int32_add_l (nth 0 l 0 + nth 1 l 0)%Z), int32_add_l. reflexivity.
Qed.

Lemma sum_first4_exact (l : list Z) :
  fits_int32 (exact_sum4 l) -> sum_first4 l = exact_sum4 l.
Proof. intros H. rewrite sum_first4_int32. apply int32_fits, H. Qed.

(** C3, as the code has it.  On a batch whose events have at least four
    leptons the two cuts keep exactly the events for which the sum of the
    first four charges, taken in the 32-bit arithmetic of the column, is
    zero and the sum of the first four type codes, taken likewise, is 44,
    48 or 52; for an event whose sums fit 32 bits these are the sums in the
    integers.  The survivors keep their input order and the derived
    columns are sliced with the same mask. *)
Theorem selection_keeps_exactly (data : Array) :
  Forall four_codes (rows data) ->
  (forall e, selected e = true <->
             int32 (exact_sum4 (lep_charge e)) = 0%Z /\
             (int32 (exact_sum4 (lep_type e)) = 44%Z \/
              int32 (exact_sum4 (lep_type e)) = 48%Z \/
              int32 (exact_sum4 (lep_type e)) = 52%Z))
  /\ (forall e, fits_int32 (exact_sum4 (lep_charge e)) ->
                fits_int32 (exact_sum4 (lep_type e)) ->
                (selected e = true <->
                 exact_sum4 (lep_charge e) = 0%Z /\
                 (exact_sum4 (lep_type e) = 44%Z \/
                  exact_sum4 (lep_type e) = 48%Z \/
                  exact_sum4 (lep_type e) = 52%Z)))
  /\ exists out,
      apply_cuts data = ret out /\
      rows out = filter selected (rows data) /\
      out = Array_getitem_mask data (map selected (rows data)).
Proof.
  intros H.
  assert (Hsel : forall e, selected e = true <->
             sum_first4 (lep_charge e) = 0%Z /\
             (sum_first4 (lep_type e) = 44%Z \/
              sum_first4 (lep_type e) = 48%Z \/
              sum_first4 (lep_type e) = 52%Z)).
  { intros e. unfold selected.
    rewrite andb_true_iff, !orb_true_iff, !Z.eqb_eq. tauto. }
  split; [|split].
  - intros e. rewrite Hsel, !sum_first4_int32. reflexivity.
  - intros e Hc Ht. rewrite Hsel, !sum_first4_exact by assumption. reflexivity.
  - eexists. split; [apply apply_cuts_ok, H|]. split; [|reflexivity].
    simpl. apply getitem_mask_filter.
Qed.

Lemma selection_keeps_exactly_witness :
  exists out,
    apply_cuts (fresh [ev_charge2; ev_2e2mu]) = ret out /\
    rows out = [ev_2e2mu].
Proof.
  destruct (selection_keeps_exactly (fresh [ev_charge2; ev_2e2mu]))
    as (_ & _ & out & H1 & H2 & _).
  - repeat constructor.
  - exists out. split; [exact H1|]. rewrite H2. reflexivity.
Defined.

(** C3, as the specification words it, fails: the selection keeps an event
    whose first four charges add up to [2^32], not to zero. *)
Lemma overflowing_charges_kept :
  apply_cuts (fresh [ev_overflow]) = ret (fresh [ev_overflow])
  /\ exact_sum4 (lep_charge ev_overflow) <> 0%Z.
Proof.
  split.
  - rewrite apply_cuts_ok by (repeat constructor). reflexivity.
  - discriminate.
Qed.

(** ** Invariant mass *)

Lemma tau2_first4 (a b c d : Momentum4D) :
  tau2 (vec_add_xp (vec_add_xp (vec_add_pp a b) c) d)
  = mass_squared [a; b; c; d].
Proof.
  unfold tau2, vec_add_xp, vec_add_pp, xyzt_add, to_xyzt, mass_squared,
    total, px, py, pz, Rsqr. simpl. ring.
Qed.


Lemma vec_M_spacelike (v : LorentzXYZT) :
  tau2 v < 0 -> vec_M v = - sqrt (- tau2 v).
Proof.
  intros H. unfold vec_M, copysign.
  destruct (Rlt_dec (tau2 v) 0) as [_|Hge]; [|lra].
  rewrite (Rabs_left (tau2 v)) by exact H.
  rewrite Rabs_pos_eq by apply sqrt_pos. reflexivity.
Qed.

Lemma MeV_value : MeV = 0.001.
Proof. reflexivity. Qed.


Lemma mllll_event_first4 (e e' : Event) :
  firstn 4 (leptons e') = firstn 4 (leptons e) ->
  (4 <= length (leptons e))%nat -> (4 <= length (leptons e'))%nat ->
  mllll_event e' = mllll_event e.
Proof.
  unfold mllll_event, lepton.
  destruct (leptons e) as [|a [|b [|c [|d rest]]]]; simpl length; try lia.
  destruct (leptons e') as [|a' [|b' [|c' [|d' rest']]]]; simpl length; try lia.
  simpl. intros H _ _. inversion H. reflexivity.
Qed.

Lemma four_momenta_leptons (e : Event) :
  four_momenta e -> (4 <= length (leptons e))%nat.
Proof. intros [H4 Ha]. rewrite leptons_length by exact Ha. exact H4. Qed.

Lemma getitem_col_error {A} (col : list (list A)) (i : nat) (e : Exception) :
  getitem_col col i = raise e -> e = IndexError.
Proof.
  unfold getitem_col. induction col as [|q col IH]; simpl; [discriminate|].
  destruct (nth_error q i); simpl.
  - destruct (mapM _ col) eqn:E; simpl; [|discriminate].
    intros H. apply IH. unfold raise in *. congruence.
  - unfold raise. congruence.
Qed.

Lemma bind_IndexError {A B} (c : result A) (k : A -> result B) :
  (forall e, c = raise e -> e = IndexError) ->
  (forall a, k a = raise IndexError) ->
  bind c k = raise IndexError.
Proof.
  intros Hc Hk. destruct c as [e|a]; simpl; [|apply Hk].
  rewrite (Hc e eq_refl). reflexivity.
Qed.

Lemma calc_mllll_short (evs : list Event) :
  Forall aligned evs ->
  Exists (fun e => (length (lep_pt e) < 4)%nat) evs ->
  calc_mllll (map lep_pt evs) (map lep_eta evs) (map lep_phi evs)
             (map lep_E evs)
  = raise IndexError.
Proof.
  intros Ha Hex. unfold calc_mllll. rewrite vector_zip_ok, bind_ret by exact Ha.
  assert (H3 : getitem_col (map leptons evs) 3 = raise IndexError).
  { apply getitem_col_short. apply Exists_exists in Hex as [e [Hin Hlt]].
    apply Exists_exists. exists (leptons e). split; [apply in_map, Hin|].
    rewrite Forall_forall in Ha. rewrite leptons_length by (apply Ha, Hin). lia. }
  apply bind_IndexError; [apply getitem_col_error|intros p0].
  apply bind_IndexError; [apply getitem_col_error|intros p1].
  apply bind_IndexError; [apply getitem_col_error|intros p2].
  rewrite H3. reflexivity.
Qed.

Lemma mllll_event_spacelike (e : Event) :
  (4 <= length (leptons e))%nat ->
  mass_squared (firstn 4 (leptons e)) < 0 ->
  mllll_event e = - sqrt (- mass_squared (firstn 4 (leptons e))) * 0.001.
Proof.
  unfold mllll_event, lepton.
  destruct (leptons e) as [|a [|b [|c [|d rest]]]]; simpl length; try lia.
  intros _. simpl firstn. simpl nth. intros H.
  rewrite vec_M_spacelike, tau2_first4, MeV_value; [reflexivity|].
  rewrite tau2_first4. exact H.
Qed.

Lemma cut_lep_charge_short (evs : list Event) :
  Exists (fun e => (length (lep_charge e) < 4)%nat) evs ->
  cut_lep_charge (map lep_charge evs) = raise IndexError.
Proof.
  intros Hex. unfold cut_lep_charge.
  assert (H3 : getitem_col (map lep_charge evs) 3 = raise IndexError).
  { apply getitem_col_short. apply Exists_exists in Hex as [e [Hin Hlt]].
    apply Exists_exists. exists (lep_charge e). split; [apply in_map, Hin|lia]. }
  apply bind_IndexError; [apply getitem_col_error|intros c0].
  apply bind_IndexError; [apply getitem_col_error|intros c1].
  apply bind_IndexError; [apply getitem_col_error|intros c2].
  rewrite H3. reflexivity.
Qed.




(** C5. Reordering the leptons of an event from the fifth on, with the
    first four left in place, does not change what [calc_mllll] returns
    for it. *)
Theorem calc_mllll_tail_invariant (evs evs' : list Event) :
  Forall four_momenta evs ->
  Forall four_momenta evs' ->
  Forall2 tail_permuted evs evs' ->
  exists ms,
    length ms = length evs /\
    calc_mllll (map lep_pt evs) (map lep_eta evs) (map lep_phi evs)
               (map lep_E evs) = ret ms /\
    calc_mllll (map lep_pt evs') (map lep_eta evs') (map lep_phi evs')
               (map lep_E evs') = ret ms.
Proof.
  intros H H' Hperm. exists (map mllll_event evs).
  split; [apply length_map|]. split; [apply calc_mllll_ok, H|].
  rewrite calc_mllll_ok by exact H'. f_equal.
  induction Hperm as [|e e' evs evs' [Hfirst _] _ IH]; [reflexivity|].
  inversion H; inversion H'; subst. simpl. f_equal.
  - apply mllll_event_first4; [exact Hfirst| |]; apply four_momenta_leptons;
      assumption.
  - apply IH; assumption.
Qed.

Lemma calc_mllll_tail_invariant_witness :
  exists ms,
    length ms = 1%nat /\
    calc_mllll [lep_pt ev_6lep] [lep_eta ev_6lep] [lep_phi ev_6lep]
               [lep_E ev_6lep] = ret ms /\
    calc_mllll [lep_pt ev_6lep_swapped] [lep_eta ev_6lep_swapped]
               [lep_phi ev_6lep_swapped] [lep_E ev_6lep_swapped] = ret ms.
Proof.
  apply (calc_mllll_tail_invariant [ev_6lep] [ev_6lep_swapped]).
  - repeat constructor.
  - repeat constructor.
  - constructor; [|constructor]. split; [reflexivity|].
    simpl. apply perm_swap.
Defined.

(** C6, as the code has it.  When a batch whose events have aligned
    momentum sequences contains an event with fewer than four leptons,
    [calc_mllll] raises the array library's [IndexError] for the whole
    batch, and so returns no mass for any event of it. *)
Theorem calc_mllll_short_event (evs : list Event) :
  Forall aligned evs ->
  Exists (fun e => (length (lep_pt e) < 4)%nat) evs ->
  calc_mllll (map lep_pt evs) (map lep_eta evs) (map lep_phi evs)
             (map lep_E evs) = raise IndexError
  /\ forall ms,
      calc_mllll (map lep_pt evs) (map lep_eta evs) (map lep_phi evs)
                 (map lep_E evs) <> ret ms.
Proof.
  intros Ha Hex. rewrite calc_mllll_short by assumption.
  split; [reflexivity|]. intros ms. discriminate.
Qed.

Lemma calc_mllll_short_event_witness :
  calc_mllll [[0; 0; 0]] [[0; 0; 0]] [[0; 0; 0]] [[1; 1; 1]] = raise IndexError
  /\ forall ms,
      calc_mllll [[0; 0; 0]] [[0; 0; 0]] [[0; 0; 0]] [[1; 1; 1]] <> ret ms.
Proof.
  apply (calc_mllll_short_event [ev_3lep]).
  - repeat constructor.
  - constructor. simpl. lia.
Defined.

(** C6, as the specification words it, fails: the exception that
    [calc_mllll] raises for a three-lepton event is not an
    [InsufficientLeptons] error. *)
Lemma short_event_error_name :
  ~ exists e,
      calc_mllll (map lep_pt [ev_3lep]) (map lep_eta [ev_3lep])
                 (map lep_phi [ev_3lep]) (map lep_E [ev_3lep]) = raise e /\
      exception_name e = "InsufficientLeptons"%string.
Proof.
  intros [e [Hraise Hname]].
  rewrite calc_mllll_short in Hraise.
  - inversion Hraise; subst. discriminate Hname.
  - repeat constructor.
  - constructor. simpl. lia.
Qed.

(** ** Binary64 rounding *)

Lemma ln_2_pos : 0 < ln 2.
Proof. rewrite <- ln_1. apply ln_increasing; lra. Qed.

Lemma ln_powerRZ_2 (k : Z) : ln (powerRZ 2 k) = IZR k * ln 2.
Proof. rewrite powerRZ_Rpower by lra. apply ln_Rpower. Qed.

Lemma pow2_pos (k : Z) : 0 < powerRZ 2 k.
Proof. apply powerRZ_lt. lra. Qed.

Lemma binade_lt (x : R) (k : Z) :
  x <> 0 -> Rabs x < powerRZ 2 k -> (binade x < k)%Z.
Proof.
  intros Hx Hlt. unfold binade.
  assert (Hax : 0 < Rabs x) by (apply Rabs_pos_lt, Hx).
  assert (Hln : ln (Rabs x) < IZR k * ln 2).
  { rewrite <- ln_powerRZ_2. apply ln_increasing; assumption. }
  pose proof ln_2_pos as H2.
  assert (Hq : ln (Rabs x) / ln 2 < IZR k).
  { apply (Rmult_lt_reg_r (ln 2)); [exact H2|].
    unfold Rdiv. rewrite Rmult_assoc, Rinv_l by lra. lra. }
  pose proof (Zfloor_bound (ln (Rabs x) / ln 2)) as [Hf _].
  apply lt_IZR. lra.
Qed.

Lemma binade_ge (x : R) (k : Z) :
  powerRZ 2 k <= Rabs x -> (k <= binade x)%Z.
Proof.
  intros Hle. unfold binade. apply Zfloor_lub.
  pose proof (pow2_pos k) as Hk. pose proof ln_2_pos as H2.
  assert (Hln : IZR k * ln 2 <= ln (Rabs x)).
  { rewrite <- ln_powerRZ_2.
    destruct Hle as [Hlt|Heq]; [left; apply ln_increasing; assumption|].
    rewrite Heq. right. reflexivity. }
  apply (Rmult_le_reg_r (ln 2)); [exact H2|].
  unfold Rdiv. rewrite Rmult_assoc, Rinv_l by lra. lra.
Qed.

Lemma binade_eq (x : R) (k : Z) :
  powerRZ 2 k <= Rabs x < powerRZ 2 (k + 1) -> binade x = k.
Proof.
  intros [Hlo Hhi].
  assert (Hx : x <> 0).
  { intros ->. rewrite Rabs_R0 in Hlo. pose proof (pow2_pos k). lra. }
  pose proof (binade_lt x (k + 1) Hx Hhi). pose proof (binade_ge x k Hlo). lia.
Qed.

Lemma round_half_even_IZR (z : Z) : round_half_even (IZR z) = z.
Proof.
  unfold round_half_even. rewrite ZfloorZ.
  destruct (Rlt_dec (IZR z - IZR z) (1 / 2)); [reflexivity|lra].
Qed.

Lemma round_half_even_floor (x : R) :
  (Zfloor x <= round_half_even x <= Zfloor x + 1)%Z.
Proof.
  unfold round_half_even. cbv zeta.
  destruct (Rlt_dec _ _); [lia|]. destruct (Rlt_dec _ _); [lia|].
  destruct (Z.even _); lia.
Qed.

Lemma round_half_even_le (x : R) (N : Z) :
  x <= IZR N -> (round_half_even x <= N)%Z.
Proof.
  intros Hx. pose proof (Zfloor_bound x) as [Hf1 Hf2].
  assert (Hfl : (Zfloor x <= N)%Z) by (apply le_IZR; lra).
  destruct (Z.eq_dec (Zfloor x) N) as [Heq|Hne].
  - unfold round_half_even. cbv zeta. rewrite Heq in *.
    destruct (Rlt_dec (x - IZR N) (1 / 2)); [lia|lra].
  - pose proof (round_half_even_floor x). lia.
Qed.

Lemma round_half_even_ge (x : R) (N : Z) :
  IZR N <= x -> (N <= round_half_even x)%Z.
Proof.
  intros Hx. pose proof (Zfloor_lub N x Hx). pose proof (round_half_even_floor x).
  lia.
Qed.

Lemma powerRZ_2_nonneg (k : Z) : (0 <= k)%Z -> powerRZ 2 k = IZR (2 ^ k).
Proof.
  intros Hk. destruct k as [|p|p]; [reflexivity| |lia].
  unfold powerRZ. rewrite pow_IZR, positive_nat_Z. reflexivity.
Qed.

Lemma powerRZ_2_split (a b : Z) : powerRZ 2 (a + b) = powerRZ 2 a * powerRZ 2 b.
Proof. apply powerRZ_add. lra. Qed.

(** A number [m * 2^e] whose mantissa fits 53 bits is a binary64 value. *)
Lemma round64_exact (m e : Z) :
  (Z.abs m < 2 ^ 53)%Z -> (-1074 <= e)%Z ->
  round64 (IZR m * powerRZ 2 e) = IZR m * powerRZ 2 e.
Proof.
  intros Hm He. unfold round64.
  destruct (Req_dec_T (IZR m * powerRZ 2 e) 0) as [H0|Hx]; [lra|]. cbv zeta.
  set (x := IZR m * powerRZ 2 e) in *.
  set (u := Z.max (binade x - 52) (-1074)).
  assert (Hb : (binade x < 53 + e)%Z).
  { apply binade_lt; [exact Hx|]. unfold x.
    rewrite Rabs_mult, (Rabs_pos_eq (powerRZ 2 e)) by (left; apply pow2_pos).
    rewrite powerRZ_2_split, (powerRZ_2_nonneg 53) by lia.
    apply Rmult_lt_compat_r; [apply pow2_pos|].
    rewrite <- abs_IZR. apply IZR_lt. exact Hm. }
  assert (Hu : (u <= e)%Z) by (unfold u; lia).
  assert (Hsplit : powerRZ 2 e = IZR (2 ^ (e - u)) * powerRZ 2 u).
  { rewrite <- powerRZ_2_nonneg by lia. rewrite <- powerRZ_2_split.
    f_equal. lia. }
  pose proof (pow2_pos u) as Hup.
  assert (Hq : x / powerRZ 2 u = IZR (m * 2 ^ (e - u))).
  { unfold x. rewrite Hsplit, mult_IZR. field. lra. }
  rewrite Hq, round_half_even_IZR. unfold x. rewrite Hsplit, mult_IZR. ring.
Qed.

Lemma round64_IZR (m : Z) : (Z.abs m < 2 ^ 53)%Z -> round64 (IZR m) = IZR m.
Proof.
  intros Hm. pose proof (round64_exact m 0 Hm ltac:(lia)) as H.
  simpl powerRZ in H. rewrite Rmult_1_r in H. exact H.
Qed.

Lemma float_of_nat_exact (n : nat) :
  (Z.of_nat n < 2 ^ 53)%Z -> float_of_nat n = INR n.
Proof.
  intros Hn. unfold float_of_nat. rewrite INR_IZR_INZ. apply round64_IZR. lia.
Qed.

Lemma round64_nonneg (x : R) : 0 <= x -> 0 <= round64 x.
Proof.
  intros Hx. unfold round64. destruct (Req_dec_T x 0); [lra|]. cbv zeta.
  set (u := Z.max (binade x - 52) (-1074)). pose proof (pow2_pos u) as Hu.
  apply Rmult_le_pos; [|lra]. apply IZR_le, round_half_even_ge.
  apply Rmult_le_pos; [exact Hx|]. left. apply Rinv_0_lt_compat, Hu.
Qed.

(** Rounding never crosses an integer below [2^53] from below. *)
Lemma round64_le_int (x : R) (N : Z) :
  (0 <= N < 2 ^ 53)%Z -> x <= IZR N -> round64 x <= IZR N.
Proof.
  intros HN Hx. unfold round64.
  destruct (Req_dec_T x 0) as [_|H0]; [apply IZR_le; lia|]. cbv zeta.
  set (u := Z.max (binade x - 52) (-1074)). pose proof (pow2_pos u) as Hu.
  destruct (Rlt_dec x 0) as [Hneg|Hpos].
  - apply Rle_trans with 0; [|apply IZR_le; lia].
    assert (Hr : (round_half_even (x / powerRZ 2 u) <= 0)%Z).
    { apply round_half_even_le. 
      assert (0 < / powerRZ 2 u) by (apply Rinv_0_lt_compat, Hu).
      unfold Rdiv. nra. }
    apply IZR_le in Hr. nra.
  - assert (Hb : (binade x < 53)%Z).
    { apply binade_lt; [exact H0|]. rewrite Rabs_pos_eq by lra.
      rewrite (powerRZ_2_nonneg 53) by lia.
      apply Rle_lt_trans with (IZR N); [exact Hx|apply IZR_lt; lia]. }
    assert (Hu0 : (u <= 0)%Z) by (unfold u; lia).
    assert (Hone : 1 = IZR (2 ^ (- u)) * powerRZ 2 u).
    { rewrite <- powerRZ_2_nonneg by lia. rewrite <- powerRZ_2_split.
      replace (- u + u)%Z with 0%Z by lia. reflexivity. }
    assert (Hr : (round_half_even (x / powerRZ 2 u) <= N * 2 ^ (- u))%Z).
    { apply round_half_even_le. rewrite mult_IZR.
      apply (Rmult_le_reg_r (powerRZ 2 u)); [exact Hu|].
      unfold Rdiv. rewrite Rmult_assoc, Rinv_l by lra.
      rewrite Rmult_assoc, <- Hone. lra. }
    apply IZR_le in Hr. rewrite mult_IZR in Hr.
    apply Rle_trans with (IZR N * IZR (2 ^ (- u)) * powerRZ 2 u).
    + apply Rmult_le_compat_r; [lra|exact Hr].
    + rewrite Rmult_assoc, <- Hone. lra.
Qed.

Lemma binade_lower (x : R) : x <> 0 -> powerRZ 2 (binade x) <= Rabs x.
Proof.
  intros Hx. assert (Hax : 0 < Rabs x) by (apply Rabs_pos_lt, Hx).
  pose proof ln_2_pos as H2.
  pose proof (Zfloor_bound (ln (Rabs x) / ln 2)) as [Hf _].
  fold (binade x) in Hf.
  assert (Hln : IZR (binade x) * ln 2 <= ln (Rabs x)).
  { apply (Rmult_le_compat_r (ln 2)) in Hf; [|lra].
    unfold Rdiv in Hf. rewrite Rmult_assoc, Rinv_l, Rmult_1_r in Hf by lra.
    exact Hf. }
  rewrite powerRZ_Rpower by lra. unfold Rpower.
  apply Rle_trans with (exp (ln (Rabs x))); [|rewrite exp_ln by exact Hax; lra].
  destruct Hln as [Hlt|Heq]; [left; apply exp_increasing, Hlt|].
  rewrite Heq. right. reflexivity.
Qed.

(** Rounding never crosses an integer below [2^53] from above. *)
Lemma round64_ge_int (x : R) (N : Z) :
  (0 <= N < 2 ^ 53)%Z -> IZR N <= x -> IZR N <= round64 x.
Proof.
  intros HN Hx. assert (H0N : 0 <= IZR N) by (apply IZR_le; lia).
  unfold round64.
  destruct (Req_dec_T x 0) as [->|H0]; [lra|]. cbv zeta.
  set (u := Z.max (binade x - 52) (-1074)). pose proof (pow2_pos u) as Hu.
  destruct (Z_le_gt_dec u 0) as [Hu0|Hu0].
  - assert (Hone : 1 = IZR (2 ^ (- u)) * powerRZ 2 u).
    { rewrite <- powerRZ_2_nonneg by lia. rewrite <- powerRZ_2_split.
      replace (- u + u)%Z with 0%Z by lia. reflexivity. }
    assert (Hr : (N * 2 ^ (- u) <= round_half_even (x / powerRZ 2 u))%Z).
    { apply round_half_even_ge. rewrite mult_IZR.
      apply (Rmult_le_reg_r (powerRZ 2 u)); [exact Hu|].
      unfold Rdiv. rewrite (Rmult_assoc x), Rinv_l by lra.
      rewrite Rmult_assoc, <- Hone. lra. }
    apply IZR_le in Hr. rewrite mult_IZR in Hr.
    apply Rle_trans with (IZR N * IZR (2 ^ (- u)) * powerRZ 2 u).
    + rewrite Rmult_assoc, <- Hone. lra.
    + apply Rmult_le_compat_r; [lra|exact Hr].
  - assert (Hu' : u = (binade x - 52)%Z) by (unfold u; lia).
    pose proof (binade_lower x H0) as Hlow.
    rewrite Rabs_pos_eq in Hlow by lra.
    assert (Hsplit : powerRZ 2 (binade x) = IZR (2 ^ 52) * powerRZ 2 u).
    { rewrite <- powerRZ_2_nonneg by lia. rewrite <- powerRZ_2_split.
      f_equal. lia. }
    assert (Hr : (2 ^ 52 <= round_half_even (x / powerRZ 2 u))%Z).
    { apply round_half_even_ge.
      apply (Rmult_le_reg_r (powerRZ 2 u)); [exact Hu|].
      unfold Rdiv. rewrite (Rmult_assoc x), Rinv_l by lra.
      rewrite <- Hsplit. lra. }
    apply IZR_le in Hr.
    assert (H1 : 2 <= powerRZ 2 u).
    { rewrite powerRZ_2_nonneg by lia. apply IZR_le.
      replace u with (Z.succ (u - 1)) by lia.
      rewrite Z.pow_succ_r by lia.
      assert (0 < 2 ^ (u - 1))%Z by (apply Z.pow_pos_nonneg; lia). lia. }
    assert (HN53 : IZR N <= IZR (2 ^ 52) * 2).
    { rewrite <- mult_IZR. apply IZR_le.
      change (2 ^ 52 * 2)%Z with 9007199254740992%Z.
      change (2 ^ 53)%Z with 9007199254740992%Z in HN. lia. }
    assert (H52 : 0 <= IZR (2 ^ 52)) by (apply IZR_le; discriminate).
    apply Rle_trans with (IZR (2 ^ 52) * 2); [exact HN53|].
    apply Rmult_le_compat; lra.
Qed.

(** The value of [round64] on a number whose binade is known. *)
Lemma round64_in_binade (x : R) (k : Z) :
  powerRZ 2 k <= Rabs x < powerRZ 2 (k + 1) ->
  round64 x = IZR (round_half_even (x / powerRZ 2 (Z.max (k - 52) (-1074))))
              * powerRZ 2 (Z.max (k - 52) (-1074)).
Proof.
  intros Hk. unfold round64.
  destruct (Req_dec_T x 0) as [->|_].
  - rewrite Rabs_R0 in Hk. pose proof (pow2_pos k). lra.
  - cbv zeta. rewrite (binade_eq x k Hk). reflexivity.
Qed.

Lemma powerRZ_2_neg (p : positive) :
  powerRZ 2 (Z.neg p) = / IZR (2 ^ Z.pos p).
Proof.
  change (Z.neg p) with (- Z.pos p)%Z.
  rewrite powerRZ_neg', powerRZ_2_nonneg by lia. reflexivity.
Qed.

Lemma three_thirds : float_mul (float_of_nat 3) third = 1.
Proof.
  rewrite float_of_nat_exact by (simpl; lia). unfold float_mul, third.
  rewrite (round64_in_binade _ (-1)).
  - change (Z.max (-1 - 52) (-1074)) with (- 53)%Z.
    rewrite (powerRZ_2_neg 53).
    change (2 ^ 53)%Z with 9007199254740992%Z.
    assert (Hr : round_half_even
                   (INR 3 * (6004799503160661 / 18014398509481984)
                    / / 9007199254740992) = 9007199254740992%Z).
    { unfold round_half_even.
      rewrite (Zfloor_eq 9007199254740991) by (simpl; lra). cbv zeta.
      destruct (Rlt_dec _ _) as [H|_]; [simpl in H; lra|].
      destruct (Rlt_dec _ _) as [H|_]; [simpl in H; lra|].
      reflexivity. }
    rewrite Hr. lra.
  - change (-1 + 1)%Z with 0%Z. rewrite (powerRZ_2_neg 1).
    change (2 ^ 1)%Z with 2%Z. simpl powerRZ.
    rewrite Rabs_pos_eq by (simpl; lra). simpl. lra.
Qed.

Lemma exact_floor_third : Zfloor (INR 3 * third) = 0%Z.
Proof. apply Zfloor_eq. unfold third. simpl. lra. Qed.

Lemma half_of_100 : float_mul (float_of_nat 100) 0.5 = 50.
Proof.
  rewrite float_of_nat_exact by (simpl; lia). unfold float_mul.
  replace (INR 100 * 0.5) with (IZR 50) by (rewrite INR_IZR_INZ; simpl; lra).
  apply round64_IZR. simpl. lia.
Qed.

(** ** Batch reader *)

Lemma regularize_le (n : nat) (x : R) : (regularize_entry_stop n x <= n)%nat.
Proof.
  unfold regularize_entry_stop. cbv zeta.
  set (s := if Rlt_dec x 0 then float_add x (float_of_nat n) else x).
  assert (Hz : (Zfloor (Rmin (INR n) (Rmax 0 s)) <= Z.of_nat n)%Z).
  { apply le_IZR. rewrite <- INR_IZR_INZ.
    pose proof (Zfloor_bound (Rmin (INR n) (Rmax 0 s))) as [Hf _].
    pose proof (Rmin_l (INR n) (Rmax 0 s)). lra. }
  lia.
Qed.

Lemma regularize_in_range (n : nat) (x : R) :
  0 <= x <= INR n -> regularize_entry_stop n x = Z.to_nat (Zfloor x).
Proof.
  intros [H0 H1]. unfold regularize_entry_stop.
  destruct (Rlt_dec x 0) as [Hlt|_]; [lra|].
  rewrite Rmax_right by exact H0. rewrite Rmin_right by exact H1. reflexivity.
Qed.

Lemma throttle_bounds (n : nat) (fraction : R) :
  0 < fraction <= 1 -> (Z.of_nat n < 2 ^ 53)%Z ->
  0 <= float_mul (float_of_nat n) fraction <= INR n.
Proof.
  intros Hf Hn. rewrite float_of_nat_exact by exact Hn.
  pose proof (pos_INR n) as Hpos. unfold float_mul. split.
  - apply round64_nonneg. nra.
  - rewrite INR_IZR_INZ. apply round64_le_int; [lia|].
    rewrite <- INR_IZR_INZ. nra.
Qed.

Lemma float_product_whole (n : nat) :
  (Z.of_nat n < 2 ^ 53)%Z -> float_mul (float_of_nat n) 1 = INR n.
Proof.
  intros Hn. rewrite float_of_nat_exact by exact Hn. unfold float_mul.
  rewrite Rmult_1_r, INR_IZR_INZ. apply round64_IZR. lia.
Qed.

Lemma num_batches_cover (stop entry_step : nat) :
  (0 < entry_step)%nat -> (stop <= num_batches stop entry_step * entry_step)%nat.
Proof.
  intros H. unfold num_batches.
  pose proof (Nat.div_mod_eq (stop + entry_step - 1) entry_step).
  pose proof (Nat.mod_upper_bound (stop + entry_step - 1) entry_step).
  nia.
Qed.

Lemma chunks_concat {A} (step n : nat) (l : list A) :
  (length l <= n * step)%nat ->
  concat (map (fun k => firstn step (skipn (k * step) l)) (seq 0 n)) = l.
Proof.
  revert l. induction n as [|n IH]; intros l Hlen.
  - destruct l; [reflexivity|simpl in Hlen; lia].
  - rewrite <- cons_seq, <- seq_shift. cbn [map concat]. rewrite map_map.
    change (skipn (0 * step) l) with l.
    transitivity (firstn step l ++ skipn step l); [|apply firstn_skipn].
    f_equal. rewrite <- (IH (skipn step l)) by (rewrite length_skipn; lia).
    f_equal. apply map_ext. intros k. f_equal.
    rewrite skipn_skipn. f_equal. lia.
Qed.

Lemma iterate_rows (entry_step : nat) (tree : list Event) (entry_stop : R) :
  (0 < entry_step)%nat ->
  concat (map rows (iterate entry_step tree entry_stop))
  = firstn (regularize_entry_stop (length tree) entry_stop) tree.
Proof.
  intros H. unfold iterate. cbv zeta. rewrite map_map. simpl rows.
  apply chunks_concat. rewrite length_firstn.
  pose proof (num_batches_cover
                (regularize_entry_stop (length tree) entry_stop) entry_step H).
  lia.
Qed.

Lemma iterate_total (entry_step : nat) (tree : list Event) (entry_stop : R) :
  (0 < entry_step)%nat ->
  list_sum (map len (iterate entry_step tree entry_stop))
  = regularize_entry_stop (length tree) entry_stop.
Proof.
  intros Hs.
  transitivity (length (concat (map rows (iterate entry_step tree entry_stop)))).
  - rewrite length_concat, map_map. reflexivity.
  - rewrite iterate_rows, length_firstn by exact Hs.
    pose proof (regularize_le (length tree) entry_stop). lia.
Qed.

(** C7, as the code has it.  [read_file] passes the float product
    [numevents * fraction] to [iterate].  For a file of fewer than [2^53]
    events and a throttle [fraction] in (0, 1] the batches hold [floor p]
    events in total, where [p] is that product, the exact product rounded
    to binary64; these are the first events of the file in their stored
    order.  For a file of 100 events and [fraction = 0.5] that is 50
    events, whatever the batch size. *)
Theorem iterate_delivers_floor (entry_step : nat) (tree : list Event)
    (fraction : R) :
  (0 < entry_step)%nat ->
  0 < fraction <= 1 ->
  (Z.of_nat (length tree) < 2 ^ 53)%Z ->
  list_sum (map len (iterate entry_step tree
                             (float_mul (float_of_nat (length tree)) fraction)))
  = Z.to_nat (Zfloor (float_mul (float_of_nat (length tree)) fraction))
  /\ concat (map rows (iterate entry_step tree
                               (float_mul (float_of_nat (length tree)) fraction)))
     = firstn (Z.to_nat (Zfloor (float_mul (float_of_nat (length tree))
                                           fraction))) tree
  /\ (length tree = 100%nat -> fraction = 0.5 ->
      list_sum (map len (iterate entry_step tree
                                 (float_mul (float_of_nat (length tree))
                                            fraction))) = 50%nat).
Proof.
  intros Hs Hf Hn.
  pose proof (throttle_bounds (length tree) fraction Hf Hn) as Hp.
  split; [|split].
  - rewrite iterate_total, regularize_in_range by assumption. reflexivity.
  - rewrite iterate_rows, regularize_in_range by assumption. reflexivity.
  - intros Hlen Hhalf.
    rewrite iterate_total, regularize_in_range by assumption.
    rewrite Hlen, Hhalf, half_of_100, ZfloorZ. reflexivity.
Qed.

Lemma iterate_delivers_floor_witness :
  list_sum (map len (iterate 30 (repeat ev_2e2mu 100)
                             (float_mul
                                (float_of_nat (length (repeat ev_2e2mu 100)))
                                0.5)))
  = 50%nat.
Proof.
  destruct (iterate_delivers_floor 30 (repeat ev_2e2mu 100) 0.5)
    as (_ & _ & H).
  - lia.
  - lra.
  - simpl. lia.
  - apply H; reflexivity.
Defined.

(** C7, as the specification words it, fails: of a file of three events
    read with the float nearest to one third as throttle, one event is
    delivered, while the floor of the exact product is zero. *)
Lemma throttle_rounds_up :
  0 < third <= 1
  /\ list_sum (map len (iterate 1 (repeat ev_2e2mu 3)
                                (float_mul
                                   (float_of_nat (length (repeat ev_2e2mu 3)))
                                   third))) = 1%nat
  /\ Z.to_nat (Zfloor (INR (length (repeat ev_2e2mu 3)) * third)) = 0%nat.
Proof.
  split; [unfold third; lra|]. split.
  - rewrite iterate_total by lia.
    change (length (repeat ev_2e2mu 3)) with 3%nat.
    rewrite three_thirds, regularize_in_range by (simpl; lra).
    rewrite ZfloorZ. reflexivity.
  - change (length (repeat ev_2e2mu 3)) with 3%nat.
    rewrite exact_floor_third. reflexivity.
Qed.

(** ** Histograms *)

Lemma list_alter_length {A} (f : A -> A) (i : nat) (l : list A) :
  length (list_alter f i l) = length l.
Proof.
  revert i. induction l as [|a l IH]; intros [|i]; simpl; try reflexivity.
  rewrite IH. reflexivity.
Qed.

Lemma nth_list_alter {A} (f : A -> A) (i j : nat) (l : list A) (d : A) :
  nth j (list_alter f i l) d
  = if (j =? i)%nat && (i <? length l)%nat then f (nth j l d) else nth j l d.
Proof.
  revert i j. induction l as [|a l IH]; intros i j.
  - replace (i <? length (@nil A))%nat with false by (destruct i; reflexivity).
    rewrite andb_false_r. destruct i; reflexivity.
  - destruct i as [|i], j as [|j]; simpl; try reflexivity.
    rewrite IH. reflexivity.
Qed.

Lemma sum_list_cons (x : R) (l : list R) : sum_list (x :: l) = x + sum_list l.
Proof. reflexivity. Qed.

Lemma sum_window_alter (w : R) (k : nat) (arr : list R) (a n : nat) :
  sum_window a n (list_alter (fun c => c + w) k arr)
  = sum_window a n arr
    + (if (a <=? k)%nat && (k <? a + n)%nat && (k <? length arr)%nat
       then w else 0).
Proof.
  unfold sum_window. revert a. induction n as [|n IH]; intros a.
  - assert (Hc : (a <=? k)%nat && (k <? a + 0)%nat = false).
    { destruct (Nat.leb_spec a k), (Nat.ltb_spec k (a + 0));
        simpl; try reflexivity; lia. }
    rewrite Hc. unfold sum_list. simpl. lra.
  - cbn [seq map]. rewrite !sum_list_cons, IH, nth_list_alter.
    destruct (Nat.leb_spec a k), (Nat.ltb_spec k (a + S n)),
      (Nat.eqb_spec a k), (Nat.leb_spec (S a) k), (Nat.ltb_spec k (S a + n));
      try lia; cbn [andb]; destruct (k <? length arr)%nat; lra.
Qed.

(** A running tally: every element adds its weight to the cell that its
    index names; the cells of a window then hold the weights of the
    elements whose index falls into the window. *)
Lemma fold_tally_sum {X} (idx : X -> nat) (wt : X -> R) (a n : nat)
    (xs : list X) (arr : list R) :
  sum_window a n
    (fold_left (fun arr x => list_alter (fun c => c + wt x) (idx x) arr) xs arr)
  = sum_window a n arr
    + sum_list (map wt (filter (fun x => (a <=? idx x)%nat
                                         && (idx x <? a + n)%nat
                                         && (idx x <? length arr)%nat) xs)).
Proof.
  revert arr. induction xs as [|x xs IH]; intros arr; simpl.
  - lra.
  - rewrite IH, sum_window_alter, list_alter_length.
    destruct ((a <=? idx x)%nat && (idx x <? a + n)%nat
              && (idx x <? length arr)%nat); simpl; lra.
Qed.

Lemma sum_window_zeros (a n m : nat) : sum_window a n (repeat 0 m) = 0.
Proof.
  unfold sum_window. revert a. induction n as [|n IH]; intros a.
  - reflexivity.
  - cbn [seq map]. rewrite sum_list_cons, nth_repeat, IH. lra.
Qed.

Lemma scaled_fraction_bounds (n : nat) (lo hi x : R) :
  (0 < n)%nat -> lo < hi -> lo <= x < hi ->
  0 <= (x - lo) / (hi - lo) * INR n < INR n.
Proof.
  intros Hpos Hlh [H1 H2].
  assert (Hn : 0 < INR n) by (apply lt_0_INR; exact Hpos).
  set (t := (x - lo) / (hi - lo)).
  assert (Ht : t * (hi - lo) = x - lo) by (unfold t; field; lra).
  assert (Ht0 : 0 <= t) by nra.
  assert (Ht1 : t < 1) by nra.
  nra.
Qed.

Lemma floor_index (n : nat) (y : R) :
  0 <= y < INR n -> (Z.to_nat (Zfloor y) < n)%nat.
Proof.
  intros [H0 H1]. pose proof (Zfloor_bound y) as [Hf _].
  assert (0 <= Zfloor y)%Z by (apply Zfloor_lub; simpl; lra).
  assert (Zfloor y < Z.of_nat n)%Z.
  { apply lt_IZR. rewrite <- INR_IZR_INZ. lra. }
  lia.
Qed.

Lemma sum_bins_window (h : TH1F) :
  sum_bins h = sum_window 1 (fNbins h) (fArray h).
Proof. reflexivity. Qed.

Lemma FindBin_window (h : TH1F) (x : R) :
  (0 < fNbins h)%nat -> fXmin h < fXmax h ->
  (1 <=? FindBin h x)%nat && (FindBin h x <? 1 + fNbins h)%nat
  && (FindBin h x <? fNbins h + 2)%nat
  = in_half_open (fXmin h) (fXmax h) x.
Proof.
  intros Hn Hlh. unfold FindBin, in_half_open.
  destruct (Rlt_dec x (fXmin h)) as [Hlo|Hlo].
  - destruct (Rle_dec (fXmin h) x); [lra|reflexivity].
  - destruct (Rle_dec (fXmin h) x) as [_|Hc]; [|lra].
    destruct (Rlt_dec x (fXmax h)) as [Hhi|Hhi].
    + assert (Hy : INR (fNbins h) * (x - fXmin h) / (fXmax h - fXmin h)
                   = (x - fXmin h) / (fXmax h - fXmin h) * INR (fNbins h))
        by (field; lra).
      rewrite Hy.
      pose proof (floor_index (fNbins h) _
                    (scaled_fraction_bounds (fNbins h) (fXmin h) (fXmax h) x
                       Hn Hlh (conj (Rnot_lt_le _ _ Hlo) Hhi))) as Hidx.
      destruct (Nat.leb_spec 1 (1 + Z.to_nat (Zfloor
                 ((x - fXmin h) / (fXmax h - fXmin h) * INR (fNbins h))))),
        (Nat.ltb_spec (1 + Z.to_nat (Zfloor
                 ((x - fXmin h) / (fXmax h - fXmin h) * INR (fNbins h))))
                      (1 + fNbins h)),
        (Nat.ltb_spec (1 + Z.to_nat (Zfloor
                 ((x - fXmin h) / (fXmax h - fXmin h) * INR (fNbins h))))
                      (fNbins h + 2)); try lia; reflexivity.
    + destruct (Nat.ltb_spec (fNbins h + 1) (1 + fNbins h)); [lia|].
      rewrite andb_false_r. reflexivity.
Qed.

Lemma FillN_fold (l : list (R * R)) (h : TH1F) :
  fold_left (fun h xw => AddBinContent h (FindBin h (fst xw)) (snd xw)) l h
  = {| fNbins := fNbins h; fXmin := fXmin h; fXmax := fXmax h;
       fArray := fold_left (fun arr xw =>
                              list_alter (fun c => c + snd xw)
                                         (FindBin h (fst xw)) arr)
                           l (fArray h) |}.
Proof.
  revert h. induction l as [|xw l IH]; intros h.
  - destruct h; reflexivity.
  - cbn [fold_left]. rewrite IH. reflexivity.
Qed.

Lemma fill_mc_hist_sum (n : nat) (lo hi : R) (x w : list R) :
  (0 < n)%nat -> lo < hi ->
  sum_bins (fill_mc_hist n lo hi x w) = weight_in_half_open lo hi x w.
Proof.
  intros Hn Hlh. unfold fill_mc_hist, FillN.
  rewrite firstn_all2 by (rewrite length_combine; lia).
  rewrite FillN_fold, sum_bins_window. cbn [fNbins fArray TH1F_new].
  rewrite (fold_tally_sum (fun xw => FindBin (TH1F_new n lo hi) (fst xw)) snd).
  rewrite sum_window_zeros, repeat_length, Rplus_0_l.
  unfold weight_in_half_open. f_equal. f_equal. apply filter_ext.
  intros xw. apply (FindBin_window (TH1F_new n lo hi)); assumption.
Qed.

(** The cell that [np.histogram] increments, with [bins] standing for
    "none". *)
Lemma list_alter_overflow {A} (f : A -> A) (i : nat) (l : list A) :
  (length l <= i)%nat -> list_alter f i l = l.
Proof.
  revert i. induction l as [|a l IH]; intros [|i] H; simpl in *;
    try reflexivity; try lia.
  rewrite IH by lia. reflexivity.
Qed.

Lemma map_IZR_succ (i : nat) (l : list Z) :
  map IZR (list_alter Z.succ i l) = list_alter (fun c => c + 1) i (map IZR l).
Proof.
  revert i. induction l as [|a l IH]; intros [|i]; simpl; try reflexivity.
  - rewrite succ_IZR. reflexivity.
  - rewrite IH. reflexivity.
Qed.

Lemma np_histogram_fold (a : list R) (bins : nat) (lo hi : R) (counts : list Z) :
  length counts = bins ->
  map IZR (fold_left (fun counts x =>
                        match np_bin_index bins lo hi x with
                        | Some i => list_alter Z.succ i counts
                        | None => counts
                        end) a counts)
  = fold_left (fun arr x =>
                 list_alter (fun c => c + 1)
                            (match np_bin_index bins lo hi x with
                             | Some i => i
                             | None => bins
                             end) arr) a (map IZR counts)
  /\ length (fold_left (fun counts x =>
                          match np_bin_index bins lo hi x with
                          | Some i => list_alter Z.succ i counts
                          | None => counts
                          end) a counts) = bins.
Proof.
  revert counts. induction a as [|x a IH]; intros counts Hlen.
  - split; [reflexivity|exact Hlen].
  - cbn [fold_left]. destruct (np_bin_index bins lo hi x) as [i|].
    + rewrite <- map_IZR_succ. apply IH. rewrite list_alter_length. exact Hlen.
    + rewrite list_alter_overflow by (rewrite length_map; lia).
      apply IH. exact Hlen.
Qed.

Lemma np_bin_index_window (n : nat) (lo hi x : R) :
  (0 < n)%nat -> lo < hi ->
  (0 <=? match np_bin_index n lo hi x with Some i => i | None => n end)%nat
  && (match np_bin_index n lo hi x with Some i => i | None => n end <? 0 + n)%nat
  && (match np_bin_index n lo hi x with Some i => i | None => n end <? n)%nat
  = in_closed lo hi x.
Proof.
  intros Hn Hlh. unfold np_bin_index, in_closed.
  destruct (Rlt_dec x lo) as [Hlo|Hlo].
  - destruct (Rle_dec lo x); [lra|]. rewrite Nat.ltb_irrefl. reflexivity.
  - destruct (Rle_dec lo x) as [_|Hc]; [|lra].
    destruct (Rlt_dec hi x) as [Hhi|Hhi].
    + destruct (Rle_dec x hi); [lra|]. rewrite Nat.ltb_irrefl. reflexivity.
    + destruct (Rle_dec x hi) as [_|Hc]; [|lra].
      destruct (Req_dec_T x hi) as [Heq|Hne].
      * destruct (Nat.ltb_spec (n - 1) n), (Nat.ltb_spec (n - 1) (0 + n));
          try lia; reflexivity.
      * assert (Hx : lo <= x < hi) by lra.
        pose proof (floor_index n _ (scaled_fraction_bounds n lo hi x Hn Hlh Hx))
          as Hidx.
        destruct (Nat.ltb_spec (Z.to_nat (Zfloor ((x - lo) / (hi - lo) * INR n))) n),
          (Nat.ltb_spec (Z.to_nat (Zfloor ((x - lo) / (hi - lo) * INR n))) (0 + n));
          try lia; reflexivity.
Qed.

Lemma sum_list_ones {X} (l : list X) :
  sum_list (map (fun _ => 1) l) = INR (length l).
Proof.
  induction l as [|x l IH]; [reflexivity|].
  cbn [map length]. rewrite sum_list_cons, IH, S_INR. lra.
Qed.

Lemma np_histogram_sum (a : list R) (n : nat) (lo hi : R) :
  (0 < n)%nat -> lo < hi ->
  sum_window 0 n (map IZR (np_histogram a n lo hi))
  = INR (count_in_closed lo hi a)
  /\ length (np_histogram a n lo hi) = n.
Proof.
  intros Hn Hlh. unfold np_histogram.
  destruct (np_histogram_fold a n lo hi (repeat 0%Z n) (repeat_length _ _))
    as [Harr Hlen].
  split; [|exact Hlen].
  rewrite Harr, (fold_tally_sum _ (fun _ => 1)).
  rewrite map_repeat. change (IZR 0) with 0.
  rewrite sum_window_zeros, repeat_length, Rplus_0_l, sum_list_ones.
  unfold count_in_closed. f_equal. f_equal. apply filter_ext.
  intros x. apply np_bin_index_window; assumption.
Qed.

Lemma SetBinContent_fold (l : list (nat * Z)) (h : TH1F) :
  fold_left (fun h iv => SetBinContent h (fst iv + 1) (IZR (snd iv))) l h
  = {| fNbins := fNbins h; fXmin := fXmin h; fXmax := fXmax h;
       fArray := fold_left (fun arr iv =>
                              list_alter (fun _ => IZR (snd iv)) (fst iv + 1) arr)
                           l (fArray h) |}.
Proof.
  revert h. induction l as [|iv l IH]; intros h.
  - destruct h; reflexivity.
  - cbn [fold_left]. rewrite IH. reflexivity.
Qed.

Lemma nth_set_loop (cs : list Z) (a : nat) (arr : list R) (j : nat) :
  (a + 1 + length cs <= length arr)%nat ->
  nth j (fold_left (fun arr iv =>
                      list_alter (fun _ => IZR (snd iv)) (fst iv + 1) arr)
                   (combine (seq a (length cs)) cs) arr) 0
  = if (a + 1 <=? j)%nat && (j <? a + 1 + length cs)%nat
    then IZR (nth (j - (a + 1)) cs 0%Z) else nth j arr 0.
Proof.
  revert a arr. induction cs as [|c cs IH]; intros a arr Hlen.
  - cbn [length seq combine fold_left].
    destruct (Nat.leb_spec (a + 1) j), (Nat.ltb_spec j (a + 1 + 0));
      try lia; reflexivity.
  - cbn [length seq combine fold_left fst snd]. cbn [length] in Hlen.
    rewrite IH by (rewrite list_alter_length; lia).
    rewrite nth_list_alter.
    destruct (Nat.leb_spec (S a + 1) j), (Nat.ltb_spec j (S a + 1 + length cs)),
      (Nat.leb_spec (a + 1) j), (Nat.ltb_spec j (a + 1 + S (length cs))),
      (Nat.eqb_spec j (a + 1)), (Nat.ltb_spec (a + 1) (length arr));
      try lia; cbn [andb]; try reflexivity.
    + replace (j - (a + 1))%nat with (S (j - (S a + 1))) by lia. reflexivity.
    + subst j. rewrite Nat.sub_diag. reflexivity.
Qed.

Lemma fill_data_hist_sum (n : nat) (lo hi : R) (m : list R) :
  (0 < n)%nat -> lo < hi ->
  sum_bins (fill_data_hist n lo hi m) = INR (count_in_closed lo hi m).
Proof.
  intros Hn Hlh. destruct (np_histogram_sum m n lo hi Hn Hlh) as [Hsum Hlen].
  rewrite <- Hsum. unfold fill_data_hist. cbv zeta.
  rewrite SetBinContent_fold, sum_bins_window. unfold sum_window.
  cbn [fNbins fArray TH1F_new].
  rewrite <- seq_shift, map_map. f_equal. apply map_ext_in.
  intros i Hi. apply in_seq in Hi.
  rewrite nth_set_loop by (rewrite repeat_length, Hlen; lia).
  rewrite Hlen.
  destruct (Nat.leb_spec (0 + 1) (S i)), (Nat.ltb_spec (S i) (0 + 1 + n));
    try lia. cbn [andb].
  replace (S i - (0 + 1))%nat with i by lia.
  symmetry. apply (map_nth IZR).
Qed.

(** ** The exported file *)

Lemma bind_inv {A B} (c : result A) (k : A -> result B) (b : B) :
  bind c k = ret b -> exists a, c = ret a /\ k a = ret b.
Proof.
  destruct c as [e|a]; simpl; [discriminate|]. intros H. exists a. split;
    [reflexivity|exact H].
Qed.

Lemma mapM_inv {A B} (f : A -> result B) (l : list A) (out : list B) :
  mapM f l = ret out -> Forall2 (fun a b => f a = ret b) l out.
Proof.
  revert out. induction l as [|a l IH]; intros out; simpl.
  - intros H. inversion H. constructor.
  - intros H. apply bind_inv in H as [b [Hb H]].
    apply bind_inv in H as [bs [Hbs H]]. inversion H; subst.
    constructor; [exact Hb|apply IH, Hbs].
Qed.

Lemma Forall2_Forall_r {A B} (R : A -> B -> Prop) (P : B -> Prop)
    (l : list A) (out : list B) :
  Forall2 R l out -> (forall a b, In a l -> R a b -> P b) -> Forall P out.
Proof.
  induction 1 as [|a b l out Hab _ IH]; intros HP; constructor.
  - apply (HP a b); [left; reflexivity|exact Hab].
  - apply IH. intros a' b' Hin. apply HP. right. exact Hin.
Qed.

Lemma get_mllll_inv (a : Array) (m : list R) :
  get_mllll a = ret m -> mllll a = Some m.
Proof. unfold get_mllll. destruct (mllll a); intros H; inversion H. reflexivity. Qed.

Lemma get_totalWeight_inv (a : Array) (w : list R) :
  get_totalWeight a = ret w -> totalWeight a = Some w.
Proof.
  unfold get_totalWeight. destruct (totalWeight a); intros H; inversion H.
  reflexivity.
Qed.

Lemma new_mc_hist_inv (n : nat) (lo hi : R) (x w : list R) (h : TH1F) :
  new_mc_hist n lo hi x w = ret h ->
  x <> [] /\ w <> [] /\ h = fill_mc_hist n lo hi x w.
Proof.
  unfold new_mc_hist. destruct x as [|x0 x], w as [|w0 w]; try discriminate.
  intros H. inversion H. repeat split; discriminate.
Qed.

Lemma new_mc_hist_outcome (n : nat) (lo hi : R) (x w : list R) :
  new_mc_hist n lo hi x w = raise TypeError
  \/ exists h, new_mc_hist n lo hi x w = ret h.
Proof.
  destruct x, w; try (left; reflexivity). right. eexists. reflexivity.
Qed.

Lemma backgrounds_inv (data : dict Array) (ss : list string)
    (mc : list (string * TH1F)) :
  Forall2 (fun s nh =>
             (a <- dict_get data s ;;
              mc_x <- get_mllll a ;;
              mc_weights <- get_totalWeight a ;;
              mc_hist <- new_mc_hist 36 70 180 mc_x mc_weights ;;
              ret (("mc_hist_" ++ s)%string, mc_hist)) = ret nh) ss mc ->
  Forall2 (fun s nh => exists x w,
              simulated_columns data s x w /\
              nh = (("mc_hist_" ++ s)%string, fill_mc_hist 36 70 180 x w))
          ss mc.
Proof.
  induction 1 as [|s nh ss mc Hs _ IH]; constructor; [|exact IH].
  apply bind_inv in Hs as [a [Ha Hs]].
  apply bind_inv in Hs as [x [Hx Hs]].
  apply bind_inv in Hs as [w [Hw Hs]].
  apply bind_inv in Hs as [h [Hh Hs]].
  apply new_mc_hist_inv in Hh as (Hx0 & Hw0 & ->).
  inversion Hs; subst. exists x, w. split; [|reflexivity].
  exists a. auto using get_mllll_inv, get_totalWeight_inv.
Qed.

(** What a returned file tells about the dict it was made from. *)
Lemma export_inv (samples : dict (list string)) (data : dict Array)
    (file : dict TH1F) :
  save_histograms_to_root samples data = ret file ->
  exists d m sx sw mc,
    dict_get data "data" = ret d /\ mllll d = Some m /\
    simulated_columns data signal_key sx sw /\
    Forall2 (fun s nh => exists x w,
                simulated_columns data s x w /\
                nh = (("mc_hist_" ++ s)%string, fill_mc_hist 36 70 180 x w))
            (backgrounds samples) mc /\
    file = ("data_hist"%string, fill_data_hist 36 70 180 m)
           :: ("signal_hist"%string, fill_mc_hist 36 70 180 sx sw) :: mc.
Proof.
  unfold save_histograms_to_root. cbv zeta. intros H.
  apply bind_inv in H as [d [Hd H]].
  apply bind_inv in H as [d_m [Hdm H]].
  apply bind_inv in H as [sg [Hsg H]].
  apply bind_inv in H as [sx [Hsx H]].
  apply bind_inv in H as [sw [Hsw H]].
  apply bind_inv in H as [sh [Hsh H]].
  apply bind_inv in H as [mc [Hmc H]].
  apply new_mc_hist_inv in Hsh as (Hsx0 & Hsw0 & ->).
  inversion H; subst. exists d, d_m, sx, sw, mc.
  split; [exact Hd|]. split; [apply get_mllll_inv, Hdm|].
  split; [exists sg; auto using get_mllll_inv, get_totalWeight_inv|].
  split; [|reflexivity].
  apply mapM_inv in Hmc. apply backgrounds_inv, Hmc.
Qed.

Lemma save_histograms_to_root_inv (samples : dict (list string))
    (data : dict Array) (file : dict TH1F) :
  save_histograms_to_root samples data = ret file ->
  exists data_hist signal_hist mc,
    file = ("data_hist"%string, data_hist)
           :: ("signal_hist"%string, signal_hist) :: mc /\
    data_hist_of data data_hist /\
    mc_hist_of data signal_key signal_hist /\
    Forall (fun nh => exists s,
                In s (dict_keys samples) /\
                fst nh = ("mc_hist_" ++ s)%string /\
                mc_hist_of data s (snd nh)) mc.
Proof.
  intros H. apply export_inv in H
    as (d & m & sx & sw & mc & Hd & Hm & Hsig & Hmc & ->).
  do 3 eexists. split; [reflexivity|]. split; [|split].
  - exists d, m. auto.
  - destruct Hsig as (sg & Hsg & Hsx & Hsw & _). exists sg, sx, sw. auto.
  - eapply Forall2_Forall_r; [exact Hmc|].
    intros s nh Hin (x & w & (a & Ha & Hx & Hw & _) & ->).
    exists s. split; [|split; [reflexivity|]].
    + apply filter_In in Hin. apply Hin.
    + exists a, x, w. auto.
Qed.

Lemma count_closed_upper_edge : count_in_closed 70 180 [180] = 1%nat.
Proof.
  unfold count_in_closed, in_closed. simpl.
  destruct (Rle_dec 70 180); [|lra]. destruct (Rle_dec 180 180); [|lra].
  reflexivity.
Qed.

Lemma count_half_open_upper_edge : count_in_half_open 70 180 [180] = 0%nat.
Proof.
  unfold count_in_half_open, in_half_open. simpl.
  destruct (Rle_dec 70 180); [|lra]. destruct (Rlt_dec 180 180); [lra|].
  reflexivity.
Qed.

Lemma FindBin_outside (x : R) :
  ~ (70 <= x < 180) ->
  FindBin (TH1F_new 36 70 180) x = 0%nat
  \/ FindBin (TH1F_new 36 70 180) x = 37%nat.
Proof.
  intros H. unfold FindBin. cbn [fXmin fXmax fNbins TH1F_new].
  destruct (Rlt_dec x 70); [left; reflexivity|].
  destruct (Rlt_dec x 180); [lra|right; reflexivity].
Qed.

Lemma np_bin_index_outside (x : R) :
  ~ (70 <= x <= 180) -> np_bin_index 36 70 180 x = None.
Proof.
  intros H. unfold np_bin_index.
  destruct (Rlt_dec x 70); [reflexivity|].
  destruct (Rlt_dec 180 x); [reflexivity|lra].
Qed.

(** X24. In the exported file the bins 1 to 36 of
    every simulation histogram (signal and backgrounds) sum to the total
    weight of the category's events with mass in [70, 180), and the bins of
    the data histogram sum to the number of observed events with mass in
    the closed range [70, 180].  A simulated event outside [70, 180) goes
    to the underflow or the overflow cell, and an observed event outside
    [70, 180] is dropped by [np.histogram]: neither contributes to one of
    the 36 bins. *)
Theorem exported_bin_sums (samples : dict (list string)) (data : dict Array)
    (file : dict TH1F) :
  save_histograms_to_root samples data = ret file ->
  exists data_hist signal_hist mc,
    file = ("data_hist"%string, data_hist)
           :: ("signal_hist"%string, signal_hist) :: mc /\
    (forall x, ~ (70 <= x < 180) ->
               FindBin (TH1F_new 36 70 180) x = 0%nat
               \/ FindBin (TH1F_new 36 70 180) x = 37%nat) /\
    (forall x, ~ (70 <= x <= 180) -> np_bin_index 36 70 180 x = None) /\
    (exists d m,
        dict_get data "data" = ret d /\ mllll d = Some m /\
        sum_bins data_hist = INR (count_in_closed 70 180 m)) /\
    (exists a x w,
        dict_get data signal_key = ret a /\ mllll a = Some x /\
        totalWeight a = Some w /\
        sum_bins signal_hist = weight_in_half_open 70 180 x w) /\
    Forall (fun nh => exists s a x w,
                In s (dict_keys samples) /\
                fst nh = ("mc_hist_" ++ s)%string /\
                dict_get data s = ret a /\ mllll a = Some x /\
                totalWeight a = Some w /\
                sum_bins (snd nh) = weight_in_half_open 70 180 x w) mc.
Proof.
  intros H. apply save_histograms_to_root_inv in H
    as (data_hist & signal_hist & mc & Hfile & Hd & Hs & Hmc).
  exists data_hist, signal_hist, mc. split; [exact Hfile|].
  split; [exact FindBin_outside|]. split; [exact np_bin_index_outside|].
  split; [|split].
  - destruct Hd as (d & m & Hget & Hm & ->). exists d, m.
    repeat split; try assumption. apply fill_data_hist_sum; [lia|lra].
  - destruct Hs as (a & x & w & Hget & Hx & Hw & ->). exists a, x, w.
    repeat split; try assumption. apply fill_mc_hist_sum; [lia|lra].
  - eapply Forall_impl; [|exact Hmc]. intros nh (s & Hin & Hname & Hof).
    destruct Hof as (a & x & w & Hget & Hx & Hw & ->). exists s, a, x, w.
    repeat split; try assumption. apply fill_mc_hist_sum; [lia|lra].
Qed.

Lemma exported_bin_sums_witness :
  exists data_hist signal_hist mc,
    [("data_hist"%string, fill_data_hist 36 70 180 [125]);
     ("signal_hist"%string, fill_mc_hist 36 70 180 [125] [0.5])]
    = ("data_hist"%string, data_hist)
      :: ("signal_hist"%string, signal_hist) :: mc /\
    (forall x, ~ (70 <= x < 180) ->
               FindBin (TH1F_new 36 70 180) x = 0%nat
               \/ FindBin (TH1F_new 36 70 180) x = 37%nat) /\
    (forall x, ~ (70 <= x <= 180) -> np_bin_index 36 70 180 x = None) /\
    (exists d m,
        dict_get (data_small 125) "data" = ret d /\ mllll d = Some m /\
        sum_bins data_hist = INR (count_in_closed 70 180 m)) /\
    (exists a x w,
        dict_get (data_small 125) signal_key = ret a /\ mllll a = Some x /\
        totalWeight a = Some w /\
        sum_bins signal_hist = weight_in_half_open 70 180 x w) /\
    Forall (fun nh => exists s a x w,
                In s (dict_keys samples_small) /\
                fst nh = ("mc_hist_" ++ s)%string /\
                dict_get (data_small 125) s = ret a /\ mllll a = Some x /\
                totalWeight a = Some w /\
                sum_bins (snd nh) = weight_in_half_open 70 180 x w) mc.
Proof.
  apply (exported_bin_sums samples_small (data_small 125)).
  reflexivity.
Defined.

Lemma weight_half_open_upper_edge : weight_in_half_open 70 180 [180] [1] = 0.
Proof.
  unfold weight_in_half_open, in_half_open. simpl.
  destruct (Rle_dec 70 180); [|lra]. destruct (Rlt_dec 180 180); [lra|].
  reflexivity.
Qed.

Lemma data_bin_at_upper_edge :
  GetBinContent (fill_data_hist 36 70 180 [180]) 36 = 1.
Proof.
  unfold fill_data_hist, np_histogram. cbv zeta. cbn [fold_left].
  assert (Hi : np_bin_index 36 70 180 180 = Some 35%nat).
  { unfold np_bin_index. destruct (Rlt_dec 180 70); [lra|].
    destruct (Rlt_dec 180 180); [lra|].
    destruct (Req_dec_T 180 180); [reflexivity|contradiction]. }
  rewrite Hi. reflexivity.
Qed.

Lemma overflow_cell_at_upper_edge :
  GetBinContent (fill_mc_hist 36 70 180 [180] [1]) 37 = 1.
Proof.
  unfold fill_mc_hist, FillN. cbn [length combine firstn fold_left fst snd].
  assert (Hb : FindBin (TH1F_new 36 70 180) 180 = 37%nat).
  { unfold FindBin. cbn [fXmin fXmax fNbins TH1F_new].
    destruct (Rlt_dec 180 70); [lra|].
    destruct (Rlt_dec 180 180); [lra|reflexivity]. }
  rewrite Hb. unfold GetBinContent. simpl. lra.
Qed.

(** C8.  The two paths of [save_histograms_to_root] differ at the upper
    edge of the range.  For an observed event and a signal event of
    weight 1, both of mass exactly 180, the export returns a file in which
    the observed event is counted in bin 36 of [data_hist], so that its
    bins sum to 1, while the signal event is in the overflow cell of
    [signal_hist], whose bins sum to 0.  The mass 180 is not in
    [70, 180): the data path counts an event that the claim excludes and
    that the simulation path excludes. *)
Lemma data_hist_counts_upper_edge :
  exists file data_hist signal_hist,
    save_histograms_to_root samples_small data_at_edge = ret file /\
    dict_get file "data_hist" = ret data_hist /\
    dict_get file "signal_hist" = ret signal_hist /\
    GetBinContent data_hist 36 = 1 /\ sum_bins data_hist = 1 /\
    GetBinContent signal_hist 37 = 1 /\ sum_bins signal_hist = 0 /\
    INR (count_in_half_open 70 180 [180]) = 0 /\
    sum_bins data_hist <> INR (count_in_half_open 70 180 [180]).
Proof.
  do 3 eexists. split; [reflexivity|]. split; [reflexivity|].
  split; [reflexivity|].
  assert (H1 : sum_bins (fill_data_hist 36 70 180 [180]) = 1).
  { rewrite fill_data_hist_sum by (lia || lra).
    rewrite count_closed_upper_edge. reflexivity. }
  assert (H0 : INR (count_in_half_open 70 180 [180]) = 0).
  { rewrite count_half_open_upper_edge. reflexivity. }
  split; [exact data_bin_at_upper_edge|]. split; [exact H1|].
  split; [exact overflow_cell_at_upper_edge|].
  split; [rewrite fill_mc_hist_sum by (lia || lra);
          exact weight_half_open_upper_edge|].
  split; [exact H0|]. rewrite H1, H0. lra.
Qed.

(** ** Failure of a constituent sample *)

Lemma mapM_first_error {A B} (f : A -> result B) (l1 l2 : list A) (a : A)
    (e : Exception) :
  Forall (fun v => is_ok (f v) = true) l1 ->
  f a = raise e ->
  mapM f (l1 ++ a :: l2) = raise e.
Proof.
  intros Hok Ha. induction Hok as [|v l1 Hv _ IH]; simpl.
  - rewrite Ha. reflexivity.
  - destruct (f v) as [e'|b]; [discriminate Hv|]. simpl. rewrite IH. reflexivity.
Qed.

Lemma mapM_some_error {A B} (f : A -> result B) (l : list A) (a : A)
    (e : Exception) :
  In a l -> f a = raise e -> exists e', mapM f l = raise e'.
Proof.
  intros Hin Ha. induction l as [|v l IH]; [contradiction|]. simpl.
  destruct (f v) as [e'|b] eqn:Hv; [exists e'; reflexivity|]. simpl.
  destruct Hin as [->|Hin].
  - rewrite Ha in Hv. discriminate.
  - destruct (IH Hin) as [e' He']. exists e'. rewrite He'. reflexivity.
Qed.

Section Aggregator.

Variable lumi : R.
Variable fraction : R.
Variable tuple_path : string.
Variable infos : dict Info.
Variable uproot_open : string -> result (list Event).
Variable entry_step : nat.

Local Abbreviation read_file' :=
  (read_file lumi fraction infos uproot_open entry_step).
Local Abbreviation read_one' :=
  (read_one lumi fraction tuple_path infos uproot_open entry_step).
Local Abbreviation read_category' :=
  (read_category lumi fraction tuple_path infos uproot_open entry_step).
Local Abbreviation get_data_loop' :=
  (get_data_loop lumi fraction tuple_path infos uproot_open entry_step).

Lemma read_category_first_error (s : string) (vals1 vals2 : list string)
    (val : string) (e : Exception) :
  Forall (fun v => is_ok (read_one' s v) = true) vals1 ->
  read_one' s val = raise e ->
  read_category' s (vals1 ++ val :: vals2) = raise e.
Proof.
  intros Hok Hval. unfold read_category. rewrite (mapM_first_error _ _ _ _ e Hok Hval). reflexivity.
Qed.

Lemma read_category_some_error (s : string) (vals : list string)
    (val : string) (e : Exception) :
  In val vals -> read_one' s val = raise e ->
  exists e', read_category' s vals = raise e'.
Proof.
  intros Hin Hval. unfold read_category. destruct (mapM_some_error _ _ _ e Hin Hval) as [e' He'].
  exists e'. rewrite He'. reflexivity.
Qed.

Lemma get_data_loop_first_error (before after : dict (list string))
    (s : string) (vals : list string) (e : Exception) (data : dict Array) :
  Forall (fun c => is_ok (read_category' (fst c) (snd c)) = true) before ->
  read_category' s vals = raise e ->
  get_data_loop' (before ++ (s, vals) :: after) data = raise e.
Proof.
  intros Hok Hcat. revert data.
  induction Hok as [|[s' vals'] before Hc _ IH]; intros data; simpl.
  - rewrite Hcat. reflexivity.
  - simpl in Hc.
    destruct (read_category' s' vals') as [e'|a]; [discriminate Hc|]. simpl.
    apply IH.
Qed.

Lemma get_data_loop_some_error (todo : dict (list string)) (s : string)
    (vals : list string) (e : Exception) (data : dict Array) :
  In (s, vals) todo ->
  read_category' s vals = raise e ->
  exists e', get_data_loop' todo data = raise e'.
Proof.
  intros Hin Hcat. revert data.
  induction todo as [|[s' vals'] todo IH]; intros data; [contradiction|].
  simpl.
  destruct (read_category' s' vals') as [e'|a] eqn:Hc;
    [exists e'; reflexivity|]. simpl.
  destruct Hin as [Heq|Hin].
  - inversion Heq; subst. rewrite Hcat in Hc. discriminate.
  - apply IH, Hin.
Qed.

Lemma read_file_open_error (path sample : string) (e : Exception) :
  uproot_open (path ++ ":mini")%string = raise e ->
  read_file' path sample = raise e.
Proof. intros H. unfold read_file. rewrite H. reflexivity. Qed.

Lemma read_file_metadata_error (path sample : string) (tree : list Event) :
  uproot_open (path ++ ":mini")%string = ret tree ->
  str_contains "data" sample = false ->
  dict_get infos sample = raise KeyError ->
  read_file' path sample = raise KeyError.
Proof.
  intros Hopen Hmc Hinfo. unfold read_file, get_xsec_weight.
  rewrite Hopen, Hmc, Hinfo. reflexivity.
Qed.

Lemma read_one_metadata_error (s val : string) :
  s <> "data"%string ->
  dict_get infos val = raise KeyError ->
  read_one' s val = raise KeyError.
Proof.
  intros Hs Hinfo. unfold read_one, file_prefix.
  destruct (String.eqb_spec s "data"); [contradiction|].
  rewrite Hinfo. reflexivity.
Qed.

(** C9. Nothing in the aggregator catches an exception.  A file that
    cannot be opened and a sample without metadata make [read_file] raise;
    when the read of one constituent sample of a category raises, the
    category is not concatenated and [get_data_from_files] returns no
    dictionary at all; the exception that reaches the caller is the one of
    the first read that fails. *)
Theorem failed_sample_aborts_category (samples : dict (list string)) :
  (forall path sample e,
      uproot_open (path ++ ":mini")%string = raise e ->
      read_file' path sample = raise e)
  /\ (forall path sample tree,
         uproot_open (path ++ ":mini")%string = ret tree ->
         str_contains "data" sample = false ->
         dict_get infos sample = raise KeyError ->
         read_file' path sample = raise KeyError)
  /\ (forall s val,
         s <> "data"%string ->
         dict_get infos val = raise KeyError ->
         read_one' s val = raise KeyError)
  /\ (forall s vals val e,
         In (s, vals) samples -> In val vals ->
         read_one' s val = raise e ->
         (exists e', read_category' s vals = raise e') /\
         (exists e', get_data_from_files lumi fraction tuple_path samples infos
                       uproot_open entry_step = raise e') /\
         (forall data, get_data_from_files lumi fraction tuple_path samples
                         infos uproot_open entry_step <> ret data))
  /\ (forall before after s vals1 vals2 val e,
         samples = before ++ (s, vals1 ++ val :: vals2) :: after ->
         Forall (fun c => is_ok (read_category' (fst c) (snd c)) = true)
                before ->
         Forall (fun v => is_ok (read_one' s v) = true) vals1 ->
         read_one' s val = raise e ->
         get_data_from_files lumi fraction tuple_path samples infos
           uproot_open entry_step = raise e).
Proof.
  split; [exact read_file_open_error|].
  split; [exact read_file_metadata_error|].
  split; [exact read_one_metadata_error|].
  split.
  - intros s vals val e Hs Hval Hread.
    destruct (read_category_some_error s vals val e Hval Hread) as [e1 He1].
    destruct (get_data_loop_some_error samples s vals e1 [] Hs He1) as [e2 He2].
    split; [exists e1; exact He1|]. unfold get_data_from_files.
    split; [exists e2; exact He2|]. intros data. rewrite He2. discriminate.
  - intros before after s vals1 vals2 val e -> Hbefore Hvals Hread.
    unfold get_data_from_files. apply get_data_loop_first_error; [exact Hbefore|].
    apply read_category_first_error; assumption.
Qed.

End Aggregator.

Lemma failed_sample_aborts_category_witness :
  (exists e', read_category 10 1 "Input/4lep/" infos_llll
                (fun _ => raise OSError) 1 "data" ["data_A"%string] = raise e')
  /\ (exists e', get_data_from_files 10 1 "Input/4lep/" samples_small infos_llll
                   (fun _ => raise OSError) 1 = raise e')
  /\ (forall data, get_data_from_files 10 1 "Input/4lep/" samples_small
                     infos_llll (fun _ => raise OSError) 1 <> ret data).
Proof.
  destruct (failed_sample_aborts_category 10 1 "Input/4lep/" infos_llll
              (fun _ => raise OSError) 1%nat samples_small)
    as (_ & _ & _ & H & _).
  apply (H "data"%string ["data_A"%string] "data_A"%string OSError).
  - left. reflexivity.
  - left. reflexivity.
  - reflexivity.
Defined.

(** ** Which samples get a weight *)

Lemma apply_cuts_field (data out : Array) :
  apply_cuts data = ret out ->
  (totalWeight out = None <-> totalWeight data = None).
Proof.
  unfold apply_cuts. intros H.
  apply bind_inv in H as [m1 [_ H]]. cbv zeta in H.
  apply bind_inv in H as [m2 [_ H]]. inversion H; subst. simpl.
  destruct (totalWeight data); simpl; split; intros; congruence.
Qed.

Lemma process_batch_field (sample : string) (xsec_weight : option R)
    (evs : list Event) (out : Array) :
  process_batch sample xsec_weight (fresh evs) = ret out ->
  (totalWeight out = None <-> str_contains "data" sample = true).
Proof.
  unfold process_batch. intros H.
  apply bind_inv in H as [d1 [Hd1 H]].
  apply bind_inv in H as [d2 [Hd2 H]].
  apply bind_inv in H as [m [_ H]].
  inversion H; subst. simpl. rewrite (apply_cuts_field d1 d2 Hd2).
  destruct (str_contains "data" sample); simpl in Hd1.
  - inversion Hd1; subst. simpl. tauto.
  - destruct xsec_weight; inversion Hd1; subst. simpl.
    split; intros; discriminate.
Qed.

Lemma iterate_fresh (entry_step : nat) (tree : list Event) (entry_stop : R) :
  Forall (fun b => exists evs, b = fresh evs) (iterate entry_step tree entry_stop).
Proof.
  unfold iterate. cbv zeta. apply Forall_map, Forall_forall.
  intros k _. eexists. reflexivity.
Qed.

Lemma concat_columns_none (cols : list (option (list R))) :
  cols <> [] -> Forall (fun c => c = None) cols -> concat_columns cols = None.
Proof.
  intros Hne H. destruct H as [|c cols Hc _]; [contradiction|].
  subst c. reflexivity.
Qed.

Lemma concat_columns_some (cols : list (option (list R))) :
  Forall (fun c => c <> None) cols -> concat_columns cols <> None.
Proof.
  induction 1 as [|c cols Hc _ IH]; simpl; [discriminate|].
  destruct c as [l|]; [|contradiction].
  destruct (concat_columns cols); [discriminate|contradiction].
Qed.

Lemma ak_concatenate_field (arrays : list Array) (out : Array) (is_data : bool) :
  ak_concatenate arrays = ret out ->
  Forall (fun a => totalWeight a = None <-> is_data = true) arrays ->
  (totalWeight out = None <-> is_data = true).
Proof.
  intros Hcat Hall.
  assert (Hne : map totalWeight arrays <> []).
  { destruct arrays; [discriminate Hcat|discriminate]. }
  assert (Hout : totalWeight out = concat_columns (map totalWeight arrays)).
  { destruct arrays; [discriminate Hcat|]. inversion Hcat. reflexivity. }
  rewrite Hout. destruct is_data.
  - rewrite concat_columns_none; [tauto|exact Hne|].
    apply Forall_map. eapply Forall_impl; [|exact Hall].
    intros a Ha. apply Ha. reflexivity.
  - split; [|discriminate]. intros Hnone. exfalso.
    apply (concat_columns_some (map totalWeight arrays)); [|exact Hnone].
    apply Forall_map. eapply Forall_impl; [|exact Hall].
    intros a Ha Hn. apply Ha in Hn. discriminate.
Qed.

Lemma regularize_exact (n : nat) : regularize_entry_stop n (INR n) = n.
Proof.
  pose proof (pos_INR n). rewrite regularize_in_range by lra.
  rewrite INR_IZR_INZ, ZfloorZ. apply Nat2Z.id.
Qed.

Lemma entries_read_whole (tree : list Event) :
  (Z.of_nat (length tree) < 2 ^ 53)%Z -> entries_read 1 tree = length tree.
Proof.
  intros Hn. unfold entries_read.
  rewrite float_product_whole by exact Hn. apply regularize_exact.
Qed.

Lemma iterate_single (e : Event) :
  iterate 1 [e] (float_mul (float_of_nat 1) 1) = [fresh [e]].
Proof.
  rewrite float_product_whole by (simpl; lia).
  unfold iterate. cbv zeta. change (length [e]) with 1%nat.
  rewrite regularize_exact. reflexivity.
Qed.

Section Reader.

Variable lumi : R.
Variable fraction : R.
Variable tuple_path : string.
Variable infos : dict Info.
Variable uproot_open : string -> result (list Event).
Variable entry_step : nat.

Local Abbreviation read_file' :=
  (read_file lumi fraction infos uproot_open entry_step).
Local Abbreviation read_one' :=
  (read_one lumi fraction tuple_path infos uproot_open entry_step).

Lemma read_file_field (path sample : string) (out : Array) :
  read_file' path sample = ret out ->
  (totalWeight out = None <-> str_contains "data" sample = true).
Proof.
  unfold read_file. intros H.
  apply bind_inv in H as [tree [_ H]]. cbv zeta in H.
  apply bind_inv in H as [xw [_ H]].
  apply bind_inv in H as [data_all [Hall Hcat]].
  apply (ak_concatenate_field data_all out _ Hcat).
  apply mapM_inv in Hall.
  eapply Forall2_Forall_r; [exact Hall|].
  intros b a Hin Hb. cbv beta in Hb.
  pose proof (iterate_fresh entry_step tree
                (float_mul (float_of_nat (length tree)) fraction)) as Hf.
  rewrite Forall_forall in Hf. destruct (Hf b Hin) as [evs ->].
  apply (process_batch_field sample xw evs a Hb).
Qed.

Lemma read_file_data_independent (path sample : string) (lumi2 : R)
    (infos2 : dict Info) :
  str_contains "data" sample = true ->
  read_file lumi2 fraction infos2 uproot_open entry_step path sample
  = read_file' path sample.
Proof. intros H. unfold read_file. rewrite H. reflexivity. Qed.

Lemma read_file_needs_xsec (path sample : string) (out : Array) :
  str_contains "data" sample = false ->
  read_file' path sample = ret out ->
  exists xw, get_xsec_weight lumi infos sample = ret xw.
Proof.
  intros Hmc. unfold read_file. rewrite Hmc. intros H.
  apply bind_inv in H as [tree [_ H]]. cbv zeta in H.
  apply bind_inv in H as [xw [Hxw _]]. simpl in Hxw.
  apply bind_inv in Hxw as [w [Hw _]]. exists w. exact Hw.
Qed.

Lemma file_prefix_data (val : string) :
  file_prefix infos "data" val = ret "Data/"%string.
Proof. reflexivity. Qed.

Lemma file_prefix_mc (s val : string) (info : Info) :
  s <> "data"%string -> dict_get infos val = ret info ->
  file_prefix infos s val
  = ret ("MC/mc_" ++ str_of_int (DSID info) ++ ".")%string.
Proof.
  intros Hs Hinfo. unfold file_prefix.
  destruct (String.eqb_spec s "data"); [contradiction|].
  rewrite Hinfo. reflexivity.
Qed.

(** C10. [read_file] decides by the substring test ['data' in sample]:
    its result carries a [totalWeight] column exactly when ["data"] does not
    occur in the sample identifier, in which case the cross-section weight
    of the sample has been computed, and otherwise the metadata and the
    luminosity are not consulted.  [get_data_from_files] decides the path
    prefix by the different test [s == 'data'] on the category name.  So a
    sample of a simulated category whose identifier contains ["data"] is
    read from the simulation path and gets no weight. *)
Theorem weight_follows_data_substring :
  (forall sample xsec_weight evs out,
      process_batch sample xsec_weight (fresh evs) = ret out ->
      (totalWeight out <> None <-> str_contains "data" sample = false))
  /\ (forall path sample out,
         read_file' path sample = ret out ->
         (totalWeight out <> None <-> str_contains "data" sample = false))
  /\ (forall path sample out,
         str_contains "data" sample = false ->
         read_file' path sample = ret out ->
         exists xw, get_xsec_weight lumi infos sample = ret xw)
  /\ (forall path sample lumi2 infos2,
         str_contains "data" sample = true ->
         read_file lumi2 fraction infos2 uproot_open entry_step path sample
         = read_file' path sample)
  /\ (forall val, file_prefix infos "data" val = ret "Data/"%string)
  /\ (forall s val info out,
         s <> "data"%string ->
         str_contains "data" val = true ->
         dict_get infos val = ret info ->
         read_one' s val = ret out ->
         read_one' s val
         = read_file' (tuple_path ++ ("MC/mc_" ++ str_of_int (DSID info) ++ ".")
                                  ++ val ++ ".4lep.root")%string val
         /\ totalWeight out = None).
Proof.
  split; [|split; [|split; [|split; [|split]]]].
  - intros sample xsw evs out H.
    rewrite (process_batch_field sample xsw evs out H).
    destruct (str_contains "data" sample); split; intros; congruence.
  - intros path sample out H. rewrite (read_file_field path sample out H).
    destruct (str_contains "data" sample); split; intros; congruence.
  - exact read_file_needs_xsec.
  - intros path sample lumi2 infos2. apply read_file_data_independent.
  - exact file_prefix_data.
  - intros s val info out Hs Hval Hinfo Hread.
    assert (Hone : read_one' s val
              = read_file' (tuple_path
                              ++ ("MC/mc_" ++ str_of_int (DSID info) ++ ".")
                              ++ val ++ ".4lep.root")%string val).
    { unfold read_one. rewrite (file_prefix_mc s val info Hs Hinfo).
      reflexivity. }
    split; [exact Hone|]. rewrite Hone in Hread.
    apply (read_file_field _ _ _ Hread). exact Hval.
Qed.

End Reader.

Lemma read_one_fake :
  read_one 10 1 "Input/4lep/" infos_fake one_event_storage 1
           "Background" "fakedata_llll"
  = ret {| rows := [ev_2e2mu]; totalWeight := None;
           mllll := Some [mllll_event ev_2e2mu] |}.
Proof.
  unfold read_one, read_file, one_event_storage.
  change (file_prefix infos_fake "Background" "fakedata_llll")
    with (@ret string "MC/mc_363490."%string).
  rewrite !bind_ret. cbv zeta.
  change (str_contains "data" "fakedata_llll") with true.
  cbn [negb]. rewrite bind_ret. change (length [ev_2e2mu]) with 1%nat.
  rewrite iterate_single. cbn [mapM].
  rewrite process_batch_ok by (repeat constructor). reflexivity.
Qed.

Lemma weight_follows_data_substring_witness :
  read_one 10 1 "Input/4lep/" infos_fake one_event_storage 1
           "Background" "fakedata_llll"
  = read_file 10 1 infos_fake one_event_storage 1
      "Input/4lep/MC/mc_363490.fakedata_llll.4lep.root" "fakedata_llll"
  /\ totalWeight {| rows := [ev_2e2mu]; totalWeight := None;
                    mllll := Some [mllll_event ev_2e2mu] |} = None.
Proof.
  destruct (weight_follows_data_substring 10 1 "Input/4lep/" infos_fake
              one_event_storage 1%nat) as (_ & _ & _ & _ & _ & H).
  apply (H "Background"%string "fakedata_llll"%string
           {| DSID := 363490; events := 17825300; red_eff := 1;
              sumw := 4; xsec := 2 |}).
  - discriminate.
  - reflexivity.
  - reflexivity.
  - exact read_one_fake.
Defined.

(** * Further properties of the pipeline *)

(** ** The rejection masks *)

Lemma cut_lep_charge_cols (col : list (list Z)) :
  Forall (fun q => (4 <= length q)%nat) col ->
  cut_lep_charge col = ret (map (fun q => negb (sum_first4 q =? 0)%Z) col).
Proof.
  intros H. rewrite <- (map_id col). unfold cut_lep_charge.
  rewrite !(index_cols_ok 0%Z (fun q => q)) by (lia || exact H).
  rewrite !bind_ret, (col_sum4 (fun q => q)), !map_map. reflexivity.
Qed.

Lemma cut_lep_type_cols (col : list (list Z)) :
  Forall (fun q => (4 <= length q)%nat) col ->
  cut_lep_type col
  = ret (map (fun q => negb (sum_first4 q =? 44)%Z
                       && negb (sum_first4 q =? 48)%Z
                       && negb (sum_first4 q =? 52)%Z) col).
Proof.
  intros H. rewrite <- (map_id col). unfold cut_lep_type.
  rewrite !(index_cols_ok 0%Z (fun q => q)) by (lia || exact H).
  rewrite !bind_ret. cbv zeta.
  rewrite (col_sum4 (fun q => q)), !map_map. reflexivity.
Qed.

Lemma cut_lep_type_short_cols (col : list (list Z)) :
  Exists (fun q => (length q < 4)%nat) col ->
  cut_lep_type col = raise IndexError.
Proof.
  intros Hex. unfold cut_lep_type.
  assert (H3 : getitem_col col 3 = raise IndexError).
  { apply getitem_col_short. eapply Exists_impl; [|exact Hex].
    simpl. intros; lia. }
  apply bind_IndexError; [apply getitem_col_error|intros c0].
  apply bind_IndexError; [apply getitem_col_error|intros c1].
  apply bind_IndexError; [apply getitem_col_error|intros c2].
  rewrite H3. reflexivity.
Qed.

Lemma cut_lep_charge_short_cols (col : list (list Z)) :
  Exists (fun q => (length q < 4)%nat) col ->
  cut_lep_charge col = raise IndexError.
Proof.
  intros Hex. unfold cut_lep_charge.
  assert (H3 : getitem_col col 3 = raise IndexError).
  { apply getitem_col_short. eapply Exists_impl; [|exact Hex].
    simpl. intros; lia. }
  apply bind_IndexError; [apply getitem_col_error|intros c0].
  apply bind_IndexError; [apply getitem_col_error|intros c1].
  apply bind_IndexError; [apply getitem_col_error|intros c2].
  rewrite H3. reflexivity.
Qed.

Lemma Forall_or_Exists_short (col : list (list Z)) :
  Forall (fun q => (4 <= length q)%nat) col
  \/ Exists (fun q => (length q < 4)%nat) col.
Proof.
  induction col as [|q col [IH|IH]].
  - left. constructor.
  - destruct (le_lt_dec 4 (length q)) as [Hq|Hq].
    + left. constructor; assumption.
    + right. constructor. exact Hq.
  - right. apply Exists_cons_tl. exact IH.
Qed.

(** X1. Each cut returns a rejection mask with one entry per event when
    every event has at least four entries in the column, and raises
    [IndexError] as soon as one event has fewer, whatever the other events
    hold: the masks never silently treat a missing lepton as zero. *)
Theorem cut_masks_outcome (col : list (list Z)) :
  (cut_lep_charge col = raise IndexError
   <-> Exists (fun q => (length q < 4)%nat) col)
  /\ (cut_lep_type col = raise IndexError
      <-> Exists (fun q => (length q < 4)%nat) col)
  /\ (Forall (fun q => (4 <= length q)%nat) col ->
      exists mc mt,
        cut_lep_charge col = ret mc /\ cut_lep_type col = ret mt /\
        length mc = length col /\ length mt = length col).
Proof.
  split; [|split].
  - split; [|apply cut_lep_charge_short_cols].
    intros Hraise. destruct (Forall_or_Exists_short col) as [H|H]; [|exact H].
    rewrite cut_lep_charge_cols in Hraise by exact H. discriminate.
  - split; [|apply cut_lep_type_short_cols].
    intros Hraise. destruct (Forall_or_Exists_short col) as [H|H]; [|exact H].
    rewrite cut_lep_type_cols in Hraise by exact H. discriminate.
  - intros H. do 2 eexists.
    split; [apply cut_lep_charge_cols, H|].
    split; [apply cut_lep_type_cols, H|].
    rewrite !length_map. split; reflexivity.
Qed.

Lemma cut_masks_outcome_witness :
  exists mc mt,
    cut_lep_charge [[1; -1; 1; -1]; [1; 1; 1; -1; 1]]%Z = ret mc /\
    cut_lep_type [[1; -1; 1; -1]; [1; 1; 1; -1; 1]]%Z = ret mt /\
    length mc = 2%nat /\ length mt = 2%nat.
Proof.
  destruct (cut_masks_outcome [[1; -1; 1; -1]; [1; 1; 1; -1; 1]]%Z)
    as (_ & _ & H).
  apply H. repeat constructor.
Defined.

(** ** The selection as an operation on batches *)

Lemma getitem_mask_all_true {A} (c : list A) (mask : list bool) :
  Forall (fun b => b = true) mask -> (length c <= length mask)%nat ->
  getitem_mask c mask = c.
Proof.
  intros H. revert c. induction H as [|b mask Hb _ IH]; intros [|a c] Hlen;
    simpl in *; try reflexivity; try lia.
  subst b. rewrite IH by lia. reflexivity.
Qed.

Lemma length_getitem_mask_le {A X} (f : X -> bool) (l : list X) (c : list A) :
  (length (getitem_mask c (map f l)) <= length (filter f l))%nat.
Proof.
  revert c. induction l as [|x l IH]; intros [|a c]; simpl; try lia.
  destruct (f x); simpl; [specialize (IH c); lia|apply IH].
Qed.

Lemma filter_all_true {A} (f : A -> bool) (l : list A) :
  Forall (fun b => b = true) (map f (filter f l)).
Proof.
  apply Forall_map, Forall_forall. intros a Ha. apply filter_In in Ha. apply Ha.
Qed.

Lemma filter_length_le {A} (f : A -> bool) (l : list A) :
  (length (filter f l) <= length l)%nat.
Proof. induction l as [|a l IH]; simpl; [|destruct (f a); simpl]; lia. Qed.

Lemma Array_getitem_mask_selected_twice (data : Array) :
  let out := Array_getitem_mask data (map selected (rows data)) in
  Array_getitem_mask out (map selected (rows out)) = out.
Proof.
  destruct data as [r tw m]. cbv zeta. unfold Array_getitem_mask.
  cbn [rows totalWeight mllll]. rewrite !getitem_mask_filter.
  assert (Hcol : forall c : list R,
            getitem_mask (getitem_mask c (map selected r))
                         (map selected (filter selected r))
            = getitem_mask c (map selected r)).
  { intros c. apply getitem_mask_all_true; [apply filter_all_true|].
    rewrite length_map. apply length_getitem_mask_le. }
  f_equal.
  - rewrite filter_filter. apply filter_ext. intros e. apply andb_diag.
  - destruct tw; simpl; [rewrite Hcol|]; reflexivity.
  - destruct m; simpl; [rewrite Hcol|]; reflexivity.
Qed.

(** X2. The selection is idempotent: on a batch whose events have at least
    four leptons, applying the two cuts to their own result changes
    nothing.  Every surviving event passes both conditions and the result
    is never longer than the input. *)
Theorem apply_cuts_idempotent (data : Array) :
  Forall four_codes (rows data) ->
  exists out,
    apply_cuts data = ret out /\
    apply_cuts out = ret out /\
    Forall (fun e => selected e = true) (rows out) /\
    (len out <= len data)%nat.
Proof.
  intros H. exists (Array_getitem_mask data (map selected (rows data))).
  split; [apply apply_cuts_ok, H|].
  assert (Hrows : rows (Array_getitem_mask data (map selected (rows data)))
                  = filter selected (rows data)).
  { simpl. apply getitem_mask_filter. }
  split; [|split].
  - rewrite apply_cuts_ok by (rewrite Hrows; apply Forall_filter, H).
    f_equal. apply Array_getitem_mask_selected_twice.
  - rewrite Hrows. apply Forall_forall. intros e He.
    apply filter_In in He. apply He.
  - unfold len. rewrite Hrows. apply filter_length_le.
Qed.

Lemma apply_cuts_idempotent_witness :
  exists out,
    apply_cuts (fresh [ev_charge2; ev_2e2mu]) = ret out /\
    apply_cuts out = ret out /\
    Forall (fun e => selected e = true) (rows out) /\
    (len out <= 2)%nat.
Proof.
  apply (apply_cuts_idempotent (fresh [ev_charge2; ev_2e2mu])).
  repeat constructor.
Defined.

Lemma sum_first4_firstn (l : list Z) : sum_first4 (firstn 4 l) = sum_first4 l.
Proof. unfold sum_first4. rewrite !nth_firstn. reflexivity. Qed.

Lemma selected_first_four (e e' : Event) :
  firstn 4 (lep_charge e) = firstn 4 (lep_charge e') ->
  firstn 4 (lep_type e) = firstn 4 (lep_type e') ->
  selected e = selected e'.
Proof.
  intros Hc Ht. unfold selected.
  rewrite <- (sum_first4_firstn (lep_charge e)), Hc, sum_first4_firstn.
  rewrite <- (sum_first4_firstn (lep_type e)), Ht, sum_first4_firstn.
  reflexivity.
Qed.

(** X3. The selection looks at the first four leptons only: two events
    that agree on the charges and type codes of their first four leptons
    are both kept or both rejected, whatever further leptons, momenta or
    weights they carry. *)
Theorem selection_first_four_only (e e' : Event) :
  four_codes e -> four_codes e' ->
  firstn 4 (lep_charge e) = firstn 4 (lep_charge e') ->
  firstn 4 (lep_type e) = firstn 4 (lep_type e') ->
  exists keep : bool,
    apply_cuts (fresh [e]) = ret (fresh (if keep then [e] else [])) /\
    apply_cuts (fresh [e']) = ret (fresh (if keep then [e'] else [])).
Proof.
  intros H H' Hc Ht. exists (selected e).
  rewrite !apply_cuts_ok by (constructor; [assumption|constructor]).
  unfold Array_getitem_mask, fresh. simpl.
  rewrite <- (selected_first_four e e' Hc Ht).
  destruct (selected e); split; reflexivity.
Qed.

Lemma selection_first_four_only_witness :
  exists keep : bool,
    apply_cuts (fresh [ev_2e2mu])
    = ret (fresh (if keep then [ev_2e2mu] else [])) /\
    apply_cuts (fresh [ev_6lep])
    = ret (fresh (if keep then [ev_6lep] else [])).
Proof.
  apply (selection_first_four_only ev_2e2mu ev_6lep).
  - repeat constructor.
  - split; simpl; lia.
  - reflexivity.
  - reflexivity.
Defined.

(** ** Symmetries of the invariant mass *)

Lemma mllll_event_mass_squared (e : Event) :
  (4 <= length (leptons e))%nat ->
  mllll_event e = signed_root (mass_squared (firstn 4 (leptons e))) * MeV.
Proof.
  unfold mllll_event, lepton.
  destruct (leptons e) as [|a [|b [|c [|d rest]]]]; simpl length; try lia.
  intros _. simpl firstn. simpl nth. unfold vec_M, signed_root.
  rewrite tau2_first4. reflexivity.
Qed.

Lemma calc_mllll_same_mass_squared (evs evs' : list Event) :
  Forall four_momenta evs -> Forall four_momenta evs' ->
  Forall2 (fun e e' => mass_squared (firstn 4 (leptons e'))
                       = mass_squared (firstn 4 (leptons e))) evs evs' ->
  calc_mllll (map lep_pt evs') (map lep_eta evs') (map lep_phi evs')
             (map lep_E evs')
  = calc_mllll (map lep_pt evs) (map lep_eta evs) (map lep_phi evs)
               (map lep_E evs).
Proof.
  intros H H' Hm. rewrite !calc_mllll_ok by assumption. f_equal.
  induction Hm as [|e e' evs evs' He _ IH]; [reflexivity|].
  inversion H; inversion H'; subst. simpl. f_equal; [|apply IH; assumption].
  rewrite !mllll_event_mass_squared by (apply four_momenta_leptons; assumption).
  rewrite He. reflexivity.
Qed.

Lemma zip_p4_shift (delta : R) (pt eta phi E : list R) :
  zip_p4 pt eta (map (fun x => x + delta) phi) E
  = map (rotate_lepton delta) (zip_p4 pt eta phi E).
Proof.
  unfold zip_p4. revert eta phi E.
  induction pt as [|a pt IH]; intros [|b eta] [|c phi] [|d E];
    simpl; try reflexivity.
  f_equal. apply IH.
Qed.

Lemma zip_p4_scale (k : R) (pt eta phi E : list R) :
  zip_p4 (map (fun x => k * x) pt) eta phi (map (fun x => k * x) E)
  = map (scale_lepton k) (zip_p4 pt eta phi E).
Proof.
  unfold zip_p4. revert eta phi E.
  induction pt as [|a pt IH]; intros [|b eta] [|c phi] [|d E];
    simpl; try reflexivity.
  f_equal. apply IH.
Qed.

Lemma total_cons (f : Momentum4D -> R) (p : Momentum4D) (ps : list Momentum4D) :
  total f (p :: ps) = f p + total f ps.
Proof. reflexivity. Qed.

Lemma totals_rotate (delta : R) (ps : list Momentum4D) :
  total px (map (rotate_lepton delta) ps)
  = total px ps * cos delta - total py ps * sin delta
  /\ total py (map (rotate_lepton delta) ps)
     = total py ps * cos delta + total px ps * sin delta
  /\ total pz (map (rotate_lepton delta) ps) = total pz ps
  /\ total p_E (map (rotate_lepton delta) ps) = total p_E ps.
Proof.
  induction ps as [|p ps (IHx & IHy & IHz & IHe)].
  - unfold total. simpl. repeat split; ring.
  - cbn [map]. rewrite !total_cons, IHx, IHy, IHz, IHe.
    unfold px, py, pz, rotate_lepton. cbn [p_pt p_eta p_phi p_E].
    rewrite cos_plus, sin_plus. repeat split; ring.
Qed.

Lemma mass_squared_rotate (delta : R) (ps : list Momentum4D) :
  mass_squared (map (rotate_lepton delta) ps) = mass_squared ps.
Proof.
  unfold mass_squared.
  destruct (totals_rotate delta ps) as (-> & -> & -> & ->).
  pose proof (sin2_cos2 delta) as H. unfold Rsqr in *.
  set (X := total px ps) in *. set (Y := total py ps) in *.
  set (s := sin delta) in *. set (c := cos delta) in *.
  replace ((X * c - Y * s) * (X * c - Y * s) + (Y * c + X * s) * (Y * c + X * s))
    with ((X * X + Y * Y) * (s * s + c * c)) by ring.
  rewrite H. ring.
Qed.

Lemma totals_scale (k : R) (f : Momentum4D -> R) (ps : list Momentum4D) :
  (forall p, f (scale_lepton k p) = k * f p) ->
  total f (map (scale_lepton k) ps) = k * total f ps.
Proof.
  intros Hf. induction ps as [|p ps IH].
  - unfold total. simpl. ring.
  - cbn [map]. rewrite !total_cons, IH, Hf. ring.
Qed.

Lemma mass_squared_scale (k : R) (ps : list Momentum4D) :
  mass_squared (map (scale_lepton k) ps) = k * k * mass_squared ps.
Proof.
  unfold mass_squared, Rsqr.
  rewrite !(totals_scale k) by
    (intros p; unfold px, py, pz, scale_lepton; cbn [p_pt p_eta p_phi p_E]; ring).
  ring.
Qed.

Lemma signed_root_scale (k m2 : R) :
  0 <= k -> signed_root (k * k * m2) = k * signed_root m2.
Proof.
  intros Hk. unfold signed_root, copysign.
  assert (Hsq : sqrt (Rabs (k * k * m2)) = k * sqrt (Rabs m2)).
  { rewrite Rabs_mult, (Rabs_pos_eq (k * k)) by nra.
    rewrite sqrt_mult by (try apply Rabs_pos; nra).
    rewrite sqrt_square by exact Hk. reflexivity. }
  rewrite Hsq.
  assert (Habs : Rabs (k * sqrt (Rabs m2)) = k * Rabs (sqrt (Rabs m2))).
  { rewrite Rabs_mult, (Rabs_pos_eq k) by exact Hk. reflexivity. }
  rewrite Habs.
  destruct (Rlt_dec (k * k * m2) 0) as [H1|H1], (Rlt_dec m2 0) as [H2|H2];
    try ring.
  - exfalso. assert (0 <= k * k) by nra. nra.
  - destruct (Req_dec k 0) as [->|Hk0]; [ring|].
    exfalso. assert (0 < k * k) by nra. nra.
Qed.

Lemma total_Permutation (f : Momentum4D -> R) (ps ps' : list Momentum4D) :
  Permutation ps ps' -> total f ps = total f ps'.
Proof.
  unfold total. induction 1; simpl.
  - reflexivity.
  - congruence.
  - ring.
  - congruence.
Qed.

Lemma mass_squared_Permutation (ps ps' : list Momentum4D) :
  Permutation ps ps' -> mass_squared ps = mass_squared ps'.
Proof.
  intros H. unfold mass_squared.
  rewrite (total_Permutation p_E ps ps' H), (total_Permutation px ps ps' H),
    (total_Permutation py ps ps' H), (total_Permutation pz ps ps' H).
  reflexivity.
Qed.

Lemma four_momenta_shift (delta : R) (e : Event) :
  four_momenta e -> four_momenta (shift_phi delta e).
Proof.
  unfold four_momenta, aligned, shift_phi. simpl. rewrite length_map. tauto.
Qed.

Lemma four_momenta_scale (k : R) (e : Event) :
  four_momenta e -> four_momenta (scale_momenta k e).
Proof.
  unfold four_momenta, aligned, scale_momenta. simpl. rewrite !length_map. tauto.
Qed.

Lemma Forall2_map_r {A B} (R : A -> B -> Prop) (g : A -> B) (l : list A) :
  (forall a, In a l -> R a (g a)) -> Forall2 R l (map g l).
Proof.
  induction l as [|a l IH]; intros H; simpl; constructor.
  - apply H. left. reflexivity.
  - apply IH. intros a' Ha. apply H. right. exact Ha.
Qed.

(** X4. The invariant mass does not depend on the orientation of the
    detector frame about the beam axis: adding one angle [delta] to the
    azimuthal angle of every lepton of every event leaves the masses that
    [calc_mllll] returns unchanged. *)
Theorem calc_mllll_rotation_invariant (delta : R) (evs : list Event) :
  Forall four_momenta evs ->
  calc_mllll (map lep_pt evs) (map lep_eta evs)
             (map (fun e => map (fun phi => phi + delta) (lep_phi e)) evs)
             (map lep_E evs)
  = calc_mllll (map lep_pt evs) (map lep_eta evs) (map lep_phi evs)
               (map lep_E evs).
Proof.
  intros H.
  pose proof (calc_mllll_same_mass_squared evs (map (shift_phi delta) evs) H)
    as Hsame.
  rewrite !map_map in Hsame. cbn [shift_phi lep_pt lep_eta lep_phi lep_E] in Hsame.
  apply Hsame.
  - apply Forall_map. eapply Forall_impl; [|exact H].
    apply four_momenta_shift.
  - apply Forall2_map_r. intros e _. unfold leptons, shift_phi.
    cbn [lep_pt lep_eta lep_phi lep_E].
    rewrite zip_p4_shift, firstn_map. apply mass_squared_rotate.
Qed.

Lemma calc_mllll_rotation_invariant_witness :
  calc_mllll (map lep_pt [ev_6lep]) (map lep_eta [ev_6lep])
             (map (fun e => map (fun phi => phi + 1) (lep_phi e)) [ev_6lep])
             (map lep_E [ev_6lep])
  = calc_mllll (map lep_pt [ev_6lep]) (map lep_eta [ev_6lep])
               (map lep_phi [ev_6lep]) (map lep_E [ev_6lep]).
Proof.
  apply (calc_mllll_rotation_invariant 1 [ev_6lep]).
  repeat constructor.
Defined.

(** X5. The invariant mass is homogeneous in the energy unit: multiplying
    every transverse momentum and energy by a factor [k >= 0] multiplies
    every mass that [calc_mllll] returns by [k]. *)
Theorem calc_mllll_homogeneous (k : R) (evs : list Event) :
  0 <= k ->
  Forall four_momenta evs ->
  exists ms,
    calc_mllll (map lep_pt evs) (map lep_eta evs) (map lep_phi evs)
               (map lep_E evs) = ret ms /\
    calc_mllll (map (fun e => map (fun pt => k * pt) (lep_pt e)) evs)
               (map lep_eta evs) (map lep_phi evs)
               (map (fun e => map (fun E => k * E) (lep_E e)) evs)
    = ret (map (fun m => k * m) ms).
Proof.
  intros Hk H. exists (map mllll_event evs).
  split; [apply calc_mllll_ok, H|].
  pose proof (calc_mllll_ok (map (scale_momenta k) evs)) as Hs.
  rewrite !map_map in Hs. cbn [scale_momenta lep_pt lep_eta lep_phi lep_E] in Hs.
  assert (Hs' : calc_mllll
                  (map (fun e => map (fun pt => k * pt) (lep_pt e)) evs)
                  (map lep_eta evs) (map lep_phi evs)
                  (map (fun e => map (fun E => k * E) (lep_E e)) evs)
                = ret (map (fun x => mllll_event (scale_momenta k x)) evs)).
  { apply Hs. apply Forall_map. eapply Forall_impl; [|exact H].
    apply four_momenta_scale. }
  rewrite Hs', map_map.
  f_equal. apply map_ext_in. intros e He. rewrite Forall_forall in H.
  rewrite !mllll_event_mass_squared
    by (apply four_momenta_leptons; try apply four_momenta_scale; apply H, He).
  unfold leptons at 1, scale_momenta. cbn [lep_pt lep_eta lep_phi lep_E].
  rewrite zip_p4_scale, firstn_map, mass_squared_scale.
  fold (leptons e). rewrite signed_root_scale by exact Hk. ring.
Qed.

Lemma calc_mllll_homogeneous_witness :
  exists ms,
    calc_mllll (map lep_pt [ev_6lep]) (map lep_eta [ev_6lep])
               (map lep_phi [ev_6lep]) (map lep_E [ev_6lep]) = ret ms /\
    calc_mllll (map (fun e => map (fun pt => 1000 * pt) (lep_pt e)) [ev_6lep])
               (map lep_eta [ev_6lep]) (map lep_phi [ev_6lep])
               (map (fun e => map (fun E => 1000 * E) (lep_E e)) [ev_6lep])
    = ret (map (fun m => 1000 * m) ms).
Proof.
  apply (calc_mllll_homogeneous 1000 [ev_6lep]).
  - lra.
  - repeat constructor.
Defined.

(** X6. Among the first four leptons the stored order does not matter:
    two batches whose events have the same first four leptons up to order
    get the same masses from [calc_mllll]. *)
Theorem calc_mllll_first_four_symmetric (evs evs' : list Event) :
  Forall four_momenta evs ->
  Forall four_momenta evs' ->
  Forall2 (fun e e' => Permutation (firstn 4 (leptons e))
                                   (firstn 4 (leptons e'))) evs evs' ->
  calc_mllll (map lep_pt evs') (map lep_eta evs') (map lep_phi evs')
             (map lep_E evs')
  = calc_mllll (map lep_pt evs) (map lep_eta evs) (map lep_phi evs)
               (map lep_E evs).
Proof.
  intros H H' Hperm. apply calc_mllll_same_mass_squared; try assumption.
  eapply Forall2_impl; [|exact Hperm]. intros e e' Hp. cbv beta in Hp.
  symmetry. apply mass_squared_Permutation, Hp.
Qed.

Lemma calc_mllll_first_four_symmetric_witness :
  calc_mllll (map lep_pt [ev_energies_reordered])
             (map lep_eta [ev_energies_reordered])
             (map lep_phi [ev_energies_reordered])
             (map lep_E [ev_energies_reordered])
  = calc_mllll (map lep_pt [ev_energies]) (map lep_eta [ev_energies])
               (map lep_phi [ev_energies]) (map lep_E [ev_energies]).
Proof.
  apply (calc_mllll_first_four_symmetric [ev_energies] [ev_energies_reordered]).
  - repeat constructor.
  - repeat constructor.
  - constructor; [|constructor]. simpl. apply perm_swap.
Defined.

(** ** Momentum sequences of different lengths *)

Lemma zip4M_map {X A B C D Y} (f : A -> B -> C -> D -> result Y)
    (g1 : X -> A) (g2 : X -> B) (g3 : X -> C) (g4 : X -> D) (l : list X) :
  zip4M f (map g1 l) (map g2 l) (map g3 l) (map g4 l)
  = mapM (fun x => f (g1 x) (g2 x) (g3 x) (g4 x)) l.
Proof.
  induction l as [|x l IH]; [reflexivity|].
  cbn [map zip4M mapM]. rewrite IH. reflexivity.
Qed.

Lemma zip_leptons_outcome (pt eta phi E : list R) :
  zip4M (fun a b c d => ret (mkMomentum4D a b c d)) pt eta phi E
  = if (length eta =? length pt)%nat && (length phi =? length pt)%nat
       && (length E =? length pt)%nat
    then ret (zip_p4 pt eta phi E) else raise ValueError.
Proof.
  unfold zip_p4. revert eta phi E.
  induction pt as [|a pt IH]; intros [|b eta] [|c phi] [|d E];
    try reflexivity;
    try (cbn [length Nat.eqb andb]; rewrite ?andb_false_r; reflexivity).
  simpl. rewrite IH.
  destruct ((length eta =? length pt)%nat && (length phi =? length pt)%nat
            && (length E =? length pt)%nat); reflexivity.
Qed.

Lemma not_aligned_lengths (e : Event) :
  ~ aligned e ->
  (length (lep_eta e) =? length (lep_pt e))%nat
  && (length (lep_phi e) =? length (lep_pt e))%nat
  && (length (lep_E e) =? length (lep_pt e))%nat = false.
Proof.
  intros H. unfold aligned in H.
  destruct (Nat.eqb_spec (length (lep_eta e)) (length (lep_pt e))),
    (Nat.eqb_spec (length (lep_phi e)) (length (lep_pt e))),
    (Nat.eqb_spec (length (lep_E e)) (length (lep_pt e)));
    try reflexivity. exfalso. apply H. repeat split; assumption.
Qed.

(** X7. When the momentum sequences of some event of a batch differ in
    length, [calc_mllll] raises [ValueError] for the whole batch: the
    four-vectors cannot be zipped, and this is found before any lepton is
    indexed, also when another event has fewer than four leptons. *)
Theorem calc_mllll_misaligned (evs : list Event) :
  Exists (fun e => ~ aligned e) evs ->
  calc_mllll (map lep_pt evs) (map lep_eta evs) (map lep_phi evs)
             (map lep_E evs) = raise ValueError.
Proof.
  intros Hex. unfold calc_mllll, vector_zip. rewrite zip4M_map.
  rewrite (mapM_raises _ ValueError); [reflexivity| |].
  - intros e _. rewrite zip_leptons_outcome.
    destruct ((length (lep_eta e) =? length (lep_pt e))%nat
              && (length (lep_phi e) =? length (lep_pt e))%nat
              && (length (lep_E e) =? length (lep_pt e))%nat);
      [right; eexists|left]; reflexivity.
  - eapply Exists_impl; [|exact Hex]. intros e He. cbv beta.
    rewrite zip_leptons_outcome, (not_aligned_lengths e He). reflexivity.
Qed.

Lemma calc_mllll_misaligned_witness :
  calc_mllll (map lep_pt [ev_3lep; ev_misaligned])
             (map lep_eta [ev_3lep; ev_misaligned])
             (map lep_phi [ev_3lep; ev_misaligned])
             (map lep_E [ev_3lep; ev_misaligned]) = raise ValueError.
Proof.
  apply (calc_mllll_misaligned [ev_3lep; ev_misaligned]).
  apply Exists_cons_tl. constructor.
  unfold aligned. simpl. intros [H _]. discriminate H.
Defined.

(** ** Batches *)

Lemma regularize_whole (n : nat) (fraction : R) :
  1 <= fraction -> regularize_entry_stop n (INR n * fraction) = n.
Proof.
  intros H. pose proof (pos_INR n) as Hn. unfold regularize_entry_stop.
  destruct (Rlt_dec (INR n * fraction) 0) as [Hlt|_]; [nra|].
  rewrite Rmax_right by nra. rewrite Rmin_left by nra.
  rewrite INR_IZR_INZ, ZfloorZ. apply Nat2Z.id.
Qed.

Lemma num_batches_tight (stop entry_step k : nat) :
  (k < num_batches stop entry_step)%nat -> (k * entry_step < stop)%nat.
Proof.
  unfold num_batches. intros Hk.
  destruct entry_step as [|m]; [simpl in Hk; lia|].
  pose proof (Nat.div_mod_eq (stop + S m - 1) (S m)).
  pose proof (Nat.mod_upper_bound (stop + S m - 1) (S m)).
  nia.
Qed.

Lemma num_batches_zero (entry_step : nat) : num_batches 0 entry_step = 0%nat.
Proof.
  unfold num_batches. destruct entry_step as [|m]; [reflexivity|].
  apply Nat.div_small. lia.
Qed.

(** X8. [iterate] never reads beyond the file and never yields an empty or
    an oversized batch: the stop entry is at most the number of entries,
    every batch holds between one and [entry_step] events, and no batch
    carries a derived column yet. *)
Theorem iterate_batches_bounded (entry_step : nat) (tree : list Event)
    (entry_stop : R) :
  (0 < entry_step)%nat ->
  (regularize_entry_stop (length tree) entry_stop <= length tree)%nat
  /\ Forall (fun b => (1 <= len b <= entry_step)%nat /\
                      totalWeight b = None /\ mllll b = None)
            (iterate entry_step tree entry_stop).
Proof.
  intros Hs. split; [apply regularize_le|].
  unfold iterate. cbv zeta. apply Forall_map, Forall_forall.
  intros k Hk. apply in_seq in Hk. destruct Hk as [_ Hk]. simpl in Hk.
  apply num_batches_tight in Hk.
  pose proof (regularize_le (length tree) entry_stop) as Hle.
  unfold len. cbn [rows totalWeight mllll].
  rewrite length_firstn, length_skipn, length_firstn.
  repeat split; lia.
Qed.

Lemma iterate_batches_bounded_witness :
  (regularize_entry_stop (length (repeat ev_2e2mu 100)) 50
   <= length (repeat ev_2e2mu 100))%nat
  /\ Forall (fun b => (1 <= len b <= 30)%nat /\
                      totalWeight b = None /\ mllll b = None)
            (iterate 30 (repeat ev_2e2mu 100) 50).
Proof.
  apply (iterate_batches_bounded 30 (repeat ev_2e2mu 100) 50). lia.
Defined.

Lemma entries_read_all (fraction : R) (tree : list Event) :
  1 <= fraction -> (Z.of_nat (length tree) < 2 ^ 53)%Z ->
  entries_read fraction tree = length tree.
Proof.
  intros Hf Hn. unfold entries_read, regularize_entry_stop.
  rewrite float_of_nat_exact by exact Hn.
  pose proof (pos_INR (length tree)) as Hpos.
  assert (Hp : INR (length tree) <= float_mul (INR (length tree)) fraction).
  { unfold float_mul. rewrite INR_IZR_INZ at 1.
    apply round64_ge_int; [lia|]. rewrite <- INR_IZR_INZ. nra. }
  destruct (Rlt_dec _ 0) as [Hlt|_]; [lra|].
  rewrite Rmax_right by lra. rewrite Rmin_left by exact Hp.
  rewrite INR_IZR_INZ, ZfloorZ. apply Nat2Z.id.
Qed.

(** X9. A throttle of one or more reads the whole file, once: the batches
    of [iterate] for [entry_stop = numevents * fraction] with
    [fraction >= 1] concatenate to the entries of the tree.  This holds
    for the exact product and, for a file of fewer than [2^53] events, for
    the float product that [read_file] passes. *)
Theorem iterate_whole_file (entry_step : nat) (tree : list Event)
    (fraction : R) :
  (0 < entry_step)%nat ->
  1 <= fraction ->
  concat (map rows (iterate entry_step tree (INR (length tree) * fraction)))
  = tree
  /\ ((Z.of_nat (length tree) < 2 ^ 53)%Z ->
      concat (map rows (iterate entry_step tree
                                (float_mul (float_of_nat (length tree))
                                           fraction)))
      = tree).
Proof.
  intros Hs Hf. split.
  - rewrite iterate_rows, regularize_whole by assumption. apply firstn_all.
  - intros Hn. rewrite iterate_rows by exact Hs.
    change (regularize_entry_stop (length tree)
              (float_mul (float_of_nat (length tree)) fraction))
      with (entries_read fraction tree).
    rewrite entries_read_all by assumption. apply firstn_all.
Qed.

Lemma iterate_whole_file_witness :
  concat (map rows (iterate 2 [ev_2e2mu; ev_charge2; ev_6lep]
                            (INR (length [ev_2e2mu; ev_charge2; ev_6lep]) * 1)))
  = [ev_2e2mu; ev_charge2; ev_6lep]
  /\ concat (map rows (iterate 2 [ev_2e2mu; ev_charge2; ev_6lep]
                               (float_mul
                                  (float_of_nat
                                     (length [ev_2e2mu; ev_charge2; ev_6lep]))
                                  1)))
     = [ev_2e2mu; ev_charge2; ev_6lep].
Proof.
  destruct (iterate_whole_file 2 [ev_2e2mu; ev_charge2; ev_6lep] 1)
    as [H1 H2].
  - lia.
  - lra.
  - split; [exact H1|]. apply H2. simpl. lia.
Defined.

(** ** A file read in batches *)

Lemma iterate_chunks (entry_step : nat) (tree : list Event) (entry_stop : R) :
  iterate entry_step tree entry_stop
  = map fresh
        (chunks entry_step
                (firstn (regularize_entry_stop (length tree) entry_stop) tree)
                (num_batches (regularize_entry_stop (length tree) entry_stop)
                             entry_step)).
Proof. unfold iterate, chunks. cbv zeta. rewrite map_map. reflexivity. Qed.

Lemma chunks_cover (entry_step stop : nat) (tree : list Event) :
  (0 < entry_step)%nat ->
  concat (chunks entry_step (firstn stop tree) (num_batches stop entry_step))
  = firstn stop tree.
Proof.
  intros Hs. unfold chunks. apply chunks_concat. rewrite length_firstn.
  pose proof (num_batches_cover stop entry_step Hs). lia.
Qed.

Lemma chunks_nonempty (entry_step stop : nat) (tree : list Event) :
  (0 < entry_step)%nat -> (1 <= stop)%nat ->
  chunks entry_step (firstn stop tree) (num_batches stop entry_step) <> [].
Proof.
  intros Hs Hstop. pose proof (num_batches_cover stop entry_step Hs) as Hc.
  unfold chunks. destruct (num_batches stop entry_step); [lia|discriminate].
Qed.

Lemma concat_columns_present {X} (F : X -> list R) (l : list X) :
  concat_columns (map (fun x => Some (F x)) l) = Some (concat (map F l)).
Proof.
  induction l as [|x l IH]; [reflexivity|]. cbn [map concat_columns concat].
  rewrite IH. reflexivity.
Qed.

Lemma concat_columns_absent {X} (l : list X) :
  l <> [] -> concat_columns (map (fun _ => @None (list R)) l) = None.
Proof. destruct l; [contradiction|reflexivity]. Qed.

Lemma concat_filter {A} (f : A -> bool) (l : list (list A)) :
  concat (map (filter f) l) = filter f (concat l).
Proof.
  induction l as [|c l IH]; [reflexivity|].
  cbn [map concat]. rewrite IH, filter_app. reflexivity.
Qed.

Lemma concat_map_filter {A B} (g : A -> B) (f : A -> bool) (l : list (list A)) :
  concat (map (fun c => map g (filter f c)) l) = map g (filter f (concat l)).
Proof.
  rewrite <- concat_filter, concat_map, map_map. reflexivity.
Qed.

Lemma ak_concatenate_nonempty (arrays : list Array) :
  arrays <> [] ->
  ak_concatenate arrays
  = ret {| rows := concat (map rows arrays);
           totalWeight := concat_columns (map totalWeight arrays);
           mllll := concat_columns (map mllll arrays) |}.
Proof. destruct arrays; [contradiction|reflexivity]. Qed.

Lemma read_batches_data (sample : string) (xsec_weight : option R)
    (cs : list (list Event)) :
  str_contains "data" sample = true ->
  Forall well_formed (concat cs) -> cs <> [] ->
  (data_all <- mapM (process_batch sample xsec_weight) (map fresh cs) ;;
   ak_concatenate data_all)
  = ret {| rows := filter selected (concat cs);
           totalWeight := None;
           mllll := Some (map mllll_event (filter selected (concat cs))) |}.
Proof.
  intros Hd Hwf Hne. apply Forall_concat in Hwf.
  rewrite (mapM_total _ (fun b =>
             {| rows := filter selected (rows b); totalWeight := None;
                mllll := Some (map mllll_event (filter selected (rows b))) |})).
  - rewrite bind_ret, ak_concatenate_nonempty
      by (destruct cs; [contradiction|discriminate]).
    rewrite !map_map. cbn [rows totalWeight mllll fresh].
    rewrite concat_filter, concat_columns_absent by exact Hne.
    rewrite (concat_columns_present
               (fun c => map mllll_event (filter selected c))).
    rewrite concat_map_filter. reflexivity.
  - apply Forall_map. eapply Forall_impl; [|exact Hwf]. intros c Hc.
    rewrite process_batch_ok, Hd by exact Hc. reflexivity.
Qed.

Lemma read_batches_mc (sample : string) (xw : R) (cs : list (list Event)) :
  str_contains "data" sample = false ->
  Forall well_formed (concat cs) -> cs <> [] ->
  (data_all <- mapM (process_batch sample (Some xw)) (map fresh cs) ;;
   ak_concatenate data_all)
  = ret {| rows := filter selected (concat cs);
           totalWeight := Some (calc_weight xw (filter selected (concat cs)));
           mllll := Some (map mllll_event (filter selected (concat cs))) |}.
Proof.
  intros Hd Hwf Hne. apply Forall_concat in Hwf.
  rewrite (mapM_total _ (fun b =>
             {| rows := filter selected (rows b);
                totalWeight := Some (calc_weight xw (filter selected (rows b)));
                mllll := Some (map mllll_event (filter selected (rows b))) |})).
  - rewrite bind_ret, ak_concatenate_nonempty
      by (destruct cs; [contradiction|discriminate]).
    rewrite !map_map. cbn [rows totalWeight mllll fresh].
    rewrite concat_filter.
    rewrite (concat_columns_present
               (fun c => calc_weight xw (filter selected c))).
    rewrite (concat_columns_present
               (fun c => map mllll_event (filter selected c))).
    unfold calc_weight. rewrite !concat_map_filter. reflexivity.
  - apply Forall_map. eapply Forall_impl; [|exact Hwf]. intros c Hc.
    rewrite process_batch_ok, Hd by exact Hc. reflexivity.
Qed.

Section ReadFile.

Variable lumi : R.
Variable fraction : R.
Variable infos : dict Info.
Variable uproot_open : string -> result (list Event).
Variable entry_step : nat.

Local Abbreviation read_file' :=
  (read_file lumi fraction infos uproot_open entry_step).

(** X10. When the throttle leaves nothing to read, as for an empty file,
    [read_file] raises [TypeError]: there is no batch to concatenate.  A
    simulated sample gets that far only when its cross-section weight
    could be computed. *)
Theorem read_file_nothing_to_read (path sample : string) (tree : list Event) :
  uproot_open (path ++ ":mini")%string = ret tree ->
  entries_read fraction tree = 0%nat ->
  (str_contains "data" sample = true
   \/ exists xw, get_xsec_weight lumi infos sample = ret xw) ->
  read_file' path sample = raise TypeError.
Proof.
  intros Hopen Hnone Hw. unfold read_file. rewrite Hopen, bind_ret. cbv zeta.
  assert (Hit : iterate entry_step tree
                        (float_mul (float_of_nat (length tree)) fraction) = []).
  { unfold iterate. cbv zeta. unfold entries_read in Hnone.
    rewrite Hnone, num_batches_zero. reflexivity. }
  rewrite Hit. destruct Hw as [Hd|[xw Hxw]].
  - rewrite Hd. reflexivity.
  - destruct (str_contains "data" sample); [reflexivity|].
    cbn [negb]. rewrite Hxw. reflexivity.
Qed.

Lemma read_file_kept (path sample : string) (tree : list Event) (xw : R) :
  uproot_open (path ++ ":mini")%string = ret tree ->
  (0 < entry_step)%nat ->
  (1 <= entries_read fraction tree)%nat ->
  Forall well_formed (firstn (entries_read fraction tree) tree) ->
  (str_contains "data" sample = false ->
   get_xsec_weight lumi infos sample = ret xw) ->
  read_file' path sample
  = ret {| rows := kept_events fraction tree;
           totalWeight :=
             if str_contains "data" sample then None
             else Some (calc_weight xw (kept_events fraction tree));
           mllll := Some (map mllll_event (kept_events fraction tree)) |}.
Proof.
  intros Hopen Hs Hstop Hwf Hxw.
  unfold read_file. rewrite Hopen, bind_ret. cbv zeta.
  rewrite iterate_chunks. unfold kept_events.
  change (regularize_entry_stop (length tree)
            (float_mul (float_of_nat (length tree)) fraction))
    with (entries_read fraction tree).
  set (stop := entries_read fraction tree) in *.
  pose proof (chunks_cover entry_step stop tree Hs) as Hcover.
  pose proof (chunks_nonempty entry_step stop tree Hs Hstop) as Hne.
  set (cs := chunks entry_step (firstn stop tree)
                    (num_batches stop entry_step)) in *.
  rewrite <- Hcover in Hwf. rewrite <- Hcover.
  destruct (str_contains "data" sample) eqn:Hd.
  - cbn [negb]. rewrite bind_ret.
    rewrite (read_batches_data sample None _ Hd Hwf Hne). reflexivity.
  - cbn [negb]. rewrite (Hxw eq_refl), !bind_ret.
    rewrite (read_batches_mc sample xw _ Hd Hwf Hne). reflexivity.
Qed.

(** X11. Reading in batches is the same as processing the throttled file
    at once: when the entries that are read, the first
    [entries_read fraction tree] of the file, are well formed and at least
    one entry is read, [read_file] returns the selected ones among them in
    stored order, with [calc_mllll] of these events as [mllll] and, for a
    sample without ["data"] in its identifier, [calc_weight] of these
    events as [totalWeight].  The result does not depend on the batch
    size. *)
Theorem read_file_batch_independent (path sample : string)
    (tree : list Event) (xw : R) :
  uproot_open (path ++ ":mini")%string = ret tree ->
  (0 < entry_step)%nat ->
  (1 <= entries_read fraction tree)%nat ->
  Forall well_formed (firstn (entries_read fraction tree) tree) ->
  (str_contains "data" sample = false ->
   get_xsec_weight lumi infos sample = ret xw) ->
  exists m,
    calc_mllll (map lep_pt (kept_events fraction tree))
               (map lep_eta (kept_events fraction tree))
               (map lep_phi (kept_events fraction tree))
               (map lep_E (kept_events fraction tree)) = ret m /\
    read_file' path sample
    = ret {| rows := kept_events fraction tree;
             totalWeight :=
               if str_contains "data" sample then None
               else Some (calc_weight xw (kept_events fraction tree));
             mllll := Some m |}.
Proof.
  intros Hopen Hs Hstop Hwf Hxw.
  exists (map mllll_event (kept_events fraction tree)). split.
  - apply calc_mllll_ok, Forall_filter, well_formed_momenta, Hwf.
  - apply read_file_kept; assumption.
Qed.

End ReadFile.

Lemma read_file_nothing_to_read_witness :
  read_file 10 1 infos_llll (storage_of []) 5 "Input/4lep/Data/data_A.4lep.root"
            "data_A" = raise TypeError.
Proof.
  apply (read_file_nothing_to_read 10 1 infos_llll (storage_of []) 5
           "Input/4lep/Data/data_A.4lep.root" "data_A" []).
  - reflexivity.
  - rewrite entries_read_whole by (simpl; lia). reflexivity.
  - left. reflexivity.
Defined.

Lemma read_file_batch_independent_witness :
  exists m,
    calc_mllll (map lep_pt (kept_events 1 tree_small))
               (map lep_eta (kept_events 1 tree_small))
               (map lep_phi (kept_events 1 tree_small))
               (map lep_E (kept_events 1 tree_small)) = ret m /\
    read_file 10 1 infos_llll (storage_of tree_small) 2
              "Input/4lep/Data/data_A.4lep.root" "data_A"
    = ret {| rows := kept_events 1 tree_small;
             totalWeight :=
               if str_contains "data" "data_A" then None
               else Some (calc_weight 0 (kept_events 1 tree_small));
             mllll := Some m |}.
Proof.
  apply (read_file_batch_independent 10 1 infos_llll (storage_of tree_small) 2
           "Input/4lep/Data/data_A.4lep.root" "data_A" tree_small 0).
  - reflexivity.
  - lia.
  - rewrite entries_read_whole by (simpl; lia). simpl. lia.
  - rewrite entries_read_whole by (simpl; lia).
    repeat constructor; simpl; lia.
  - intros H. vm_compute in H. discriminate H.
Defined.

(** ** A malformed event in the file *)

Lemma apply_cuts_survivors (data : Array) :
  Forall (fun e => (4 <= length (lep_charge e))%nat) (rows data) ->
  Forall (fun e => (4 <= length (lep_type e))%nat)
         (filter (fun e => negb (negb (sum_first4 (lep_charge e) =? 0)%Z))
                 (rows data)) ->
  apply_cuts data = ret (Array_getitem_mask data (map selected (rows data))).
Proof.
  intros Hc Ht. unfold apply_cuts.
  rewrite cut_lep_charge_ok, bind_ret by exact Hc. cbv zeta.
  set (f1 := fun e => negb (negb (sum_first4 (lep_charge e) =? 0)%Z)) in *.
  set (f2 := fun e => negb (negb (sum_first4 (lep_type e) =? 44)%Z
                            && negb (sum_first4 (lep_type e) =? 48)%Z
                            && negb (sum_first4 (lep_type e) =? 52)%Z)).
  rewrite map_map. fold f1.
  assert (Hrows : rows (Array_getitem_mask data (map f1 (rows data)))
                  = filter f1 (rows data)).
  { simpl. apply getitem_mask_filter. }
  rewrite Hrows, cut_lep_type_ok, bind_ret by exact Ht.
  rewrite map_map. fold f2.
  assert (Hsel : map selected (rows data)
                 = map (fun e => f1 e && f2 e) (rows data)).
  { apply map_ext. intros e. symmetry. apply selected_split. }
  rewrite Hsel. unfold Array_getitem_mask. simpl.
  rewrite getitem_mask_twice. f_equal. f_equal.
  - destruct (totalWeight data); simpl; [|reflexivity].
    rewrite getitem_mask_twice. reflexivity.
  - destruct (mllll data); simpl; [|reflexivity].
    rewrite getitem_mask_twice. reflexivity.
Qed.

Lemma short_or_long {X} (f : X -> nat) (l : list X) :
  Forall (fun x => (4 <= f x)%nat) l \/ Exists (fun x => (f x < 4)%nat) l.
Proof.
  induction l as [|x l [IH|IH]].
  - left. constructor.
  - destruct (le_lt_dec 4 (f x)) as [Hx|Hx].
    + left. constructor; assumption.
    + right. constructor. exact Hx.
  - right. apply Exists_cons_tl. exact IH.
Qed.

Lemma apply_cuts_outcome (data : Array) :
  apply_cuts data = raise IndexError
  \/ apply_cuts data = ret (Array_getitem_mask data (map selected (rows data))).
Proof.
  destruct (short_or_long (fun e => length (lep_charge e)) (rows data))
    as [Hc|Hc].
  - destruct (short_or_long (fun e => length (lep_type e))
                (filter (fun e => negb (negb (sum_first4 (lep_charge e) =? 0)%Z))
                        (rows data))) as [Ht|Ht].
    + right. apply apply_cuts_survivors; assumption.
    + left. unfold apply_cuts.
      rewrite cut_lep_charge_ok, bind_ret by exact Hc. cbv zeta.
      rewrite map_map. cbn [rows Array_getitem_mask].
      rewrite getitem_mask_filter, cut_lep_type_short_cols; [reflexivity|].
      apply Exists_exists in Ht as [e [Hin Hlt]]. apply Exists_exists.
      exists (lep_type e). split; [apply in_map, Hin|exact Hlt].
  - left. unfold apply_cuts. rewrite cut_lep_charge_short by exact Hc.
    reflexivity.
Qed.

Lemma calc_mllll_outcome (evs : list Event) :
  Forall aligned evs ->
  calc_mllll (map lep_pt evs) (map lep_eta evs) (map lep_phi evs)
             (map lep_E evs) = raise IndexError
  \/ exists m, calc_mllll (map lep_pt evs) (map lep_eta evs) (map lep_phi evs)
                          (map lep_E evs) = ret m.
Proof.
  intros Ha.
  destruct (short_or_long (fun e => length (lep_pt e)) evs) as [H|H].
  - right. eexists. apply calc_mllll_ok.
    rewrite Forall_forall in *. intros e He. split; [apply H, He|apply Ha, He].
  - left. apply calc_mllll_short; assumption.
Qed.

Lemma process_batch_outcome (sample : string) (xsec_weight : option R)
    (evs : list Event) :
  (str_contains "data" sample = true \/ exists xw, xsec_weight = Some xw) ->
  Forall aligned evs ->
  process_batch sample xsec_weight (fresh evs) = raise IndexError
  \/ exists out, process_batch sample xsec_weight (fresh evs) = ret out.
Proof.
  intros Hw Ha. unfold process_batch.
  set (d1 := if negb (str_contains "data" sample)
             then match xsec_weight with
                  | Some xw =>
                      ret {| rows := rows (fresh evs);
                             totalWeight := Some (calc_weight xw (rows (fresh evs)));
                             mllll := mllll (fresh evs) |}
                  | None => raise NameError
                  end
             else ret (fresh evs)).
  assert (Hd1 : exists a, d1 = ret a /\ rows a = evs).
  { unfold d1. destruct Hw as [Hd|[xw ->]].
    - rewrite Hd. eexists. split; reflexivity.
    - destruct (negb (str_contains "data" sample)); eexists; split; reflexivity. }
  destruct Hd1 as [a [-> Hrows]]. rewrite bind_ret.
  destruct (apply_cuts_outcome a) as [Hc|Hc]; rewrite Hc; [left; reflexivity|].
  rewrite bind_ret. cbn [rows Array_getitem_mask].
  rewrite Hrows, getitem_mask_filter.
  destruct (calc_mllll_outcome (filter selected evs)) as [Hm|[m Hm]].
  - apply Forall_filter, Ha.
  - left. rewrite Hm. reflexivity.
  - right. rewrite Hm. eexists. reflexivity.
Qed.

Lemma process_batch_short (sample : string) (xsec_weight : option R)
    (evs : list Event) :
  (str_contains "data" sample = true \/ exists xw, xsec_weight = Some xw) ->
  Exists (fun e => (length (lep_charge e) < 4)%nat) evs ->
  process_batch sample xsec_weight (fresh evs) = raise IndexError.
Proof.
  intros Hw Hex. unfold process_batch, apply_cuts.
  destruct Hw as [Hd|[xw ->]].
  - rewrite Hd. cbn [negb]. rewrite bind_ret. cbn [rows fresh].
    rewrite cut_lep_charge_short by exact Hex. reflexivity.
  - destruct (negb (str_contains "data" sample)); rewrite bind_ret;
      cbn [rows fresh]; rewrite cut_lep_charge_short by exact Hex; reflexivity.
Qed.

Section ReadMalformed.

Variable lumi : R.
Variable fraction : R.
Variable infos : dict Info.
Variable uproot_open : string -> result (list Event).
Variable entry_step : nat.

Local Abbreviation read_file' :=
  (read_file lumi fraction infos uproot_open entry_step).

(** X12. One event with fewer than four leptons among the entries that
    are read aborts the whole file: when the momentum sequences of these
    entries are aligned, [read_file] raises [IndexError], and the events
    that were selected from earlier batches are lost with it. *)
Theorem read_file_short_event (path sample : string) (tree : list Event) :
  uproot_open (path ++ ":mini")%string = ret tree ->
  (0 < entry_step)%nat ->
  (str_contains "data" sample = true
   \/ exists xw, get_xsec_weight lumi infos sample = ret xw) ->
  Forall aligned (firstn (entries_read fraction tree) tree) ->
  Exists (fun e => (length (lep_charge e) < 4)%nat)
         (firstn (entries_read fraction tree) tree) ->
  read_file' path sample = raise IndexError.
Proof.
  intros Hopen Hs Hw Ha Hex. unfold read_file.
  rewrite Hopen, bind_ret. cbv zeta.
  set (xsw := if negb (str_contains "data" sample)
              then xw <- get_xsec_weight lumi infos sample ;; ret (Some xw)
              else ret None).
  assert (Hxsw : exists o, xsw = ret o /\
                  (str_contains "data" sample = true \/ exists xw, o = Some xw)).
  { unfold xsw. destruct Hw as [Hd|[xw Hxw]].
    - rewrite Hd. eexists. split; [reflexivity|left; reflexivity].
    - destruct (str_contains "data" sample) eqn:Hd.
      + eexists. split; [reflexivity|left; reflexivity].
      + cbn [negb]. rewrite Hxw. eexists.
        split; [reflexivity|right; eexists; reflexivity]. }
  destruct Hxsw as [o [-> Ho]]. rewrite bind_ret, iterate_chunks.
  change (regularize_entry_stop (length tree)
            (float_mul (float_of_nat (length tree)) fraction))
    with (entries_read fraction tree).
  set (stop := entries_read fraction tree) in *.
  pose proof (chunks_cover entry_step stop tree Hs) as Hcover.
  set (cs := chunks entry_step (firstn stop tree)
                    (num_batches stop entry_step)) in *.
  rewrite <- Hcover in Ha, Hex.
  apply Forall_concat in Ha. apply Exists_concat in Hex.
  rewrite (mapM_raises _ IndexError); [reflexivity| |].
  - intros b Hb. apply in_map_iff in Hb as [c [<- Hc]].
    rewrite Forall_forall in Ha.
    apply process_batch_outcome; [exact Ho|apply Ha, Hc].
  - apply Exists_exists in Hex as [c [Hc Hshort]]. apply Exists_exists.
    exists (fresh c). split; [apply in_map, Hc|].
    apply process_batch_short; assumption.
Qed.

End ReadMalformed.

Lemma read_file_short_event_witness :
  read_file 10 1 infos_llll (storage_of tree_short) 1
            "Input/4lep/MC/mc_363490.llll.4lep.root" "llll" = raise IndexError.
Proof.
  apply (read_file_short_event 10 1 infos_llll (storage_of tree_short) 1
           "Input/4lep/MC/mc_363490.llll.4lep.root" "llll" tree_short).
  - reflexivity.
  - lia.
  - right. exists (10 * 1000 * 2 / (4 * 1)). unfold get_xsec_weight.
    simpl dict_get. rewrite bind_ret. simpl.
    rewrite py_div_nonzero by lra. reflexivity.
  - rewrite entries_read_whole by (simpl; lia). repeat constructor.
  - rewrite entries_read_whole by (simpl; lia).
    apply Exists_cons_tl. constructor.
    simpl. lia.
Defined.

(** ** Weights and luminosity *)

Lemma calc_weight_scale (k xw : R) (evs : list Event) :
  calc_weight (k * xw) evs = map (fun w => k * w) (calc_weight xw evs).
Proof.
  unfold calc_weight. rewrite map_map. apply map_ext. intros e. ring.
Qed.

(** X13. The simulated weights are proportional to the luminosity: with
    [k * lumi] in place of [lumi] the cross-section weight of a sample and
    the [totalWeight] of every selected event are multiplied by [k], while
    the selected events and their masses stay the same. *)
Theorem weights_scale_with_luminosity (lumi k : R) (infos : dict Info)
    (sample : string) (info : Info) (evs : list Event) :
  dict_get infos sample = ret info ->
  sumw info <> 0 -> red_eff info <> 0 ->
  str_contains "data" sample = false ->
  Forall well_formed evs ->
  exists xw out out',
    get_xsec_weight lumi infos sample = ret xw /\
    get_xsec_weight (k * lumi) infos sample = ret (k * xw) /\
    process_batch sample (Some xw) (fresh evs) = ret out /\
    process_batch sample (Some (k * xw)) (fresh evs) = ret out' /\
    rows out' = rows out /\ mllll out' = mllll out /\
    totalWeight out' = option_map (map (fun w => k * w)) (totalWeight out).
Proof.
  intros Hget Hs Hr Hmc Hwf.
  assert (Hden : sumw info * red_eff info <> 0)
    by (apply Rmult_integral_contrapositive_currified; assumption).
  exists (lumi * 1000 * xsec info / (sumw info * red_eff info)).
  do 2 eexists. unfold get_xsec_weight.
  rewrite Hget, !bind_ret, !py_div_nonzero by exact Hden.
  split; [reflexivity|].
  split; [rewrite bind_ret; f_equal; field; split; assumption|].
  rewrite !process_batch_ok, Hmc by exact Hwf. cbn [negb].
  split; [reflexivity|]. split; [reflexivity|].
  cbn [rows mllll totalWeight option_map].
  rewrite calc_weight_scale. repeat split; reflexivity.
Qed.

Lemma weights_scale_with_luminosity_witness :
  exists xw out out',
    get_xsec_weight 10 infos_llll "llll" = ret xw /\
    get_xsec_weight (2 * 10) infos_llll "llll" = ret (2 * xw) /\
    process_batch "llll" (Some xw) (fresh [ev_2e2mu]) = ret out /\
    process_batch "llll" (Some (2 * xw)) (fresh [ev_2e2mu]) = ret out' /\
    rows out' = rows out /\ mllll out' = mllll out /\
    totalWeight out' = option_map (map (fun w => 2 * w)) (totalWeight out).
Proof.
  apply (weights_scale_with_luminosity 10 2 infos_llll "llll"
           {| DSID := 363490; events := 17825300; red_eff := 1;
              sumw := 4; xsec := 2 |} [ev_2e2mu]).
  - reflexivity.
  - simpl. lra.
  - simpl. lra.
  - reflexivity.
  - repeat constructor.
Defined.

(** ** The dictionary of categories *)

Lemma dict_set_fresh {V} (d : dict V) (k : string) (v : V) :
  ~ In k (dict_keys d) -> dict_set d k v = d ++ [(k, v)].
Proof.
  induction d as [|[k' v'] d IH]; intros Hk; [reflexivity|].
  simpl in *. destruct (String.eqb_spec k k') as [->|Hne].
  - exfalso. apply Hk. left. reflexivity.
  - rewrite IH; [reflexivity|]. intros Hin. apply Hk. right. exact Hin.
Qed.

Lemma dict_keys_app {V} (d d' : dict V) :
  dict_keys (d ++ d') = dict_keys d ++ dict_keys d'.
Proof. unfold dict_keys. apply map_app. Qed.

Lemma keys_of_combine {V} (ks : list string) (vs : list V) :
  length ks = length vs -> dict_keys (combine ks vs) = ks.
Proof.
  unfold dict_keys. revert vs. induction ks as [|k ks IH]; intros [|v vs] H;
    simpl in *; try reflexivity; try discriminate.
  rewrite IH by congruence. reflexivity.
Qed.

Lemma Forall2_same_length {A B} (R : A -> B -> Prop) (l : list A) (l' : list B) :
  Forall2 R l l' -> length l = length l'.
Proof. induction 1; simpl; congruence. Qed.

Section Categories.

Variable lumi : R.
Variable fraction : R.
Variable tuple_path : string.
Variable infos : dict Info.
Variable uproot_open : string -> result (list Event).
Variable entry_step : nat.

Local Abbreviation read_one' :=
  (read_one lumi fraction tuple_path infos uproot_open entry_step).
Local Abbreviation read_category' :=
  (read_category lumi fraction tuple_path infos uproot_open entry_step).
Local Abbreviation get_data_loop' :=
  (get_data_loop lumi fraction tuple_path infos uproot_open entry_step).

Lemma get_data_loop_ok (todo : dict (list string)) (arrays : list Array)
    (data : dict Array) :
  NoDup (dict_keys data ++ dict_keys todo) ->
  Forall2 (fun c a => read_category' (fst c) (snd c) = ret a) todo arrays ->
  get_data_loop' todo data = ret (data ++ combine (dict_keys todo) arrays).
Proof.
  intros Hnd Hall. revert data Hnd.
  induction Hall as [|[s vals] a todo arrays Ha _ IH]; intros data Hnd.
  - simpl. rewrite app_nil_r. reflexivity.
  - cbn [get_data_loop]. cbn [fst snd] in Ha. rewrite Ha, bind_ret.
    cbn [dict_keys map fst combine] in *.
    rewrite dict_set_fresh.
    + rewrite IH.
      * rewrite <- app_assoc. reflexivity.
      * rewrite dict_keys_app. cbn [dict_keys map fst app].
        rewrite <- app_assoc. exact Hnd.
    + apply NoDup_remove_2 in Hnd. intros Hin. apply Hnd.
      apply in_or_app. left. exact Hin.
Qed.

(** X14. When every category of [samples] can be read, and the category
    names are distinct as the keys of a dict are, [get_data_from_files]
    returns one entry per category, in the order of [samples], each holding
    the concatenated array of that category. *)
Theorem get_data_from_files_entries (samples : dict (list string))
    (arrays : list Array) :
  NoDup (dict_keys samples) ->
  Forall2 (fun c a => read_category' (fst c) (snd c) = ret a) samples arrays ->
  get_data_from_files lumi fraction tuple_path samples infos uproot_open
                      entry_step
  = ret (combine (dict_keys samples) arrays)
  /\ dict_keys (combine (dict_keys samples) arrays) = dict_keys samples.
Proof.
  intros Hnd Hall. split.
  - unfold get_data_from_files.
    rewrite (get_data_loop_ok samples arrays []); [reflexivity|exact Hnd|exact Hall].
  - apply keys_of_combine. unfold dict_keys. rewrite length_map.
    apply (Forall2_same_length _ _ _ Hall).
Qed.

(** X15. A category is read file by file: with an empty list of samples
    [read_category] raises [TypeError], and when every constituent file
    can be read the events of the category are the events of the frames in
    the order of the sample list. *)
Theorem read_category_concatenates (s : string) (vals : list string)
    (frames : list Array) :
  read_category' s [] = raise TypeError
  /\ (vals <> [] ->
      Forall2 (fun v f => read_one' s v = ret f) vals frames ->
      exists a,
        read_category' s vals = ret a /\
        rows a = concat (map rows frames) /\
        len a = list_sum (map len frames)).
Proof.
  split; [reflexivity|]. intros Hne Hall. unfold read_category.
  assert (Hm : mapM (read_one' s) vals = ret frames).
  { clear Hne. induction Hall as [|v f vals frames Hv _ IH]; [reflexivity|].
    cbn [mapM]. rewrite Hv, bind_ret, IH. reflexivity. }
  rewrite Hm, bind_ret.
  assert (Hf : frames <> []).
  { destruct Hall; [contradiction|discriminate]. }
  rewrite ak_concatenate_nonempty by exact Hf. eexists.
  split; [reflexivity|]. cbn [rows]. split; [reflexivity|].
  unfold len. cbn [rows]. rewrite length_concat, map_map. reflexivity.
Qed.

End Categories.

Lemma read_one_data_small :
  read_one 10 1 "Input/4lep/" infos_llll (storage_of tree_small) 2
           "data" "data_A" = ret frame_small.
Proof.
  unfold read_one.
  change (file_prefix infos_llll "data" "data_A") with (@ret string "Data/"%string).
  rewrite bind_ret. cbv zeta.
  rewrite (read_file_kept 10 1 infos_llll (storage_of tree_small) 2 _ "data_A"
             tree_small 0).
  - reflexivity.
  - reflexivity.
  - lia.
  - rewrite entries_read_whole by (simpl; lia). simpl. lia.
  - rewrite entries_read_whole by (simpl; lia).
    repeat constructor; simpl; lia.
  - intros H. vm_compute in H. discriminate H.
Qed.

Lemma get_data_from_files_entries_witness :
  exists arrays,
    get_data_from_files 10 1 "Input/4lep/" samples_data_only infos_llll
                        (storage_of tree_small) 2
    = ret (combine (dict_keys samples_data_only) arrays)
    /\ dict_keys (combine (dict_keys samples_data_only) arrays)
       = dict_keys samples_data_only.
Proof.
  eexists.
  apply (get_data_from_files_entries 10 1 "Input/4lep/" infos_llll
           (storage_of tree_small) 2 samples_data_only).
  - repeat constructor. simpl. tauto.
  - constructor; [|constructor]. cbn [fst snd]. unfold read_category.
    cbn [mapM]. rewrite read_one_data_small. reflexivity.
Defined.

Lemma read_category_concatenates_witness :
  exists a,
    read_category 10 1 "Input/4lep/" infos_llll (storage_of tree_small) 2
                  "data" ["data_A"%string] = ret a /\
    rows a = concat (map rows [frame_small]) /\
    len a = list_sum (map len [frame_small]).
Proof.
  destruct (read_category_concatenates 10 1 "Input/4lep/" infos_llll
              (storage_of tree_small) 2 "data" ["data_A"%string] [frame_small])
    as [_ H].
  apply H.
  - discriminate.
  - constructor; [exact read_one_data_small|constructor].
Defined.

(** ** The cells of the histograms *)

Lemma floor_nat_iff (y : R) (j : nat) :
  0 <= y -> (Z.to_nat (Zfloor y) = j <-> INR j <= y < INR j + 1).
Proof.
  intros Hy. assert (H0 : (0 <= Zfloor y)%Z) by (apply Zfloor_lub; simpl; lra).
  split.
  - intros <-. rewrite INR_IZR_INZ, Z2Nat.id by exact H0. apply Zfloor_bound.
  - intros Hj. rewrite (Zfloor_eq (Z.of_nat j)).
    + apply Nat2Z.id.
    + rewrite <- INR_IZR_INZ. exact Hj.
Qed.

Lemma bin_width_pos (n : nat) (lo hi : R) :
  (0 < n)%nat -> lo < hi -> 0 < (hi - lo) / INR n.
Proof.
  intros Hn Hlh. apply Rdiv_lt_0_compat; [lra|apply lt_0_INR, Hn].
Qed.

Lemma bin_edge_last (n : nat) (lo hi : R) :
  (0 < n)%nat -> bin_edge n lo hi n = hi.
Proof.
  intros Hn. unfold bin_edge. field.
  apply Rgt_not_eq, lt_0_INR, Hn.
Qed.

Lemma bin_edge_le (n : nat) (lo hi : R) (i j : nat) :
  (0 < n)%nat -> lo < hi -> (i <= j)%nat ->
  bin_edge n lo hi i <= bin_edge n lo hi j.
Proof.
  intros Hn Hlh Hij. unfold bin_edge.
  pose proof (bin_width_pos n lo hi Hn Hlh). pose proof (le_INR i j Hij). nra.
Qed.

Lemma bin_edge_first (n : nat) (lo hi : R) : bin_edge n lo hi 0 = lo.
Proof. unfold bin_edge. simpl. ring. Qed.

(** The bin of a mass: when [y] is the position of [v] in units of the bin
    width, the floor of [y] is [j] exactly when [v] lies between the edges
    [j] and [j + 1]. *)
Lemma floor_bin (n : nat) (lo hi v y : R) (j : nat) :
  (0 < n)%nat -> lo < hi -> lo <= v ->
  y * ((hi - lo) / INR n) = v - lo ->
  (Z.to_nat (Zfloor y) =? j)%nat
  = in_half_open (bin_edge n lo hi j) (bin_edge n lo hi (S j)) v.
Proof.
  intros Hn Hlh Hv Hy. pose proof (bin_width_pos n lo hi Hn Hlh) as Hd.
  set (d := (hi - lo) / INR n) in *.
  assert (Hy0 : 0 <= y) by nra.
  unfold in_half_open, bin_edge. fold d. rewrite S_INR.
  destruct (Nat.eqb_spec (Z.to_nat (Zfloor y)) j) as [Hj|Hj].
  - apply (floor_nat_iff y j Hy0) in Hj.
    destruct (Rle_dec (lo + INR j * d) v) as [_|Hc]; [|exfalso; nra].
    destruct (Rlt_dec v (lo + (INR j + 1) * d)) as [_|Hc]; [reflexivity|].
    exfalso. nra.
  - destruct (Rle_dec (lo + INR j * d) v) as [H1|_]; [|reflexivity].
    destruct (Rlt_dec v (lo + (INR j + 1) * d)) as [H2|_]; [|reflexivity].
    exfalso. apply Hj, (floor_nat_iff y j Hy0). split; nra.
Qed.

Lemma np_position (n : nat) (lo hi v : R) :
  (0 < n)%nat -> lo < hi ->
  (v - lo) / (hi - lo) * INR n * ((hi - lo) / INR n) = v - lo.
Proof.
  intros Hn Hlh. field. split; [apply Rgt_not_eq, lt_0_INR, Hn|lra].
Qed.

Lemma sum_window_one (i : nat) (arr : list R) :
  sum_window i 1 arr = nth i arr 0.
Proof. unfold sum_window. cbn [seq map]. rewrite sum_list_cons. simpl. ring. Qed.

Lemma window_one_eqb (i k len : nat) :
  (i < len)%nat ->
  (i <=? k)%nat && (k <? i + 1)%nat && (k <? len)%nat = (k =? i)%nat.
Proof.
  intros H. destruct (Nat.leb_spec i k), (Nat.ltb_spec k (i + 1)),
    (Nat.ltb_spec k len), (Nat.eqb_spec k i); try lia; reflexivity.
Qed.

Lemma map_nth_seq (arr : list R) :
  map (fun i => nth i arr 0) (seq 0 (length arr)) = arr.
Proof.
  induction arr as [|a arr IH]; [reflexivity|].
  cbn [length]. rewrite <- cons_seq, <- seq_shift. cbn [map nth].
  rewrite map_map. cbn [nth]. rewrite IH. reflexivity.
Qed.

Lemma sum_window_all (arr : list R) :
  sum_window 0 (length arr) arr = sum_list arr.
Proof. unfold sum_window. rewrite map_nth_seq. reflexivity. Qed.

Lemma fold_alter_length {X} (idx : X -> nat) (wt : X -> R) (xs : list X)
    (arr : list R) :
  length (fold_left (fun arr x => list_alter (fun c => c + wt x) (idx x) arr)
                    xs arr) = length arr.
Proof.
  revert arr. induction xs as [|x xs IH]; intros arr; [reflexivity|].
  cbn [fold_left]. rewrite IH. apply list_alter_length.
Qed.

Lemma FindBin_in_array (n : nat) (lo hi v : R) :
  (FindBin (TH1F_new n lo hi) v < n + 2)%nat.
Proof.
  unfold FindBin. cbn [fXmin fXmax fNbins TH1F_new].
  destruct (Rlt_dec v lo) as [H1|H1]; [lia|].
  destruct (Rlt_dec v hi) as [H2|H2]; [|lia].
  destruct n as [|n].
  - replace (INR 0 * (v - lo) / (hi - lo)) with 0
      by (simpl; unfold Rdiv; ring).
    rewrite (Zfloor_eq 0) by (simpl; lra). simpl. lia.
  - assert (Hlh : lo < hi) by lra.
    pose proof (floor_index (S n) _
                  (scaled_fraction_bounds (S n) lo hi v (Nat.lt_0_succ n) Hlh
                     (conj (Rnot_lt_le _ _ H1) H2))) as Hidx.
    replace (INR (S n) * (v - lo) / (hi - lo))
      with ((v - lo) / (hi - lo) * INR (S n)) by (field; lra).
    lia.
Qed.

Lemma filter_all {A} (f : A -> bool) (l : list A) :
  (forall a, f a = true) -> filter f l = l.
Proof.
  intros H. induction l as [|a l IH]; [reflexivity|].
  simpl. rewrite H, IH. reflexivity.
Qed.

(** X17. Filling a simulation histogram conserves the weight: whatever
    the binning, the array keeps its [n + 2] cells and the cells, underflow
    and overflow included, sum to the total weight of the entries.  No
    entry is lost and none is counted twice. *)
Theorem fill_mc_hist_conserves (n : nat) (lo hi : R) (x w : list R) :
  length (fArray (fill_mc_hist n lo hi x w)) = (n + 2)%nat
  /\ sum_list (fArray (fill_mc_hist n lo hi x w))
     = sum_list (map snd (combine x w)).
Proof.
  unfold fill_mc_hist, FillN.
  rewrite firstn_all2 by (rewrite length_combine; lia).
  rewrite FillN_fold. cbn [fArray TH1F_new].
  assert (Hlen : length (fold_left
             (fun arr xw => list_alter (fun c => c + snd xw)
                              (FindBin (TH1F_new n lo hi) (fst xw)) arr)
             (combine x w) (repeat 0 (n + 2))) = (n + 2)%nat).
  { rewrite (fold_alter_length
               (fun xw => FindBin (TH1F_new n lo hi) (fst xw)) snd).
    apply repeat_length. }
  split; [exact Hlen|].
  rewrite <- sum_window_all, Hlen.
  rewrite (fold_tally_sum (fun xw => FindBin (TH1F_new n lo hi) (fst xw)) snd).
  rewrite sum_window_zeros, repeat_length, Rplus_0_l.
  rewrite filter_all; [reflexivity|]. intros xw.
  pose proof (FindBin_in_array n lo hi (fst xw)) as Hb.
  destruct (Nat.ltb_spec (FindBin (TH1F_new n lo hi) (fst xw)) (0 + (n + 2))),
    (Nat.ltb_spec (FindBin (TH1F_new n lo hi) (fst xw)) (n + 2));
    try lia. reflexivity.
Qed.

(** ** The cells of the data histogram *)

Lemma np_bin_index_last (n : nat) (lo hi v : R) :
  (0 < n)%nat -> lo < hi ->
  (match np_bin_index n lo hi v with Some i => i | None => n end =? n - 1)%nat
  = in_closed (bin_edge n lo hi (n - 1)) hi v.
Proof.
  intros Hn Hlh. unfold np_bin_index, in_closed.
  pose proof (bin_edge_le n lo hi 0 (n - 1) Hn Hlh (Nat.le_0_l _)) as He0.
  rewrite bin_edge_first in He0.
  destruct (Rlt_dec v lo) as [H1|H1].
  - replace (n =? n - 1)%nat with false by (symmetry; apply Nat.eqb_neq; lia).
    destruct (Rle_dec (bin_edge n lo hi (n - 1)) v); [lra|reflexivity].
  - destruct (Rlt_dec hi v) as [H2|H2].
    + replace (n =? n - 1)%nat with false by (symmetry; apply Nat.eqb_neq; lia).
      destruct (Rle_dec (bin_edge n lo hi (n - 1)) v); [|reflexivity].
      destruct (Rle_dec v hi); [lra|reflexivity].
    + destruct (Req_dec_T v hi) as [Heq|Hne].
      * rewrite Nat.eqb_refl. subst v.
        pose proof (bin_edge_le n lo hi (n - 1) n Hn Hlh (Nat.le_sub_l _ _)) as He.
        rewrite bin_edge_last in He by exact Hn.
        destruct (Rle_dec (bin_edge n lo hi (n - 1)) hi); [|lra].
        destruct (Rle_dec hi hi); [reflexivity|lra].
      * rewrite (floor_bin n lo hi v) by
          (try apply np_position; try assumption; lra).
        replace (S (n - 1)) with n by lia. rewrite bin_edge_last by exact Hn.
        unfold in_half_open.
        destruct (Rle_dec (bin_edge n lo hi (n - 1)) v); [|reflexivity].
        destruct (Rlt_dec v hi), (Rle_dec v hi); try lra; reflexivity.
Qed.

Lemma np_bin_index_inner (n : nat) (lo hi v : R) (j : nat) :
  (0 < n)%nat -> lo < hi -> (S j < n)%nat ->
  (match np_bin_index n lo hi v with Some i => i | None => n end =? j)%nat
  = in_half_open (bin_edge n lo hi j) (bin_edge n lo hi (S j)) v.
Proof.
  intros Hn Hlh Hj. unfold np_bin_index.
  pose proof (bin_edge_le n lo hi 0 j Hn Hlh (Nat.le_0_l _)) as He0.
  rewrite bin_edge_first in He0.
  pose proof (bin_edge_le n lo hi (S j) n Hn Hlh (Nat.lt_le_incl _ _ Hj)) as He1.
  rewrite bin_edge_last in He1 by exact Hn.
  destruct (Rlt_dec v lo) as [H1|H1].
  - replace (n =? j)%nat with false by (symmetry; apply Nat.eqb_neq; lia).
    unfold in_half_open.
    destruct (Rle_dec (bin_edge n lo hi j) v); [lra|reflexivity].
  - destruct (Rlt_dec hi v) as [H2|H2].
    + replace (n =? j)%nat with false by (symmetry; apply Nat.eqb_neq; lia).
      unfold in_half_open.
      destruct (Rle_dec (bin_edge n lo hi j) v); [|reflexivity].
      destruct (Rlt_dec v (bin_edge n lo hi (S j))); [lra|reflexivity].
    + destruct (Req_dec_T v hi) as [Heq|Hne].
      * replace (n - 1 =? j)%nat with false
          by (symmetry; apply Nat.eqb_neq; lia).
        unfold in_half_open.
        destruct (Rle_dec (bin_edge n lo hi j) v); [|reflexivity].
        destruct (Rlt_dec v (bin_edge n lo hi (S j))); [lra|reflexivity].
      * apply floor_bin; try assumption; [lra|].
        apply np_position; assumption.
Qed.

Lemma np_bin_index_bins (n : nat) (lo hi v : R) (i : nat) :
  (0 < n)%nat -> lo < hi -> (1 <= i <= n)%nat ->
  (match np_bin_index n lo hi v with Some k => k | None => n end =? i - 1)%nat
  = in_data_bin n lo hi i v.
Proof.
  intros Hn Hlh Hi. unfold in_data_bin.
  destruct (Nat.eqb_spec i n) as [->|Hne].
  - apply np_bin_index_last; assumption.
  - replace i with (S (i - 1)) at 3 by lia.
    apply np_bin_index_inner; try assumption. lia.
Qed.

Lemma np_histogram_count (a : list R) (n : nat) (lo hi : R) (j : nat) :
  (j < n)%nat ->
  IZR (nth j (np_histogram a n lo hi) 0%Z)
  = INR (count_where
           (fun v => (match np_bin_index n lo hi v with
                      | Some k => k | None => n end =? j)%nat) a).
Proof.
  intros Hj. unfold np_histogram.
  destruct (np_histogram_fold a n lo hi (repeat 0%Z n) (repeat_length _ _))
    as [Harr _].
  rewrite <- (map_nth IZR), Harr, <- sum_window_one.
  rewrite (fold_tally_sum _ (fun _ => 1)).
  rewrite map_repeat. change (IZR 0) with 0.
  rewrite sum_window_zeros, repeat_length, Rplus_0_l, sum_list_ones.
  unfold count_where. f_equal. f_equal. apply filter_ext.
  intros v. apply window_one_eqb. exact Hj.
Qed.

(** ** The layout of the exported file *)

Lemma fill_mc_hist_axis (n : nat) (lo hi : R) (x w : list R) :
  fNbins (fill_mc_hist n lo hi x w) = n
  /\ fXmin (fill_mc_hist n lo hi x w) = lo
  /\ fXmax (fill_mc_hist n lo hi x w) = hi.
Proof.
  unfold fill_mc_hist, FillN. rewrite FillN_fold. repeat split; reflexivity.
Qed.

Lemma fold_set_length (l : list (nat * Z)) (arr : list R) :
  length (fold_left (fun arr iv =>
                       list_alter (fun _ => IZR (snd iv)) (fst iv + 1) arr)
                    l arr) = length arr.
Proof.
  revert arr. induction l as [|iv l IH]; intros arr; [reflexivity|].
  cbn [fold_left]. rewrite IH. apply list_alter_length.
Qed.

Lemma fill_data_hist_axis (n : nat) (lo hi : R) (m : list R) :
  fNbins (fill_data_hist n lo hi m) = n
  /\ fXmin (fill_data_hist n lo hi m) = lo
  /\ fXmax (fill_data_hist n lo hi m) = hi
  /\ length (fArray (fill_data_hist n lo hi m)) = (n + 2)%nat.
Proof.
  unfold fill_data_hist. cbv zeta. rewrite SetBinContent_fold.
  cbn [fNbins fXmin fXmax fArray TH1F_new].
  repeat split; try reflexivity.
  rewrite fold_set_length. apply repeat_length.
Qed.

Lemma fill_mc_hist_length (n : nat) (lo hi : R) (x w : list R) :
  length (fArray (fill_mc_hist n lo hi x w)) = (n + 2)%nat.
Proof.
  unfold fill_mc_hist, FillN. rewrite FillN_fold. cbn [fArray TH1F_new].
  rewrite (fold_alter_length
             (fun xw => FindBin (TH1F_new n lo hi) (fst xw)) snd).
  apply repeat_length.
Qed.

Lemma Forall2_names (data : dict Array) (ss : list string)
    (mc : list (string * TH1F)) :
  Forall2 (fun s nh => exists x w,
              simulated_columns data s x w /\
              nh = (("mc_hist_" ++ s)%string, fill_mc_hist 36 70 180 x w))
          ss mc ->
  map fst mc = map (fun s => ("mc_hist_" ++ s)%string) ss
  /\ Forall (fun nh => exists x w, snd nh = fill_mc_hist 36 70 180 x w) mc.
Proof.
  induction 1 as [|s nh ss mc (x & w & _ & ->) _ [IHn IHf]];
    [split; [reflexivity|constructor]|].
  cbn [map fst]. rewrite IHn.
  split; [reflexivity|]. constructor; [|exact IHf]. exists x, w. reflexivity.
Qed.

(** X19. All histograms of the exported file have the same layout, which
    is what lets them be combined bin by bin: 36 bins over [70, 180] in an
    array of 38 cells.  Their names are [data_hist], [signal_hist] and
    then [mc_hist_<category>] for every category of [samples] other than
    the data and the signal category, in the order of [samples]. *)
Theorem exported_file_layout (samples : dict (list string))
    (data : dict Array) (file : dict TH1F) :
  save_histograms_to_root samples data = ret file ->
  Forall (fun nh => fNbins (snd nh) = 36%nat /\ fXmin (snd nh) = 70 /\
                    fXmax (snd nh) = 180 /\
                    length (fArray (snd nh)) = 38%nat) file
  /\ dict_keys file
     = "data_hist"%string :: "signal_hist"%string
       :: map (fun s => ("mc_hist_" ++ s)%string)
              (filter (fun s => negb (String.eqb s "data"
                                      || String.eqb s signal_key))
                      (dict_keys samples)).
Proof.
  intros H. apply export_inv in H
    as (d & d_m & sx & sw & mc & _ & _ & _ & Hmc & ->).
  apply Forall2_names in Hmc as [Hnames Hmc].
  split.
  - constructor; [|constructor].
    + cbn [snd]. destruct (fill_data_hist_axis 36 70 180 d_m) as (-> & -> & -> & ->).
      repeat split; reflexivity.
    + cbn [snd]. destruct (fill_mc_hist_axis 36 70 180 sx sw) as (-> & -> & ->).
      rewrite fill_mc_hist_length. repeat split; reflexivity.
    + eapply Forall_impl; [|exact Hmc]. intros nh [x [w ->]].
      destruct (fill_mc_hist_axis 36 70 180 x w) as (-> & -> & ->).
      rewrite fill_mc_hist_length. repeat split; reflexivity.
  - unfold dict_keys at 1. cbn [map fst]. rewrite Hnames. reflexivity.
Qed.

Lemma exported_file_layout_witness :
  Forall (fun nh => fNbins (snd nh) = 36%nat /\ fXmin (snd nh) = 70 /\
                    fXmax (snd nh) = 180 /\
                    length (fArray (snd nh)) = 38%nat)
         [("data_hist"%string, fill_data_hist 36 70 180 [125]);
          ("signal_hist"%string, fill_mc_hist 36 70 180 [125] [0.5])]
  /\ dict_keys [("data_hist"%string, fill_data_hist 36 70 180 [125]);
                ("signal_hist"%string, fill_mc_hist 36 70 180 [125] [0.5])]
     = "data_hist"%string :: "signal_hist"%string
       :: map (fun s => ("mc_hist_" ++ s)%string)
              (filter (fun s => negb (String.eqb s "data"
                                      || String.eqb s signal_key))
                      (dict_keys samples_small)).
Proof.
  apply (exported_file_layout samples_small (data_small 125)).
  reflexivity.
Defined.

(** ** What the export needs *)

Lemma get_mllll_ok (a : Array) (m : list R) :
  mllll a = Some m -> get_mllll a = ret m.
Proof. intros H. unfold get_mllll. rewrite H. reflexivity. Qed.

Lemma get_totalWeight_ok (a : Array) (w : list R) :
  totalWeight a = Some w -> get_totalWeight a = ret w.
Proof. intros H. unfold get_totalWeight. rewrite H. reflexivity. Qed.

Lemma mapM_outcome {A B} (f : A -> result B) (e : Exception) (l : list A) :
  Forall (fun a => f a = raise e \/ exists b, f a = ret b) l ->
  mapM f l = raise e \/ exists bs, mapM f l = ret bs.
Proof.
  induction 1 as [|a l [Ha|[b Ha]] _ IH]; cbn [mapM].
  - right. eexists. reflexivity.
  - left. rewrite Ha. reflexivity.
  - rewrite Ha, bind_ret. destruct IH as [IH|[bs IH]]; rewrite IH.
    + left. reflexivity.
    + right. eexists. reflexivity.
Qed.

(** With every column in place the export can only fail in [FillN]. *)
Lemma export_outcome (samples : dict (list string)) (data : dict Array) :
  (exists d m, dict_get data "data" = ret d /\ mllll d = Some m) ->
  Forall (fun s => exists a x w,
             dict_get data s = ret a /\ mllll a = Some x /\
             totalWeight a = Some w)
         (signal_key :: backgrounds samples) ->
  (exists file, save_histograms_to_root samples data = ret file)
  \/ save_histograms_to_root samples data = raise TypeError.
Proof.
  unfold save_histograms_to_root. cbv zeta.
  intros (d & m & Hd & Hm) Hall. inversion Hall as [|s ss Hsg Hmc]; subst.
  destruct Hsg as (sg & sx & sw & Hsg & Hsx & Hsw).
  rewrite Hd, bind_ret, (get_mllll_ok d m Hm), bind_ret.
  rewrite Hsg, bind_ret, (get_mllll_ok sg sx Hsx), bind_ret.
  rewrite (get_totalWeight_ok sg sw Hsw), bind_ret.
  destruct (new_mc_hist_outcome 36 70 180 sx sw) as [Hh|[h Hh]]; rewrite Hh;
    [right; reflexivity|].
  rewrite bind_ret. fold (backgrounds samples).
  match goal with
  | |- (exists file, bind (mapM ?f ?l) _ = _) \/ _ =>
      destruct (mapM_outcome f TypeError l) as [Hm'|[mc Hm']]
  end.
  - eapply Forall_impl; [|exact Hmc].
    intros s (a & x & w & Ha & Hx & Hw). cbv beta.
    rewrite Ha, bind_ret, (get_mllll_ok a x Hx), bind_ret.
    rewrite (get_totalWeight_ok a w Hw), bind_ret.
    destruct (new_mc_hist_outcome 36 70 180 x w) as [Hh'|[h' Hh']]; rewrite Hh';
      [left; reflexivity|right; eexists; reflexivity].
  - right. rewrite Hm'. reflexivity.
  - left. rewrite Hm'. eexists. reflexivity.
Qed.

(** X20. The export returns a file only when [data] holds the
    observed-data category with a mass column, and the signal category
    and every further category of [samples] with a mass column and a
    weight column that are not empty.  So a category without weights, as
    [read_file] leaves it when the sample identifiers contain ["data"], or
    a simulated category without a surviving event makes the export
    raise. *)
Theorem export_needs_columns (samples : dict (list string))
    (data : dict Array) (file : dict TH1F) :
  save_histograms_to_root samples data = ret file ->
  (exists d m, dict_get data "data" = ret d /\ mllll d = Some m)
  /\ Forall (fun s => exists a x w,
                dict_get data s = ret a /\ mllll a = Some x /\
                totalWeight a = Some w /\ x <> [] /\ w <> [])
            (signal_key
             :: filter (fun s => negb (String.eqb s "data"
                                       || String.eqb s signal_key))
                       (dict_keys samples)).
Proof.
  intros H. apply export_inv in H
    as (d & m & sx & sw & mc & Hd & Hm & Hsig & Hmc & _).
  split; [exists d, m; split; assumption|].
  constructor.
  - destruct Hsig as (a & Ha). exists a, sx, sw. exact Ha.
  - fold (backgrounds samples). clear Hsig.
    induction Hmc as [|s nh ss mc' (x & w & (a & Ha) & _) _ IH];
      constructor; [|exact IH].
    exists a, x, w. exact Ha.
Qed.

Lemma export_needs_columns_witness :
  (exists d m, dict_get (data_small 125) "data" = ret d /\ mllll d = Some m)
  /\ Forall (fun s => exists a x w,
                dict_get (data_small 125) s = ret a /\ mllll a = Some x /\
                totalWeight a = Some w /\ x <> [] /\ w <> [])
            (signal_key
             :: filter (fun s => negb (String.eqb s "data"
                                       || String.eqb s signal_key))
                       (dict_keys samples_small)).
Proof.
  apply (export_needs_columns samples_small (data_small 125)
           [("data_hist"%string, fill_data_hist 36 70 180 [125]);
            ("signal_hist"%string, fill_mc_hist 36 70 180 [125] [0.5])]).
  reflexivity.
Defined.

(** ** The plotted counts and the exported counts *)

Lemma np_linspace_edges (n : nat) (lo hi : R) :
  (0 < n)%nat ->
  np_linspace lo hi (n + 1) = map (bin_edge n lo hi) (seq 0 n) ++ [hi].
Proof.
  intros Hn. replace (n + 1)%nat with (S n) by lia.
  destruct n as [|k]; [lia|]. reflexivity.
Qed.

Lemma increasing_map_seq (f : nat -> R) (s k : nat) :
  (forall j, f j <= f (S j)) -> increasing (map f (seq s k)) = true.
Proof.
  intros Hf. revert s. induction k as [|k IH]; intros s; [reflexivity|].
  specialize (IH (S s)). destruct k as [|k]; [reflexivity|].
  cbn [seq map increasing] in *.
  destruct (Rlt_dec (f (S s)) (f s)) as [Hlt|_].
  - pose proof (Hf s). lra.
  - exact IH.
Qed.

Lemma np_linspace_increasing (n : nat) (lo hi : R) :
  (0 < n)%nat -> lo < hi -> increasing (np_linspace lo hi (n + 1)) = true.
Proof.
  intros Hn Hlh. rewrite np_linspace_edges by exact Hn.
  rewrite <- (bin_edge_last n lo hi Hn) at 2.
  change [bin_edge n lo hi n] with (map (bin_edge n lo hi) [n]).
  rewrite <- map_app.
  change [n] with (seq (0 + n) 1). rewrite <- seq_app.
  apply increasing_map_seq. intros j. apply bin_edge_le; try assumption. lia.
Qed.

Lemma np_diff_length (l : list Z) : length (np_diff l) = (length l - 1)%nat.
Proof.
  induction l as [|a l IH]; [reflexivity|].
  destruct l as [|b l]; [reflexivity|].
  cbn [np_diff length] in *. rewrite IH. lia.
Qed.

Lemma nth_np_diff (l : list Z) (j : nat) :
  (S j < length l)%nat ->
  nth j (np_diff l) 0%Z = (nth (S j) l 0 - nth j l 0)%Z.
Proof.
  revert j. induction l as [|a l IH]; intros j Hj; [simpl in Hj; lia|].
  destruct l as [|b l]; [simpl in Hj; lia|].
  destruct j as [|j]; [reflexivity|].
  cbn [np_diff]. cbn [nth]. rewrite IH by (cbn [length] in *; lia).
  reflexivity.
Qed.

Lemma count_where_difference (P Q : R -> bool) (l : list R) :
  (forall v, P v = true -> Q v = true) ->
  Z.of_nat (count_where (fun v => Q v && negb (P v)) l)
  = (Z.of_nat (count_where Q l) - Z.of_nat (count_where P l))%Z.
Proof.
  intros HPQ. unfold count_where.
  induction l as [|v l IH]; [reflexivity|]. cbn [filter].
  specialize (HPQ v).
  destruct (P v), (Q v); cbn [andb negb length]; lia.
Qed.

Lemma count_where_ext (P Q : R -> bool) (l : list R) :
  (forall v, P v = Q v) -> count_where P l = count_where Q l.
Proof.
  intros H. unfold count_where. f_equal. apply filter_ext. exact H.
Qed.

Lemma nth_map_seq {A} (f : nat -> A) (n j : nat) (d : A) :
  (j < n)%nat -> nth j (map f (seq 0 n)) d = f j.
Proof.
  intros Hj. rewrite (nth_indep _ d (f 0%nat)) by (rewrite length_map, length_seq; exact Hj).
  rewrite map_nth, seq_nth by exact Hj. reflexivity.
Qed.

(** The cumulative counts at the edges of [n] equal bins. *)
Lemma cumulative_counts (a : list R) (n : nat) (lo hi : R) :
  (0 < n)%nat ->
  (map (searchsorted_left a) (removelast (np_linspace lo hi (n + 1)))
   ++ map (searchsorted_right a)
          (skipn (length (np_linspace lo hi (n + 1)) - 1)
                 (np_linspace lo hi (n + 1))))%list
  = (map (fun j => searchsorted_left a (bin_edge n lo hi j)) (seq 0 n)
     ++ [searchsorted_right a hi])%list.
Proof.
  intros Hn. rewrite np_linspace_edges by exact Hn.
  rewrite removelast_last, length_app, length_map, length_seq.
  cbn [length]. replace (n + 1 - 1)%nat with n by lia.
  rewrite skipn_app, length_map, length_seq, Nat.sub_diag.
  rewrite skipn_all2 by (rewrite length_map, length_seq; lia).
  cbn [skipn app map]. rewrite map_map. reflexivity.
Qed.

Lemma np_histogram_nth (a : list R) (n : nat) (lo hi : R) (j : nat) :
  (0 < n)%nat -> lo < hi -> (j < n)%nat ->
  nth j (np_histogram a n lo hi) 0%Z
  = Z.of_nat (count_where (in_data_bin n lo hi (S j)) a).
Proof.
  intros Hn Hlh Hj. apply eq_IZR.
  rewrite np_histogram_count by exact Hj. rewrite <- INR_IZR_INZ. f_equal.
  apply count_where_ext. intros v.
  rewrite <- (np_bin_index_bins n lo hi v (S j)) by (try assumption; lia).
  replace (S j - 1)%nat with j by lia. reflexivity.
Qed.

Lemma np_histogram_edges_uniform (a : list R) (n : nat) (lo hi : R) :
  (0 < n)%nat -> lo < hi ->
  np_histogram_edges a (np_linspace lo hi (n + 1))
  = ret (np_histogram a n lo hi).
Proof.
  intros Hn Hlh. unfold np_histogram_edges.
  rewrite np_linspace_increasing by assumption. cbv zeta.
  rewrite cumulative_counts by exact Hn. f_equal.
  destruct (np_histogram_sum a n lo hi Hn Hlh) as [_ Hlen].
  set (cum := (map (fun j => searchsorted_left a (bin_edge n lo hi j)) (seq 0 n)
               ++ [searchsorted_right a hi])%list).
  assert (Hcum : length cum = S n).
  { unfold cum. rewrite length_app, length_map, length_seq. simpl. lia. }
  assert (Hlow : forall j, (j < n)%nat ->
            nth j cum 0%Z = searchsorted_left a (bin_edge n lo hi j)).
  { intros j Hj. unfold cum.
    rewrite app_nth1 by (rewrite length_map, length_seq; exact Hj).
    apply (nth_map_seq (fun j => searchsorted_left a (bin_edge n lo hi j))).
    exact Hj. }
  assert (Htop : nth n cum 0%Z = searchsorted_right a hi).
  { unfold cum. rewrite app_nth2 by (rewrite length_map, length_seq; lia).
    rewrite length_map, length_seq, Nat.sub_diag. reflexivity. }
  apply (nth_ext _ _ 0%Z 0%Z).
  - rewrite np_diff_length, Hcum, Hlen. lia.
  - intros j Hj. rewrite np_diff_length, Hcum in Hj.
    rewrite nth_np_diff by lia.
    rewrite (np_histogram_nth a n lo hi j Hn Hlh) by lia.
    rewrite (Hlow j) by lia. unfold in_data_bin.
    pose proof (bin_edge_le n lo hi j (S j) Hn Hlh ltac:(lia)) as Hstep.
    pose proof (bin_edge_le n lo hi j n Hn Hlh ltac:(lia)) as Hend.
    rewrite (bin_edge_last n lo hi Hn) in Hend.
    replace (S j - 1)%nat with j by lia.
    destruct (Nat.eqb_spec (S j) n) as [Heq|Hne].
    + rewrite Heq, Htop. unfold searchsorted_left, searchsorted_right.
      rewrite <- count_where_difference.
      * f_equal. apply count_where_ext. intros v. unfold in_closed.
        destruct (Rle_dec (bin_edge n lo hi j) v), (Rle_dec v hi),
          (Rlt_dec v (bin_edge n lo hi j)); try reflexivity; lra.
      * intros v. destruct (Rlt_dec v (bin_edge n lo hi j)), (Rle_dec v hi);
          try reflexivity; try discriminate. lra.
    + rewrite (Hlow (S j)) by lia. unfold searchsorted_left.
      rewrite <- count_where_difference.
      * f_equal. apply count_where_ext. intros v. unfold in_half_open.
        destruct (Rle_dec (bin_edge n lo hi j) v),
          (Rlt_dec v (bin_edge n lo hi (S j))),
          (Rlt_dec v (bin_edge n lo hi j)); try reflexivity; lra.
      * intros v. destruct (Rlt_dec v (bin_edge n lo hi j)),
          (Rlt_dec v (bin_edge n lo hi (S j)));
          try reflexivity; try discriminate. lra.
Qed.

Lemma fill_data_hist_bin (n : nat) (lo hi : R) (m : list R) (i : nat) :
  (0 < n)%nat -> lo < hi -> (1 <= i <= n)%nat ->
  GetBinContent (fill_data_hist n lo hi m) i
  = IZR (nth (i - 1) (np_histogram m n lo hi) 0%Z).
Proof.
  intros Hn Hlh Hi. destruct (np_histogram_sum m n lo hi Hn Hlh) as [_ Hlen].
  unfold fill_data_hist, GetBinContent. cbv zeta.
  rewrite SetBinContent_fold. cbn [fArray TH1F_new].
  rewrite nth_set_loop by (rewrite repeat_length, Hlen; lia).
  rewrite Hlen.
  destruct (Nat.leb_spec (0 + 1) i), (Nat.ltb_spec i (0 + 1 + n)); try lia.
  cbn [andb]. replace (i - (0 + 1))%nat with (i - 1)%nat by lia. reflexivity.
Qed.

(** X21. The plot and the export agree on the observed data.  [plot_data]
    bins the masses with the array of edges from [np.linspace] and
    [save_histograms_to_root] with a number of bins and a range; whenever
    the export succeeds, the 36 counts that [plot_data] draws are the
    contents of the bins 1 to 36 of the exported [data_hist]. *)
Theorem plotted_counts_are_exported (samples : dict (list string))
    (data : dict Array) (file : dict TH1F) :
  save_histograms_to_root samples data = ret file ->
  exists counts h,
    plot_data_data_x data = ret counts
    /\ length counts = 36%nat
    /\ dict_get file "data_hist" = ret h
    /\ forall i, (1 <= i <= 36)%nat ->
         GetBinContent h i = IZR (nth (i - 1) counts 0%Z).
Proof.
  intros H. apply export_inv in H
    as (d & d_m & sx & sw & mc & Hd & Hm & _ & _ & ->).
  apply get_mllll_ok in Hm.
  assert (H36 : (0 < 36)%nat) by lia.
  assert (Hrange : 70 < 180) by lra.
  exists (np_histogram d_m 36 70 180), (fill_data_hist 36 70 180 d_m).
  split; [|split; [|split]].
  - unfold plot_data_data_x. cbv zeta. rewrite Hd, bind_ret, Hm, bind_ret.
    replace (70 * GeV) with 70 by (unfold GeV; lra).
    replace (180 * GeV) with 180 by (unfold GeV; lra).
    apply np_histogram_edges_uniform; assumption.
  - apply (np_histogram_sum d_m 36 70 180 H36 Hrange).
  - reflexivity.
  - intros i Hi. apply fill_data_hist_bin; assumption.
Qed.

Lemma plotted_counts_are_exported_witness :
  exists counts h,
    plot_data_data_x (data_small 125) = ret counts
    /\ length counts = 36%nat
    /\ dict_get [("data_hist"%string, fill_data_hist 36 70 180 [125]);
                 ("signal_hist"%string, fill_mc_hist 36 70 180 [125] [0.5])]
                "data_hist" = ret h
    /\ forall i, (1 <= i <= 36)%nat ->
         GetBinContent h i = IZR (nth (i - 1) counts 0%Z).
Proof.
  apply (plotted_counts_are_exported samples_small (data_small 125)).
  reflexivity.
Defined.

(** ** The test for observed data *)

Lemma prefix_split (pat s : string) :
  String.prefix pat s = true <-> exists post, s = (pat ++ post)%string.
Proof.
  revert s. induction pat as [|a pat IH]; intros s.
  - split; [|destruct s; reflexivity]. intros _. exists s. reflexivity.
  - destruct s as [|b s]; cbn [String.prefix String.append].
    + split; [discriminate|]. intros [post H]. discriminate H.
    + destruct (ascii_dec a b) as [->|Hab].
      * rewrite IH. split; intros [post H]; exists post.
        -- rewrite H. reflexivity.
        -- inversion H. reflexivity.
      * split; [discriminate|]. intros [post H]. inversion H. congruence.
Qed.

Lemma str_contains_split (pat s : string) :
  str_contains pat s = true
  <-> exists pre post, s = (pre ++ pat ++ post)%string.
Proof.
  induction s as [|c s IH]; cbn [str_contains].
  - rewrite orb_false_r, prefix_split. split.
    + intros [post H]. exists EmptyString, post. exact H.
    + intros [pre [post H]]. destruct pre as [|c pre]; [|discriminate H].
      exists post. exact H.
  - rewrite orb_true_iff, prefix_split, IH. split.
    + intros [[post H]|[pre [post H]]].
      * exists EmptyString, post. exact H.
      * exists (String c pre), post. rewrite H. reflexivity.
    + intros [pre [post H]]. destruct pre as [|c' pre].
      * left. exists post. exact H.
      * right. inversion H. exists pre, post. reflexivity.
Qed.

(** X22. Whether a file is treated as observed data is decided by its
    sample identifier alone: the array that [read_file] returns has no
    weight column exactly when the identifier can be written as some
    text, then [data], then some text; the category and the path play no
    part. *)
Theorem read_file_data_split (lumi fraction : R) (infos : dict Info)
    (uproot_open : string -> result (list Event)) (entry_step : nat)
    (path sample : string) (out : Array) :
  read_file lumi fraction infos uproot_open entry_step path sample = ret out ->
  (totalWeight out = None
   <-> exists pre post, sample = (pre ++ "data" ++ post)%string).
Proof.
  intros H. rewrite <- str_contains_split.
  apply (read_file_field lumi fraction infos uproot_open entry_step
           path sample out H).
Qed.

Lemma read_file_data_split_witness :
  totalWeight {| rows := [ev_2e2mu]; totalWeight := None;
                 mllll := Some [mllll_event ev_2e2mu] |} = None
  <-> exists pre post, "fakedata_llll"%string = (pre ++ "data" ++ post)%string.
Proof.
  apply (read_file_data_split 10 1 infos_fake one_event_storage 1
           "Input/4lep/MC/mc_363490.fakedata_llll.4lep.root" "fakedata_llll").
  unfold read_file, one_event_storage. rewrite !bind_ret. cbv zeta.
  change (str_contains "data" "fakedata_llll") with true.
  cbn [negb]. rewrite bind_ret. change (length [ev_2e2mu]) with 1%nat.
  rewrite iterate_single. cbn [mapM].
  rewrite process_batch_ok by (repeat constructor). reflexivity.
Defined.

(** ** From the files to the exported histograms *)

Section Pipeline.

Variable lumi : R.
Variable fraction : R.
Variable tuple_path : string.
Variable infos : dict Info.
Variable uproot_open : string -> result (list Event).
Variable entry_step : nat.

Local Abbreviation read_file_ :=
  (read_file lumi fraction infos uproot_open entry_step).
Local Abbreviation read_category_ :=
  (read_category lumi fraction tuple_path infos uproot_open entry_step).
Local Abbreviation get_data_loop_ :=
  (get_data_loop lumi fraction tuple_path infos uproot_open entry_step).

Lemma process_batch_mass (sample : string) (xsec_weight : option R)
    (batch out : Array) :
  process_batch sample xsec_weight batch = ret out -> mllll out <> None.
Proof.
  unfold process_batch. intros H.
  apply bind_inv in H as [d1 [_ H]].
  apply bind_inv in H as [d2 [_ H]].
  apply bind_inv in H as [m [_ H]].
  inversion H; subst. discriminate.
Qed.

Lemma ak_concatenate_mass (arrays : list Array) (out : Array) :
  ak_concatenate arrays = ret out ->
  Forall (fun a => mllll a <> None) arrays -> mllll out <> None.
Proof.
  intros Hcat Hall.
  assert (Hout : mllll out = concat_columns (map mllll arrays)).
  { destruct arrays; [discriminate Hcat|]. inversion Hcat. reflexivity. }
  rewrite Hout. apply concat_columns_some, Forall_map. exact Hall.
Qed.

Lemma ak_concatenate_weights (arrays : list Array) (out : Array) :
  ak_concatenate arrays = ret out ->
  Forall (fun a => totalWeight a <> None) arrays -> totalWeight out <> None.
Proof.
  intros Hcat Hall.
  assert (Hout : totalWeight out = concat_columns (map totalWeight arrays)).
  { destruct arrays; [discriminate Hcat|]. inversion Hcat. reflexivity. }
  rewrite Hout. apply concat_columns_some, Forall_map. exact Hall.
Qed.

Lemma read_file_mass (path sample : string) (out : Array) :
  read_file_ path sample = ret out -> mllll out <> None.
Proof.
  unfold read_file. intros H.
  apply bind_inv in H as [tree [_ H]]. cbv zeta in H.
  apply bind_inv in H as [xw [_ H]].
  apply bind_inv in H as [data_all [Hall Hcat]].
  apply (ak_concatenate_mass data_all out Hcat).
  apply mapM_inv in Hall. eapply Forall2_Forall_r; [exact Hall|].
  intros b a _ Hb. apply (process_batch_mass sample xw b a Hb).
Qed.

Lemma read_category_columns (s : string) (vals : list string) (a : Array) :
  read_category_ s vals = ret a ->
  mllll a <> None
  /\ (Forall (fun v => str_contains "data" v = false) vals ->
      totalWeight a <> None).
Proof.
  unfold read_category. intros H.
  apply bind_inv in H as [frames [Hframes Hcat]]. apply mapM_inv in Hframes.
  split.
  - apply (ak_concatenate_mass frames a Hcat).
    eapply Forall2_Forall_r; [exact Hframes|].
    intros v f _ Hf. unfold read_one in Hf.
    apply bind_inv in Hf as [prefix [_ Hf]]. cbv zeta in Hf.
    apply (read_file_mass _ _ _ Hf).
  - intros Hvals. apply (ak_concatenate_weights frames a Hcat).
    eapply Forall2_Forall_r; [exact Hframes|].
    intros v f Hin Hf. unfold read_one in Hf.
    apply bind_inv in Hf as [prefix [_ Hf]]. cbv zeta in Hf.
    rewrite Forall_forall in Hvals. specialize (Hvals v Hin).
    intros Hnone.
    apply (read_file_field lumi fraction infos uproot_open entry_step
             _ _ _ Hf) in Hnone.
    congruence.
Qed.

Lemma get_data_loop_inv (todo : dict (list string)) (acc data : dict Array) :
  get_data_loop_ todo acc = ret data ->
  exists arrays,
    Forall2 (fun c a => read_category_ (fst c) (snd c) = ret a) todo arrays.
Proof.
  revert acc. induction todo as [|[s vals] todo IH]; intros acc H.
  - exists []. constructor.
  - cbn [get_data_loop] in H. apply bind_inv in H as [a [Ha H]].
    destruct (IH _ H) as [arrays Harrays].
    exists (a :: arrays). constructor; [exact Ha|exact Harrays].
Qed.

Lemma dict_get_combine {V W} (P : string * V -> W -> Prop) (todo : dict V)
    (arrays : list W) (s : string) :
  Forall2 P todo arrays -> In s (dict_keys todo) ->
  exists c a,
    In c todo /\ fst c = s /\ P c a
    /\ dict_get (combine (dict_keys todo) arrays) s = ret a.
Proof.
  induction 1 as [|[k v] a todo arrays Hka _ IH]; intros Hin; [destruct Hin|].
  cbn [dict_keys map fst combine dict_get].
  destruct (String.eqb_spec s k) as [->|Hne].
  - exists (k, v), a. repeat split; [left; reflexivity|exact Hka].
  - destruct Hin as [Hin|Hin]; [cbn [fst] in Hin; congruence|].
    destruct (IH Hin) as (c & a' & Hc & Hs & HP & Hget).
    exists c, a'. repeat split; try assumption. right. exact Hc.
Qed.

Lemma present_column (c : option (list R)) : c <> None -> exists l, c = Some l.
Proof. destruct c as [l|]; [exists l; reflexivity|contradiction]. Qed.

(** X23. After a run that read every category, the export cannot fail
    for a missing category or column.  When the configuration lists the
    data and the signal category, and no sample of another category than
    [data] carries [data] in its identifier, the dict that
    [get_data_from_files] returns has every column that
    [save_histograms_to_root] looks up: the export returns a file or
    raises the [TypeError] of [FillN], and it raises when no signal event
    survived the selection. *)
Theorem read_then_export (samples : dict (list string)) (data : dict Array) :
  NoDup (dict_keys samples) ->
  In "data"%string (dict_keys samples) ->
  In signal_key (dict_keys samples) ->
  Forall (fun c => fst c <> "data"%string ->
                   Forall (fun v => str_contains "data" v = false) (snd c))
         samples ->
  get_data_from_files lumi fraction tuple_path samples infos uproot_open
                      entry_step = ret data ->
  ((exists file, save_histograms_to_root samples data = ret file)
   \/ save_histograms_to_root samples data = raise TypeError)
  /\ (forall sg, dict_get data signal_key = ret sg -> mllll sg = Some [] ->
                 save_histograms_to_root samples data = raise TypeError).
Proof.
  intros Hnd Hdata Hsignal Hcons Hread. unfold get_data_from_files in Hread.
  destruct (get_data_loop_inv samples [] data Hread) as [arrays Harrays].
  rewrite (get_data_loop_ok lumi fraction tuple_path infos uproot_open
             entry_step samples arrays [] Hnd Harrays) in Hread.
  inversion Hread; subst data. clear Hread. cbn [app].
  assert (Hmc : forall s, In s (dict_keys samples) -> s <> "data"%string ->
            exists a x w,
              dict_get (combine (dict_keys samples) arrays) s = ret a
              /\ mllll a = Some x /\ totalWeight a = Some w).
  { intros s Hin Hs.
    destruct (dict_get_combine _ samples arrays s Harrays Hin)
      as (c & a & Hc & Hfst & Hcat & Hget).
    destruct (read_category_columns _ _ _ Hcat) as [Hm Hw].
    rewrite Forall_forall in Hcons. specialize (Hcons c Hc).
    rewrite Hfst in Hcons.
    destruct (present_column _ Hm) as [x Hx].
    destruct (present_column _ (Hw (Hcons Hs))) as [w Hw'].
    exists a, x, w. repeat split; assumption. }
  assert (Hd : exists d m,
            dict_get (combine (dict_keys samples) arrays) "data" = ret d
            /\ mllll d = Some m).
  { destruct (dict_get_combine _ samples arrays "data"%string Harrays Hdata)
      as (c & a & _ & _ & Hcat & Hget).
    destruct (read_category_columns _ _ _ Hcat) as [Hm _].
    destruct (present_column _ Hm) as [x Hx]. exists a, x. split; assumption. }
  split.
  - apply export_outcome; [exact Hd|]. constructor.
    + apply Hmc; [exact Hsignal|discriminate].
    + apply Forall_forall. intros s Hin. apply filter_In in Hin as [Hin Hs].
      apply Hmc; [exact Hin|]. intros ->. discriminate Hs.
  - intros sg Hsg Hempty. destruct Hd as (d & m & Hd & Hm).
    destruct (Hmc signal_key Hsignal ltac:(discriminate))
      as (a & x & w & Ha & Hx & Hw).
    rewrite Hsg in Ha. inversion Ha; subst a. clear Ha.
    unfold save_histograms_to_root. cbv zeta.
    rewrite Hd, bind_ret, (get_mllll_ok d m Hm), bind_ret.
    rewrite Hsg, bind_ret, (get_mllll_ok sg [] Hempty), bind_ret.
    rewrite (get_totalWeight_ok sg w Hw), bind_ret. reflexivity.
Qed.

End Pipeline.

Lemma get_data_from_files_small :
  get_data_from_files 10 1 "Input/4lep/" samples_small infos_signal
                      one_event_storage 1 = ret data_read.
Proof.
  unfold get_data_from_files, samples_small. cbn [get_data_loop].
  unfold read_category. cbn [mapM]. unfold read_one.
  change (file_prefix infos_signal "data" "data_A")
    with (@ret string "Data/"%string).
  change (file_prefix infos_signal signal_key "ggH125_ZZ4lep")
    with (@ret string "MC/mc_345060."%string).
  rewrite !bind_ret. cbv zeta.
  unfold read_file, one_event_storage. rewrite !bind_ret. cbv zeta.
  change (str_contains "data" "data_A") with true.
  change (str_contains "data" "ggH125_ZZ4lep") with false.
  cbn [negb]. rewrite !bind_ret. change (length [ev_2e2mu]) with 1%nat.
  rewrite iterate_single. cbn [mapM].
  rewrite !process_batch_ok by (repeat constructor).
  change (str_contains "data" "data_A") with true.
  change (str_contains "data" "ggH125_ZZ4lep") with false.
  cbn [negb]. rewrite !bind_ret.
  assert (Hxw : get_xsec_weight 10 infos_signal "ggH125_ZZ4lep"
                = ret (10 * 1000 * 2 / (4 * 1))).
  { unfold get_xsec_weight.
    change (dict_get infos_signal "ggH125_ZZ4lep")
      with (@ret Info {| DSID := 345060; events := 985000; red_eff := 1;
                         sumw := 4; xsec := 2 |}).
    rewrite bind_ret. cbn [xsec sumw red_eff].
    rewrite py_div_nonzero by lra. reflexivity. }
  rewrite Hxw, !bind_ret. cbn [mapM].
  rewrite !process_batch_ok by (repeat constructor).
  change (str_contains "data" "ggH125_ZZ4lep") with false.
  cbn [negb]. rewrite !bind_ret. reflexivity.
Qed.

Lemma read_then_export_witness :
  ((exists file, save_histograms_to_root samples_small data_read = ret file)
   \/ save_histograms_to_root samples_small data_read = raise TypeError)
  /\ (forall sg, dict_get data_read signal_key = ret sg ->
                 mllll sg = Some [] ->
                 save_histograms_to_root samples_small data_read
                 = raise TypeError).
Proof.
  apply (read_then_export 10 1 "Input/4lep/" infos_signal one_event_storage
           1%nat samples_small data_read).
  - repeat constructor; simpl; [intros [H|[]]; discriminate H|tauto].
  - left. reflexivity.
  - right. left. reflexivity.
  - constructor; [|constructor; [|constructor]]; cbn [fst snd].
    + intros H. exfalso. apply H. reflexivity.
    + intros _. constructor; [reflexivity|constructor].
  - exact get_data_from_files_small.
Defined.
